(** * k8r checkup: problem detectors and report aggregation

    A shallow embedding of the Go package [checkup] of k8r
    (cmd/k8r/checkup): the problem catalog with its detectors, the
    per-resource scan, [ReportFromResources], the two derived indices
    [ByProblem] and [BySeverity], and the [Run] driver.

    Conventions of the embedding.
    - Go [string] is [string]; [int32] and [int] are [Z] (the one
      conversion [int32(x)] of the source is written out with its
      wrap-around); [bool] is [bool].
    - A Go pointer that may be nil is an [option]; dereferencing nil
      panics, so code that dereferences returns in the [result] monad.
    - [map[K]V] is stdpp's [gmap K V]; the set [map[string]struct{}] is
      [gset string].
    - A pointer [&r.Resources[j]] into the report's slice is the index [j].
    - [ByProblem] and [BySeverity] are given twice: as functions of the
      report, and in [OnHeap] as programs over a heap that holds the report
      behind the receiver and the maps made by [make]; the second form
      states what a call leaves behind, and is proved to compute the first.
    - The [context.Context] argument of detectors is never read by the
      source and is left out. *)

From Stdlib Require Import ZArith String List Lia DecimalString.
From stdpp Require Import base gmap strings list fin_maps sorting.

Set Warnings "-clear-no-such-hyp".

Open Scope Z_scope.

(** ** Panics *)

(** A Go computation either returns a value or panics (nil dereference). *)
Inductive result (A : Type) : Type :=
| Ret (a : A)
| Panic.
Arguments Ret {A} a.
Arguments Panic {A}.

#[global] Instance result_bind : MBind result := fun A B k c =>
  match c with
  | Ret a => k a
  | Panic => Panic
  end.

(** [*p] for a pointer [p]: nil panics. *)
Definition deref {A : Type} (p : option A) : result A :=
  match p with
  | Some a => Ret a
  | None => Panic
  end.

(** [for i := range l { if ... { return v } }]: the body either returns
    from the enclosing function ([Some v]) or falls through to the next
    element ([None]). *)
Fixpoint range_return {A R : Type} (l : list A) (body : A -> result (option R))
  : result (option R) :=
  match l with
  | [] => Ret None
  | x :: l' =>
      r ← body x;
      match r with
      | Some v => Ret (Some v)
      | None => range_return l' body
      end
  end.

(** ** fmt verbs used by the source *)

(** [%d] on an integer: signed decimal. *)
Definition fmt_d (z : Z) : string := NilZero.string_of_int (Z.to_int z).

(** [int32(x)] for [x : int]: the low 32 bits, read as a signed number. *)
Definition int32 (x : Z) : Z := (x + 2 ^ 31) mod 2 ^ 32 - 2 ^ 31.

(** ** Kubernetes API types (the fields the source reads) *)

Module metav1.
(** [metav1.Time]; the only use in the source is formatting with [%s],
    i.e. its [String()] rendering, which is what the record holds. *)
Record Time : Type := { String_ : string }.
End metav1.

Module corev1.
Record ContainerStateWaiting : Type := {
  w_Reason : string;
  w_Message : string
}.

Record ContainerStateTerminated : Type := {
  t_Reason : string;
  t_Message : string;
  FinishedAt : metav1.Time
}.

Record ContainerState : Type := {
  Waiting : option ContainerStateWaiting;
  Terminated : option ContainerStateTerminated
}.

Record ContainerStatus : Type := {
  cs_Name : string;
  State : ContainerState;
  LastTerminationState : ContainerState;
  Ready : bool;
  RestartCount : Z
}.

Record Container : Type := {
  c_Name : string;
  Image : string
}.

Record PodSpec : Type := {
  Containers : list Container;
  InitContainers : list Container
}.

Definition PodRunning : string := "Running".
Definition PodPending : string := "Pending".

Record PodStatus : Type := {
  Phase : string;
  ContainerStatuses : list ContainerStatus;
  InitContainerStatuses : list ContainerStatus
}.

Record Pod : Type := {
  Name : string;
  Namespace : string;
  Labels : gmap string string;
  Spec : PodSpec;
  Status : PodStatus
}.
End corev1.

Module v1.
Record HorizontalPodAutoscalerSpec : Type := { MaxReplicas : Z }.
Record HorizontalPodAutoscalerStatus : Type := { CurrentReplicas : Z }.

Record HorizontalPodAutoscaler : Type := {
  Name : string;
  Namespace : string;
  Labels : gmap string string;
  Spec : HorizontalPodAutoscalerSpec;
  Status : HorizontalPodAutoscalerStatus
}.
End v1.

(** [runtime.Object]: the dynamic type decides the outcome of the type
    assertions of the detectors to a pod pointer or an autoscaler pointer.
    An interface value holding a pointer of one of these two types passes
    the assertion to that type whether the pointer is nil or not, so the
    nil pointers of the two types are values of their own: [ObjPod] and
    [ObjHPA] are the pointers to a pod and to an autoscaler, [ObjNilPod]
    and [ObjNilHPA] the nil pointers of the two types.  [ObjOther] stands
    for every other value, the nil interface included: both assertions
    fail on it. *)
Inductive Object : Type :=
| ObjPod (pod : corev1.Pod)
| ObjNilPod
| ObjHPA (hpa : v1.HorizontalPodAutoscaler)
| ObjNilHPA
| ObjOther.

(** ** problem.go: the data model *)

Definition Severity : Type := Z.
Definition SeverityError : Severity := 0.
Definition SeverityWarning : Severity := 1.

Record Config : Type := { RestartThreshold : Z }.

(** What a detector returns: [(resourceSpecificReason, warning, isOccurring)]. *)
Definition Detection : Type := (string * bool * bool)%type.

Definition reason (d : Detection) : string := d.1.1.
Definition warning (d : Detection) : bool := d.1.2.
Definition isOccurring (d : Detection) : bool := d.2.

Record Problem : Type := {
  ID : string;
  ShortDescription : string;
  HelpURL : string;
  Detector : Object -> option Config -> result Detection
}.

Record Resource : Type := {
  Name : string;
  Owner : string;
  Type_ : string;
  ProblemID : string;
  ProblemDetails : string;
  Warning : bool
}.

Record Report : Type := {
  Problems : list Problem;
  Resources : list Resource
}.

(** ** existing_checks.go: pod detectors *)

Definition no_problem : Detection := ("", false, false).

Definition isCrashLoopBackoff (cs : corev1.ContainerStatus) : bool :=
  match corev1.Waiting (corev1.State cs) with
  | Some w => bool_decide (corev1.w_Reason w = "CrashLoopBackOff")
  | None => false
  end.

Definition ProblemPodCrashLoopBackOff : Problem := {|
  ID := "PodCrashLoopBackOff";
  ShortDescription :=
    "A pod is in a crash loop backoff state, meaning it is crashing repeatedly";
  HelpURL := "";
  Detector := fun obj _ =>
    match obj with
    | ObjPod pod =>
        r ← range_return (corev1.ContainerStatuses (corev1.Status pod))
               (fun cs =>
                  if isCrashLoopBackoff cs then
                    t ← deref (corev1.Terminated (corev1.LastTerminationState cs));
                    Ret (Some ("Container " +:+ corev1.cs_Name cs +:+
                               " in a crash loop backoff state: " +:+
                               corev1.t_Message t, false, true))
                  else Ret None);
        match r with
        | Some d => Ret d
        | None =>
            r ← range_return (corev1.InitContainerStatuses (corev1.Status pod))
                   (fun cs =>
                      if isCrashLoopBackoff cs then
                        t ← deref (corev1.Terminated (corev1.LastTerminationState cs));
                        Ret (Some ("Init container " +:+ corev1.cs_Name cs +:+
                                   " in a crash loop backoff state: " +:+
                                   corev1.t_Message t, false, true))
                      else Ret None);
            match r with
            | Some d => Ret d
            | None => Ret no_problem
            end
        end
    | ObjNilPod => Panic (* ok is true; reading pod.Status dereferences nil *)
    | _ => Ret no_problem
    end
|}.

Definition ProblemPodNotReady : Problem := {|
  ID := "PodNotReady";
  ShortDescription :=
    "A pod is not ready which can indicate a problem with the pod";
  HelpURL := "";
  Detector := fun obj _ =>
    match obj with
    | ObjPod pod =>
        if bool_decide (corev1.Phase (corev1.Status pod) <> corev1.PodRunning)
        then Ret no_problem
        else
          r ← range_return (corev1.ContainerStatuses (corev1.Status pod))
                 (fun cs =>
                    if negb (corev1.Ready cs) then
                      Ret (Some ("Container " +:+ corev1.cs_Name cs +:+
                                 " is not ready", false, true))
                    else Ret None);
          match r with
          | Some d => Ret d
          | None => Ret no_problem
          end
    | ObjNilPod => Panic (* ok is true; reading pod.Status dereferences nil *)
    | _ => Ret no_problem
    end
|}.

Definition isImagePullBackOff (cs : corev1.ContainerStatus) : bool :=
  match corev1.Waiting (corev1.State cs) with
  | Some w =>
      bool_decide (corev1.w_Reason w = "ImagePullBackOff")
      || bool_decide (corev1.w_Reason w = "ErrImagePull")
  | None => false
  end.

(** The inner search loop of [getImageForContainerStatus]: the first
    container of [sl] with the given name, nil if there is none. *)
Fixpoint findContainer (sl : list corev1.Container) (name : string)
  : option corev1.Container :=
  match sl with
  | [] => None
  | c :: sl' =>
      if bool_decide (corev1.c_Name c = name) then Some c
      else findContainer sl' name
  end.

Definition getImageForContainerStatus (pod : corev1.Pod) (isInitContainer : bool)
    (cs : corev1.ContainerStatus) : string :=
  let sl := if isInitContainer
            then corev1.InitContainers (corev1.Spec pod)
            else corev1.Containers (corev1.Spec pod) in
  match findContainer sl (corev1.cs_Name cs) with
  | None => "unknown"
  | Some container => corev1.Image container
  end.

Definition ProblemPodImagePullBackOff : Problem := {|
  ID := "PodImagePullBackOff";
  ShortDescription :=
    "A pod is in a image pull backoff state, meaning it is unable to pull the image";
  HelpURL := "";
  Detector := fun obj _ =>
    match obj with
    | ObjPod pod =>
        r ← range_return (corev1.ContainerStatuses (corev1.Status pod))
               (fun cs =>
                  let imageName := getImageForContainerStatus pod false cs in
                  if isImagePullBackOff cs then
                    Ret (Some ("Container " +:+ corev1.cs_Name cs +:+
                               " is failing to pull its image (" +:+
                               imageName +:+ ")", false, true))
                  else Ret None);
        match r with
        | Some d => Ret d
        | None =>
            r ← range_return (corev1.InitContainerStatuses (corev1.Status pod))
                   (fun cs =>
                      let imageName := getImageForContainerStatus pod true cs in
                      if isImagePullBackOff cs then
                        Ret (Some ("Container " +:+ corev1.cs_Name cs +:+
                                   " is failing to pull its image (" +:+
                                   imageName +:+ ")", false, true))
                      else Ret None);
            match r with
            | Some d => Ret d
            | None => Ret no_problem
            end
        end
    | ObjNilPod => Panic (* ok is true; reading pod.Status dereferences nil *)
    | _ => Ret no_problem
    end
|}.

(** [st.Terminated != nil && st.Terminated.Reason == "OOMKilled"] *)
Definition terminatedOOMKilled (st : corev1.ContainerState) : bool :=
  match corev1.Terminated st with
  | Some t => bool_decide (corev1.t_Reason t = "OOMKilled")
  | None => false
  end.

(** The body of the loop of the PodOOMKilled detector for one container. *)
Definition oomKilled_body (cs : corev1.ContainerStatus) : result (option Detection) :=
  if terminatedOOMKilled (corev1.State cs) then
    Ret (Some ("Container " +:+ corev1.cs_Name cs +:+
               " was killed because it ran out of memory", false, true))
  else if terminatedOOMKilled (corev1.LastTerminationState cs) then
    t ← deref (corev1.Terminated (corev1.LastTerminationState cs));
    Ret (Some ("Container " +:+ corev1.cs_Name cs +:+
               " was recently killed because it ran out of memory: " +:+
               metav1.String_ (corev1.FinishedAt t), true, true))
  else Ret None.

Definition ProblemPodOOMKilled : Problem := {|
  ID := "PodOOMKilled";
  ShortDescription := "A pod was killed because it ran out of memory recently";
  HelpURL := "";
  Detector := fun obj _ =>
    match obj with
    | ObjPod pod =>
        r ← range_return (corev1.ContainerStatuses (corev1.Status pod))
               oomKilled_body;
        match r with
        | Some d => Ret d
        | None => Ret no_problem
        end
    | ObjNilPod => Panic (* ok is true; reading pod.Status dereferences nil *)
    | _ => Ret no_problem
    end
|}.

Definition ProblemPodPending : Problem := {|
  ID := "PodPending";
  ShortDescription := "A pod is pending";
  HelpURL := "";
  Detector := fun obj _ =>
    match obj with
    | ObjPod pod =>
        if bool_decide (corev1.Phase (corev1.Status pod) <> corev1.PodPending)
        then Ret no_problem
        else
          r ← range_return (corev1.ContainerStatuses (corev1.Status pod))
                 (fun cs =>
                    match corev1.Waiting (corev1.State cs) with
                    | Some w =>
                        Ret (Some ("Container " +:+ corev1.cs_Name cs +:+
                                   " is pending: " +:+ corev1.w_Message w,
                                   false, true))
                    | None => Ret None
                    end);
          match r with
          | Some d => Ret d
          | None =>
              r ← range_return (corev1.InitContainerStatuses (corev1.Status pod))
                     (fun cs =>
                        match corev1.Waiting (corev1.State cs) with
                        | Some w =>
                            Ret (Some ("Init container " +:+ corev1.cs_Name cs +:+
                                       " is pending: " +:+ corev1.w_Message w,
                                       false, true))
                        | None => Ret None
                        end);
              match r with
              | Some d => Ret d
              | None => Ret no_problem
              end
          end
    | ObjNilPod => Panic (* ok is true; reading pod.Status dereferences nil *)
    | _ => Ret no_problem
    end
|}.

(** ** The detectors added by k8r: MaxedOutHPAs and HighRestarts *)

Definition ProblemMaxedOutHPAs : Problem := {|
  ID := "MaxedOutHPAs";
  ShortDescription := "A pod's HPAs current replicas is equal to its max";
  HelpURL := "https://github.com/Ashvin-Ranjan/k8r/wiki/MaxedOutHPAs";
  Detector := fun obj _ =>
    match obj with
    | ObjHPA hpa =>
        if bool_decide (v1.MaxReplicas (v1.Spec hpa)
                        = v1.CurrentReplicas (v1.Status hpa))
        then Ret (v1.Name hpa +:+ " has " +:+
                  fmt_d (v1.CurrentReplicas (v1.Status hpa)) +:+ "/" +:+
                  fmt_d (v1.MaxReplicas (v1.Spec hpa)) +:+ " replicas",
                  true, true)
        else Ret no_problem
    | ObjNilHPA => Panic (* ok is true; reading hpa.Spec dereferences nil *)
    | _ => Ret no_problem
    end
|}.

(** The detail that the HighRestarts detector formats for container [cs]. *)
Definition highRestarts_detail (pod : corev1.Pod) (cs : corev1.ContainerStatus)
  : string :=
  "Container " +:+ corev1.Name pod +:+ " has restarted " +:+
  fmt_d (corev1.RestartCount cs) +:+ " time(s)".

(** The body of the loop of the HighRestarts detector for one container;
    [cfg.RestartThreshold] dereferences the [*Config]. *)
Definition highRestarts_body (pod : corev1.Pod) (cfg : option Config)
    (cs : corev1.ContainerStatus) : result (option Detection) :=
  c ← deref cfg;
  if bool_decide (int32 (RestartThreshold c) <= corev1.RestartCount cs) then
    Ret (Some (highRestarts_detail pod cs, true, true))
  else Ret None.

Definition ProblemHighRestarts : Problem := {|
  ID := "HighRestarts";
  ShortDescription := "A pod keeps restarting which can indicate a problem";
  HelpURL := "https://github.com/Ashvin-Ranjan/k8r/wiki/HighRestarts";
  Detector := fun obj cfg =>
    match obj with
    | ObjPod pod =>
        r ← range_return (corev1.ContainerStatuses (corev1.Status pod))
               (highRestarts_body pod cfg);
        match r with
        | Some d => Ret d
        | None => Ret no_problem
        end
    | ObjNilPod => Panic (* ok is true; reading pod.Status dereferences nil *)
    | _ => Ret no_problem
    end
|}.

(** ** The catalog *)

Definition enabledPodProblems : list Problem :=
  [ ProblemPodCrashLoopBackOff;
    ProblemPodNotReady;
    ProblemPodImagePullBackOff;
    ProblemPodOOMKilled;
    ProblemHighRestarts ].

Definition enabledHPAProblems : list Problem := [ ProblemMaxedOutHPAs ].

Definition enabledProblems : list Problem :=
  enabledPodProblems ++ enabledHPAProblems.

(** ** problem.go: the report and its indices *)

(** [GetProblemByID]: the first problem of the report with this ID, nil if
    there is none. *)
Fixpoint findProblem (problems : list Problem) (id : string) : option Problem :=
  match problems with
  | [] => None
  | problem :: rest =>
      if decide (ID problem = id) then Some problem else findProblem rest id
  end.

Definition GetProblemByID (r : Report) (id : string) : option Problem :=
  findProblem (Problems r) id.

(** [append(rtrn[id], resource)]: a missing key reads as the nil slice. *)
Definition appendAt (id : string) (j : nat) (rtrn : gmap string (list nat))
  : gmap string (list nat) :=
  <[id := default [] (rtrn !! id) ++ [j]]> rtrn.

(** The inner loop of [ByProblem]: [j] is the index of the head of
    [resources] in [r.Resources]. *)
Fixpoint ByProblem_resources (problem : Problem) (j : nat)
    (resources : list Resource) (rtrn : gmap string (list nat))
  : gmap string (list nat) :=
  match resources with
  | [] => rtrn
  | resource :: rest =>
      ByProblem_resources problem (S j) rest
        (if decide (ProblemID resource = ID problem)
         then appendAt (ID problem) j rtrn
         else rtrn)
  end.

(** The outer loop of [ByProblem]. *)
Fixpoint ByProblem_problems (problems : list Problem) (resources : list Resource)
    (rtrn : gmap string (list nat)) : gmap string (list nat) :=
  match problems with
  | [] => rtrn
  | problem :: rest =>
      ByProblem_problems rest resources
        (ByProblem_resources problem 0 resources rtrn)
  end.

Definition ByProblem (r : Report) : gmap string (list nat) :=
  ByProblem_problems (Problems r) (Resources r) ∅.

(** [rtrn[severity][id] = append(rtrn[severity][id], resource)]: the inner
    map is updated in place; both severities are keys of [rtrn] from the
    initialisation on. *)
Definition appendAtSeverity (severity : Severity) (id : string) (j : nat)
    (rtrn : gmap Severity (gmap string (list nat)))
  : gmap Severity (gmap string (list nat)) :=
  alter (appendAt id j) severity rtrn.

Fixpoint BySeverity_resources (problem : Problem) (j : nat)
    (resources : list Resource) (rtrn : gmap Severity (gmap string (list nat)))
  : gmap Severity (gmap string (list nat)) :=
  match resources with
  | [] => rtrn
  | resource :: rest =>
      BySeverity_resources problem (S j) rest
        (if decide (ProblemID resource = ID problem)
         then
           if negb (Warning resource)
           then appendAtSeverity SeverityError (ID problem) j rtrn
           else appendAtSeverity SeverityWarning (ID problem) j rtrn
         else rtrn)
  end.

Fixpoint BySeverity_problems (problems : list Problem) (resources : list Resource)
    (rtrn : gmap Severity (gmap string (list nat)))
  : gmap Severity (gmap string (list nat)) :=
  match problems with
  | [] => rtrn
  | problem :: rest =>
      BySeverity_problems rest resources
        (BySeverity_resources problem 0 resources rtrn)
  end.

Definition BySeverity (r : Report) : gmap Severity (gmap string (list nat)) :=
  BySeverity_problems (Problems r) (Resources r)
    (<[SeverityWarning := ∅]> (<[SeverityError := ∅]> ∅)).

(** The inner loop of [ReportFromResources]: the first enabled problem with
    this ID (the loop breaks at the first hit). *)
Fixpoint findEnabled (enabled : list Problem) (id : string) : option Problem :=
  match enabled with
  | [] => None
  | problem :: rest =>
      if decide (ID problem = id) then Some problem else findEnabled rest id
  end.

(** The outer loop of [ReportFromResources], over a catalog [catalog]. *)
Fixpoint collectProblems (catalog : list Problem) (resources : list Resource)
    (problemHM : gset string) (problems : list Problem) : list Problem :=
  match resources with
  | [] => problems
  | resource :: rest =>
      if decide (ProblemID resource ∈ problemHM)
      then collectProblems catalog rest problemHM problems
      else
        match findEnabled catalog (ProblemID resource) with
        | Some enabled =>
            collectProblems catalog rest
              ({[ID enabled]} ∪ problemHM) (problems ++ [enabled])
        | None => collectProblems catalog rest problemHM problems
        end
  end.

Definition ReportFromResources (resources : list Resource) : Report :=
  {| Problems := collectProblems enabledProblems resources ∅ [];
     Resources := resources |}.

(** ** The scan and the driver *)

Record Options : Type := { cfg : option Config }.

(** The loop over the enabled problems in [getPodsWithProblems] and
    [getHPAsWithProblems]. *)
Fixpoint detectProblems (enabled : list Problem) (obj : Object)
    (cfg : option Config) (defaultProblem : Resource) (problems : list Resource)
  : result (list Resource) :=
  match enabled with
  | [] => Ret problems
  | problem :: rest =>
      d ← Detector problem obj cfg;
      let '(resourceDetails, warning, occurring) := d in
      if negb occurring
      then detectProblems rest obj cfg defaultProblem problems
      else
        let p := {| Name := Name defaultProblem;
                    Owner := Owner defaultProblem;
                    Type_ := Type_ defaultProblem;
                    ProblemID := ID problem;
                    ProblemDetails := resourceDetails;
                    Warning := warning |} in
        detectProblems rest obj cfg defaultProblem (problems ++ [p])
  end.

Definition getPodsWithProblems (o : Options) (pod : corev1.Pod)
  : result (list Resource * bool) :=
  let defaultProblem :=
    {| Owner := default "" (corev1.Labels pod !! "reporting_team");
       Name := corev1.Namespace pod +:+ "/" +:+ corev1.Name pod;
       Type_ := "pod";
       ProblemID := ""; ProblemDetails := ""; Warning := false |} in
  problems ← detectProblems enabledPodProblems (ObjPod pod) (cfg o)
                defaultProblem [];
  Ret (problems, bool_decide (0 < length problems)%nat).

Definition getHPAsWithProblems (o : Options) (hpa : v1.HorizontalPodAutoscaler)
  : result (list Resource * bool) :=
  let defaultProblem :=
    {| Owner := default "" (v1.Labels hpa !! "reporting_team");
       Name := v1.Namespace hpa +:+ "/" +:+ v1.Name hpa;
       Type_ := "HPA";
       ProblemID := ""; ProblemDetails := ""; Warning := false |} in
  problems ← detectProblems enabledHPAProblems (ObjHPA hpa) (cfg o)
                defaultProblem [];
  Ret (problems, bool_decide (0 < length problems)%nat).

(** The two scan loops of [Run]. *)
Fixpoint scanPods (o : Options) (pods : list corev1.Pod)
    (resourceProblems : list Resource) : result (list Resource) :=
  match pods with
  | [] => Ret resourceProblems
  | p :: rest =>
      r ← getPodsWithProblems o p;
      let '(rs, is_) := r in
      scanPods o rest (if is_ : bool then resourceProblems ++ rs
                       else resourceProblems)
  end.

Fixpoint scanHPAs (o : Options) (hpas : list v1.HorizontalPodAutoscaler)
    (resourceProblems : list Resource) : result (list Resource) :=
  match hpas with
  | [] => Ret resourceProblems
  | h :: rest =>
      r ← getHPAsWithProblems o h;
      let '(rs, is_) := r in
      scanHPAs o rest (if is_ : bool then resourceProblems ++ rs
                       else resourceProblems)
  end.

(** The scan of [Run] over both resource kinds: pods first, then HPAs. *)
Definition scan (o : Options) (pods : list corev1.Pod)
    (hpas : list v1.HorizontalPodAutoscaler) : result (list Resource) :=
  resourceProblems ← scanPods o pods [];
  scanHPAs o hpas resourceProblems.

(** What [Run] writes to standard output, one constructor per print
    statement that carries text (empty lines, bold, colour and the
    tabwriter's column alignment are left out; the colour of a problem
    heading is a function of its severity). *)
Inductive Output : Type :=
| Checking
| Done
| EverythingLooksGood
| ProblemsFound
| ProblemHeading (severity : Severity) (id shortDescription : string)
    (occurrences : nat) (plural : string)
| ResourceLine (resourceMessage : string)
| MoreInformation
| HelpLine (id helpURL : string).

(** How [Run] ends: it returns an error value (nil is [None]), it calls
    [os.Exit], or a detector panicked. *)
Inductive Termination : Type :=
| Returned (err : option string)
| Exited (code : Z)
| Panicked.

Record Outcome : Type := {
  stdout : list Output;
  termination : Termination
}.

(** The process status as far as this package decides it: the command's
    action returning nil lets the process end normally with status 0, and
    [os.Exit(code)] ends it with [code]. What the command-line framework
    does with an error or a panic is outside this package. *)
Definition exitStatus (t : Termination) : option Z :=
  match t with
  | Returned None => Some 0
  | Exited code => Some code
  | Returned (Some _) => None
  | Panicked => None
  end.

Definition tab : string := String (Ascii.ascii_of_nat 9) EmptyString.

(** One line of a problem's resource list; [j] points into the report. *)
Definition renderResource (report : Report) (j : nat) : list Output :=
  match Resources report !! j with
  | Some r =>
      let resourceMessage := Name r in
      let resourceMessage :=
        if decide (ProblemDetails r <> "")
        then resourceMessage +:+ ":" +:+ tab +:+ ProblemDetails r
        else resourceMessage in
      let resourceMessage :=
        if decide (Owner r <> "")
        then resourceMessage +:+ " (owned by " +:+ Owner r +:+ ")"
        else resourceMessage in
      [ResourceLine resourceMessage]
  | None => []
  end.

Definition renderProblem (report : Report) (severity : Severity)
    (entry : string * list nat) : list Output :=
  let '(id, resources) := entry in
  match GetProblemByID report id with
  | None => []
  | Some p =>
      let plural := if bool_decide (1 < length resources)%nat then "s" else "" in
      ProblemHeading severity id (ShortDescription p) (length resources) plural
      :: flat_map (renderResource report) resources
  end.

Definition renderHelp (report : Report) (entry : string * list nat)
  : list Output :=
  let '(id, _) := entry in
  match GetProblemByID report id with
  | None => []
  | Some p =>
      let helpURL := HelpURL p in
      let helpURL :=
        if decide (helpURL = "")
        then "https://github.com/getoutreach/devenv/wiki/" +:+ id
        else helpURL in
      [HelpLine id helpURL]
  end.

(** The rendering part of [Run]. Go leaves the iteration order of a map
    unspecified; the model iterates in the order of [map_to_list]. *)
Definition render (report : Report) : list Output :=
  let byProblem := ByProblem report in
  let bySeverity := BySeverity report in
  [ProblemsFound]
  ++ flat_map (fun sp : Severity * gmap string (list nat) =>
                 flat_map (renderProblem report sp.1) (map_to_list sp.2))
       (map_to_list bySeverity)
  ++ [MoreInformation]
  ++ flat_map (renderHelp report) (map_to_list byProblem).

(** The cluster as [Run] sees it: each listing fails with an error message
    or returns its items. *)
Record KubeClient : Type := {
  ListPods : string + list corev1.Pod;
  ListHPAs : string + list v1.HorizontalPodAutoscaler
}.

Definition Wrap (err message : string) : string := message +:+ ": " +:+ err.

Definition Run (o : Options) (kube : string + KubeClient) : Outcome :=
  match kube with
  | inl err =>
      {| stdout := [];
         termination := Returned (Some (Wrap err
           "failed to get kubernetes client (is the devenv running?)")) |}
  | inr k =>
      match ListPods k with
      | inl err =>
          {| stdout := [];
             termination := Returned (Some (Wrap err "failed to list pods")) |}
      | inr pods =>
          match ListHPAs k with
          | inl err =>
              {| stdout := [];
                 termination := Returned (Some (Wrap err "failed to list hpas")) |}
          | inr HPAs =>
              match scan o pods HPAs with
              | Panic => {| stdout := [Checking]; termination := Panicked |}
              | Ret resourceProblems =>
                  if decide (length resourceProblems = 0%nat) then
                    {| stdout := [Checking; Done; EverythingLooksGood];
                       termination := Returned None |}
                  else
                    {| stdout := [Checking; Done]
                                 ++ render (ReportFromResources resourceProblems);
                       termination := Exited 1 |}
              end
          end
      end
  end.

(** ** The index methods over a heap

    [ByProblem] and [BySeverity] have a pointer receiver, and the maps they
    build and return are references.  To state what a call leaves behind,
    the two methods are written here a second time, statement by
    statement, as programs over a heap: the heap holds the report that the
    receiver points to and the maps made by [make].  Every read of the
    report goes through the heap at the point where the source performs
    it, so a write to the report between two reads would be observed. *)
Module OnHeap.

(** A map value is a reference; the nil map is [None] where the source can
    produce one. *)
Definition ref : Type := nat.

Record Heap : Type := {
  receiver : Report;                               (* the report at [r] *)
  stringMaps : gmap ref (gmap string (list nat));  (* map[string][]*Resource *)
  severityMaps : gmap ref (gmap Severity ref)      (* map[Severity]map[string][]*Resource *)
}.

(** A statement runs on a heap, and returns a value and the heap it leaves,
    or panics. *)
Definition prog (A : Type) : Type := Heap -> result (A * Heap).

#[global] Instance prog_ret : MRet prog := fun A a h => Ret (a, h).

#[global] Instance prog_bind : MBind prog := fun A B k c h =>
  match c h with
  | Ret (a, h') => k a h'
  | Panic => Panic
  end.

(** [for i := range s { body }] over the indices of [s]; the length of [s]
    is read once, before the first iteration. *)
Fixpoint for_range (indices : list nat) (body : nat -> prog unit) : prog unit :=
  match indices with
  | [] => mret ()
  | i :: rest => body i ≫= fun _ => for_range rest body
  end.

(** [len(r.Problems)] and [len(r.Resources)] *)
Definition len_Problems : prog nat :=
  fun h => Ret (length (Problems (receiver h)), h).

Definition len_Resources : prog nat :=
  fun h => Ret (length (Resources (receiver h)), h).

(** [&r.Problems[i]] and [&r.Resources[j]]: the pointer is the index; an
    index out of range panics. *)
Definition addr_Problems (i : nat) : prog nat :=
  fun h => if decide (i < length (Problems (receiver h)))%nat then Ret (i, h)
           else Panic.

Definition addr_Resources (j : nat) : prog nat :=
  fun h => if decide (j < length (Resources (receiver h)))%nat then Ret (j, h)
           else Panic.

(** [problem.ID], [resource.ProblemID], [resource.Warning]: a field read
    through the pointer. *)
Definition load_Problem {A : Type} (field : Problem -> A) (problem : nat) : prog A :=
  fun h => match Problems (receiver h) !! problem with
           | Some x => Ret (field x, h)
           | None => Panic
           end.

Definition load_Resource {A : Type} (field : Resource -> A) (resource : nat) : prog A :=
  fun h => match Resources (receiver h) !! resource with
           | Some x => Ret (field x, h)
           | None => Panic
           end.

(** [make(map[string][]*Resource)]: a map that no reference of the heap
    denotes yet. *)
Definition make_stringMap : prog ref :=
  fun h => let m := fresh (dom (stringMaps h)) in
           Ret (m, {| receiver := receiver h;
                      stringMaps := <[m := ∅]> (stringMaps h);
                      severityMaps := severityMaps h |}).

(** [make(map[Severity]map[string][]*Resource)] *)
Definition make_severityMap : prog ref :=
  fun h => let m := fresh (dom (severityMaps h)) in
           Ret (m, {| receiver := receiver h;
                      stringMaps := stringMaps h;
                      severityMaps := <[m := ∅]> (severityMaps h) |}).

(** [m[id]] read: the nil map and a missing key read as the nil slice. *)
Definition stringMap_load (m : option ref) (id : string) : prog (list nat) :=
  fun h => match m with
           | None => Ret ([], h)
           | Some l =>
               match stringMaps h !! l with
               | Some entries => Ret (default [] (entries !! id), h)
               | None => Panic
               end
           end.

(** [m[id] = v]: assigning to an entry of the nil map panics. *)
Definition stringMap_store (m : option ref) (id : string) (v : list nat) : prog unit :=
  fun h => match m with
           | None => Panic
           | Some l =>
               match stringMaps h !! l with
               | Some entries =>
                   Ret ((), {| receiver := receiver h;
                               stringMaps := <[l := <[id := v]> entries]> (stringMaps h);
                               severityMaps := severityMaps h |})
               | None => Panic
               end
           end.

(** [m[severity]] read: a missing key reads as the nil map. *)
Definition severityMap_load (m : ref) (severity : Severity) : prog (option ref) :=
  fun h => match severityMaps h !! m with
           | Some entries => Ret (entries !! severity, h)
           | None => Panic
           end.

(** [m[severity] = v] *)
Definition severityMap_store (m : ref) (severity : Severity) (v : ref) : prog unit :=
  fun h => match severityMaps h !! m with
           | Some entries =>
               Ret ((), {| receiver := receiver h;
                           stringMaps := stringMaps h;
                           severityMaps := <[m := <[severity := v]> entries]>
                                             (severityMaps h) |})
           | None => Panic
           end.

(** The body of the inner loop of [ByProblem]. *)
Definition ByProblem_resource (rtrn : ref) (problem : nat) (j : nat) : prog unit :=
  resource ← addr_Resources j;
  rid ← load_Resource ProblemID resource;
  pid ← load_Problem ID problem;
  if decide (rid = pid) then
    (* rtrn[problem.ID] = append(rtrn[problem.ID], resource) *)
    key ← load_Problem ID problem;
    key' ← load_Problem ID problem;
    old ← stringMap_load (Some rtrn) key';
    stringMap_store (Some rtrn) key (old ++ [resource])
  else mret ().

(** The body of the outer loop of [ByProblem]. *)
Definition ByProblem_problem (rtrn : ref) (i : nat) : prog unit :=
  problem ← addr_Problems i;
  n ← len_Resources;
  for_range (seq 0 n) (ByProblem_resource rtrn problem).

Definition ByProblem : prog ref :=
  rtrn ← make_stringMap;
  n ← len_Problems;
  _ ← for_range (seq 0 n) (ByProblem_problem rtrn);
  mret rtrn.

(** [rtrn[severity][problem.ID] = append(rtrn[severity][problem.ID], resource)]:
    the operands of the left side, then the right side, then the store. *)
Definition appendAtSeverity (rtrn : ref) (severity : Severity)
    (problem resource : nat) : prog unit :=
  m ← severityMap_load rtrn severity;
  key ← load_Problem ID problem;
  m' ← severityMap_load rtrn severity;
  key' ← load_Problem ID problem;
  old ← stringMap_load m' key';
  stringMap_store m key (old ++ [resource]).

(** The body of the inner loop of [BySeverity]. *)
Definition BySeverity_resource (rtrn : ref) (problem : nat) (j : nat) : prog unit :=
  resource ← addr_Resources j;
  rid ← load_Resource ProblemID resource;
  pid ← load_Problem ID problem;
  if decide (rid = pid) then
    w ← load_Resource Warning resource;
    if negb w
    then appendAtSeverity rtrn SeverityError problem resource
    else appendAtSeverity rtrn SeverityWarning problem resource
  else mret ().

(** The body of the outer loop of [BySeverity]. *)
Definition BySeverity_problem (rtrn : ref) (i : nat) : prog unit :=
  problem ← addr_Problems i;
  n ← len_Resources;
  for_range (seq 0 n) (BySeverity_resource rtrn problem).

Definition BySeverity : prog ref :=
  rtrn ← make_severityMap;
  errors ← make_stringMap;
  _ ← severityMap_store rtrn SeverityError errors;
  warnings ← make_stringMap;
  _ ← severityMap_store rtrn SeverityWarning warnings;
  n ← len_Problems;
  _ ← for_range (seq 0 n) (BySeverity_problem rtrn);
  mret rtrn.

(** What a returned reference denotes in a heap: the map with its buckets,
    the pointers of a bucket being indices into the receiver's records. *)
Definition stringMap_of (h : Heap) (m : ref) : option (gmap string (list nat)) :=
  stringMaps h !! m.

Definition severityMap_of (h : Heap) (m : ref)
  : option (gmap Severity (gmap string (list nat))) :=
  match severityMaps h !! m with
  | Some entries => Some (omap (fun l : ref => stringMaps h !! l) entries)
  | None => None
  end.

(** The heap holds at [m] a severity map with exactly the two buckets
    [errors] and [warnings], two different maps, whose contents are those
    of [view]: the state of [rtrn] in [BySeverity] after its
    initialisation. *)
Definition represents (h : Heap) (m errors warnings : ref)
    (view : gmap Severity (gmap string (list nat))) : Prop :=
  errors <> warnings
  /\ severityMaps h !! m =
       Some (<[SeverityWarning := warnings]> (<[SeverityError := errors]> ∅))
  /\ is_Some (view !! SeverityError)
  /\ is_Some (view !! SeverityWarning)
  /\ (forall severity, severity <> SeverityError -> severity <> SeverityWarning ->
                       view !! severity = None)
  /\ stringMaps h !! errors = view !! SeverityError
  /\ stringMaps h !! warnings = view !! SeverityWarning.

End OnHeap.

(** ** Specification-level notions *)

(** The distinct elements of [ids] in the order of their first appearance,
    leaving out those already in [seen]. *)
Fixpoint first_appearances_from (seen ids : list string) : list string :=
  match ids with
  | [] => []
  | id :: rest =>
      if decide (id ∈ seen)
      then first_appearances_from seen rest
      else id :: first_appearances_from (id :: seen) rest
  end.

Definition first_appearances (ids : list string) : list string :=
  first_appearances_from [] ids.

(** A problem ID resolves when the catalog of enabled problems has an
    entry for it. *)
Definition resolves (id : string) : Prop :=
  is_Some (findEnabled enabledProblems id).

(** The indices, counted from [j] for the head of [resources], of the
    records that satisfy [P], in input order. *)
Fixpoint indices_where (P : Resource -> bool) (j : nat) (resources : list Resource)
  : list nat :=
  match resources with
  | [] => []
  | r :: rest =>
      if P r then j :: indices_where P (S j) rest
      else indices_where P (S j) rest
  end.

Definition hasProblem (id : string) (r : Resource) : bool :=
  bool_decide (ProblemID r = id).

(** Severity is derived from the warning flag of a record. *)
Definition severityOf (r : Resource) : Severity :=
  if Warning r then SeverityWarning else SeverityError.

Definition hasSeverity (severity : Severity) (r : Resource) : bool :=
  bool_decide (severityOf r = severity).

Definition hasProblemAndSeverity (severity : Severity) (id : string) (r : Resource)
  : bool :=
  hasProblem id r && hasSeverity severity r.

(** The union of all buckets of an index, as a list of pointers: the
    buckets of all keys, one after the other. *)
Definition flatten {K V : Type} `{Countable K} (f : V -> list nat) (m : gmap K V)
  : list nat :=
  concat (map (fun entry => f (snd entry)) (map_to_list m)).

Definition buckets (m : gmap string (list nat)) : list nat :=
  flatten (fun bucket => bucket) m.

Definition severityBuckets (m : gmap Severity (gmap string (list nat)))
  : list nat :=
  flatten buckets m.

(** The records that a list of pointers into [resources] points to. *)
Definition records_at (resources : list Resource) (pointers : list nat)
  : list Resource :=
  omap (fun j => resources !! j) pointers.

(** Closed forms of the loops of the two indices: appending a run of
    pointers to one bucket, and doing so for each problem in turn. *)
Definition appendAll (id : string) (pointers : list nat)
    (m : gmap string (list nat)) : gmap string (list nat) :=
  match pointers with
  | [] => m
  | _ => <[id := default [] (m !! id) ++ pointers]> m
  end.

Fixpoint appendProblems (Q : string -> Resource -> bool) (problems : list Problem)
    (resources : list Resource) (m : gmap string (list nat))
  : gmap string (list nat) :=
  match problems with
  | [] => m
  | problem :: rest =>
      appendProblems Q rest resources
        (appendAll (ID problem) (indices_where (Q (ID problem)) 0 resources) m)
  end.

#[global] Instance resolves_dec (id : string) : Decision (resolves id).
Proof. unfold resolves. apply _. Defined.

(** The records whose problem ID resolves. *)
Definition resolvable (r : Resource) : bool :=
  bool_decide (resolves (ProblemID r)).

(** ** Test data *)

Module Samples.
Definition running : corev1.ContainerState :=
  {| corev1.Waiting := None; corev1.Terminated := None |}.

Definition container (name : string) (restarts : Z) : corev1.ContainerStatus :=
  {| corev1.cs_Name := name; corev1.State := running;
     corev1.LastTerminationState := running;
     corev1.Ready := true; corev1.RestartCount := restarts |}.

Definition pod (name : string) (css : list corev1.ContainerStatus) : corev1.Pod :=
  {| corev1.Name := name; corev1.Namespace := "default";
     corev1.Labels := ∅;
     corev1.Spec := {| corev1.Containers := []; corev1.InitContainers := [] |};
     corev1.Status := {| corev1.Phase := corev1.PodRunning;
                         corev1.ContainerStatuses := css;
                         corev1.InitContainerStatuses := [] |} |}.

Definition oomKilled (finishedAt : string) : corev1.ContainerState :=
  {| corev1.Waiting := None;
     corev1.Terminated :=
       Some {| corev1.t_Reason := "OOMKilled"; corev1.t_Message := "";
               corev1.FinishedAt := {| metav1.String_ := finishedAt |} |} |}.

Definition crashLoopBackOff : corev1.ContainerState :=
  {| corev1.Waiting :=
       Some {| corev1.w_Reason := "CrashLoopBackOff";
               corev1.w_Message := "back-off restarting failed container" |};
     corev1.Terminated := None |}.

(** A container waiting in CrashLoopBackOff whose status carries no
    last-termination record. *)
Definition crashLooping (name : string) : corev1.ContainerStatus :=
  {| corev1.cs_Name := name; corev1.State := crashLoopBackOff;
     corev1.LastTerminationState := running;
     corev1.Ready := false; corev1.RestartCount := 0 |}.

(** The same after 5 restarts. *)
Definition crashLooped5 : corev1.ContainerStatus :=
  {| corev1.cs_Name := "app"; corev1.State := crashLoopBackOff;
     corev1.LastTerminationState := running;
     corev1.Ready := false; corev1.RestartCount := 5 |}.

(** A container that is running now and was OOM-killed before. *)
Definition wasOOMKilled (name finishedAt : string) : corev1.ContainerStatus :=
  {| corev1.cs_Name := name; corev1.State := running;
     corev1.LastTerminationState := oomKilled finishedAt;
     corev1.Ready := true; corev1.RestartCount := 1 |}.

(** A container whose current state is terminated, OOM-killed. *)
Definition isOOMKilled (name finishedAt : string) : corev1.ContainerStatus :=
  {| corev1.cs_Name := name; corev1.State := oomKilled finishedAt;
     corev1.LastTerminationState := running;
     corev1.Ready := false; corev1.RestartCount := 0 |}.

Definition noon : string := "2023-07-01 12:00:00 +0000 UTC".

(** A pod whose first container was OOM-killed earlier and whose second
    container is OOM-killed now. *)
Definition pastThenPresentOOM : corev1.Pod :=
  pod "web" [wasOOMKilled "sidecar" noon; isOOMKilled "app" noon].

Definition hpa (name : string) (current max : Z) : v1.HorizontalPodAutoscaler :=
  {| v1.Name := name; v1.Namespace := "default"; v1.Labels := ∅;
     v1.Spec := {| v1.MaxReplicas := max |};
     v1.Status := {| v1.CurrentReplicas := current |} |}.

Definition record (id : string) (w : bool) : Resource :=
  {| Name := "default/x"; Owner := ""; Type_ := "pod"; ProblemID := id;
     ProblemDetails := ""; Warning := w |}.

(** Records as a scan can produce them, with one record ("Unknown") whose
    problem ID is not in the catalog. *)
Definition records : list Resource :=
  [ record "HighRestarts" true; record "Unknown" false;
    record "PodNotReady" false; record "HighRestarts" true;
    record "PodOOMKilled" true; record "PodOOMKilled" false ].

(** Records whose problem IDs are all in the catalog. *)
Definition resolving : list Resource :=
  [ record "HighRestarts" true; record "PodNotReady" false;
    record "HighRestarts" false ].

Definition threshold3 : Options := {| cfg := Some {| RestartThreshold := 3 |} |}.
End Samples.

(** ** Further notions and test data *)

(** The detail that the PodImagePullBackOff detector formats. *)
Definition imagePull_detail (cs : corev1.ContainerStatus) (imageName : string)
  : string :=
  "Container " +:+ corev1.cs_Name cs +:+ " is failing to pull its image (" +:+
  imageName +:+ ")".

(** The record template that the scan fills for a pod and for an HPA. *)
Definition defaultPodProblem (pod : corev1.Pod) : Resource :=
  {| Owner := default "" (corev1.Labels pod !! "reporting_team");
     Name := corev1.Namespace pod +:+ "/" +:+ corev1.Name pod;
     Type_ := "pod";
     ProblemID := ""; ProblemDetails := ""; Warning := false |}.

Definition defaultHPAProblem (hpa : v1.HorizontalPodAutoscaler) : Resource :=
  {| Owner := default "" (v1.Labels hpa !! "reporting_team");
     Name := v1.Namespace hpa +:+ "/" +:+ v1.Name hpa;
     Type_ := "HPA";
     ProblemID := ""; ProblemDetails := ""; Warning := false |}.

(** The record that the scan makes of the detection [d] of [problem]. *)
Definition recordOf (defaultProblem : Resource) (problem : Problem) (d : Detection)
  : Resource :=
  {| Name := Name defaultProblem;
     Owner := Owner defaultProblem;
     Type_ := Type_ defaultProblem;
     ProblemID := ID problem;
     ProblemDetails := reason d;
     Warning := warning d |}.

(** A detection is recorded when it is occurring. *)
Definition recorded (defaultProblem : Resource) (pd : Problem * Detection)
  : option Resource :=
  if isOccurring pd.2 then Some (recordOf defaultProblem pd.1 pd.2) else None.

Definition maxedOut (hpa : v1.HorizontalPodAutoscaler) : Prop :=
  v1.MaxReplicas (v1.Spec hpa) = v1.CurrentReplicas (v1.Status hpa).

#[global] Instance maxedOut_dec (hpa : v1.HorizontalPodAutoscaler)
  : Decision (maxedOut hpa).
Proof. unfold maxedOut. apply _. Defined.

(** The record of a maxed-out HPA. *)
Definition maxedOutRecord (hpa : v1.HorizontalPodAutoscaler) : Resource :=
  {| Name := v1.Namespace hpa +:+ "/" +:+ v1.Name hpa;
     Owner := default "" (v1.Labels hpa !! "reporting_team");
     Type_ := "HPA";
     ProblemID := "MaxedOutHPAs";
     ProblemDetails :=
       v1.Name hpa +:+ " has " +:+
       fmt_d (v1.CurrentReplicas (v1.Status hpa)) +:+ "/" +:+
       fmt_d (v1.MaxReplicas (v1.Spec hpa)) +:+ " replicas";
     Warning := true |}.

(** ** The command

    [NewCommand] declares the integer flag [restart-threshold] with the
    default 3; its action stores the flag's value in a fresh [Config] and
    calls [Run]. The flag's value is [None] when the flag is not given. *)
Definition restartThresholdDefault : Z := 3.

Definition Action (restartThreshold : option Z) (kube : string + KubeClient)
  : Outcome :=
  let o := {| cfg := Some {| RestartThreshold :=
                               default restartThresholdDefault restartThreshold |} |} in
  Run o kube.

(** The line of the help index for a problem: its help URL, or the
    conventional wiki URL when it has none. *)
Definition helpLine (p : Problem) : Output :=
  HelpLine (ID p)
    (if decide (HelpURL p = "")
     then "https://github.com/getoutreach/devenv/wiki/" +:+ ID p
     else HelpURL p).

(** The text of the line that [Run] prints for a record: its name, then
    the detail if there is one, then the owner if there is one. *)
Definition resourceMessage (r : Resource) : string :=
  (if decide (ProblemDetails r <> "")
   then Name r +:+ ":" +:+ tab +:+ ProblemDetails r
   else Name r)
  +:+ (if decide (Owner r <> "") then " (owned by " +:+ Owner r +:+ ")" else "").

Definition isResourceLine (line : Output) : bool :=
  match line with
  | ResourceLine _ => true
  | _ => false
  end.

Module MoreSamples.
Definition waiting (reason message : string) : corev1.ContainerState :=
  {| corev1.Waiting := Some {| corev1.w_Reason := reason;
                               corev1.w_Message := message |};
     corev1.Terminated := None |}.

Definition waitingContainer (name reason message : string)
  : corev1.ContainerStatus :=
  {| corev1.cs_Name := name; corev1.State := waiting reason message;
     corev1.LastTerminationState := Samples.running;
     corev1.Ready := false; corev1.RestartCount := 0 |}.

(** A pod with two regular containers in its spec (the name "app" twice)
    and one init container. *)
Definition podWith (phase : string) (css inits : list corev1.ContainerStatus)
  : corev1.Pod :=
  {| corev1.Name := "web"; corev1.Namespace := "shop";
     corev1.Labels := {[ "reporting_team" := "payments" ]};
     corev1.Spec :=
       {| corev1.Containers :=
            [ {| corev1.c_Name := "proxy"; corev1.Image := "registry/proxy:2" |};
              {| corev1.c_Name := "app"; corev1.Image := "registry/app:1" |};
              {| corev1.c_Name := "app"; corev1.Image := "registry/app:old" |} ];
          corev1.InitContainers :=
            [ {| corev1.c_Name := "migrate"; corev1.Image := "registry/db:3" |} ] |};
     corev1.Status := {| corev1.Phase := phase;
                         corev1.ContainerStatuses := css;
                         corev1.InitContainerStatuses := inits |} |}.

Definition webPod : corev1.Pod := podWith corev1.PodRunning [] [].

(** The regular container "app" and the init container "migrate" cannot
    pull their images. *)
Definition pullRegular : corev1.Pod :=
  podWith corev1.PodPending
    [Samples.container "proxy" 0; waitingContainer "app" "ErrImagePull" "pull failed"]
    [waitingContainer "migrate" "ImagePullBackOff" ""].

(** A crash-looping container with a last-termination record. *)
Definition crashLoopedWithRecord (name message : string) : corev1.ContainerStatus :=
  {| corev1.cs_Name := name; corev1.State := Samples.crashLoopBackOff;
     corev1.LastTerminationState :=
       {| corev1.Waiting := None;
          corev1.Terminated :=
            Some {| corev1.t_Reason := "Error"; corev1.t_Message := message;
                    corev1.FinishedAt := {| metav1.String_ := Samples.noon |} |} |};
     corev1.Ready := false; corev1.RestartCount := 4 |}.

Definition crashLoopingInit : corev1.Pod :=
  podWith corev1.PodPending [] [crashLoopedWithRecord "migrate" "exit status 1"].

(** A running pod whose container is not ready and was restarted 7 times. *)
Definition notReadyRestarting : corev1.Pod :=
  podWith corev1.PodRunning
    [ {| corev1.cs_Name := "app"; corev1.State := Samples.running;
         corev1.LastTerminationState := Samples.running;
         corev1.Ready := false; corev1.RestartCount := 7 |} ] [].

(** An init container that the spec does not list cannot pull its image. *)
Definition pullInit : corev1.Pod :=
  podWith corev1.PodPending
    [Samples.container "proxy" 0]
    [waitingContainer "setup" "ImagePullBackOff" ""].
End MoreSamples.

(** * Properties *)

(** ** Loops with an early return *)

Section RangeReturn.
Context {A R : Type}.
Implicit Types (l pre post : list A) (body : A -> result (option R)).

(** No element makes the body return: the loop falls through. *)
Lemma range_return_none l body :
  Forall (fun x => body x = Ret None) l ->
  range_return l body = Ret None.
Proof.
  induction 1 as [|x l Hx _ IH]; simpl; [done|].
  by rewrite Hx.
Qed.

(** The first element on which the body does not fall through decides. *)
Lemma range_return_first pre x post body :
  Forall (fun y => body y = Ret None) pre ->
  range_return (pre ++ x :: post) body =
    match body x with
    | Ret (Some v) => Ret (Some v)
    | Ret None => range_return post body
    | Panic => Panic
    end.
Proof.
  induction 1 as [|y pre Hy _ IH]; simpl.
  - by destruct (body x) as [[v|]|].
  - by rewrite Hy.
Qed.

(** A list either has no element satisfying [P], or splits at the first
    one that does. *)
Lemma first_split (P : A -> bool) l :
  Forall (fun x => P x = false) l
  \/ exists pre x post,
       l = pre ++ x :: post /\ Forall (fun y => P y = false) pre /\ P x = true.
Proof.
  induction l as [|y l IH]; [by left|].
  destruct (P y) eqn:Hy.
  - right. by exists [], y, l.
  - destruct IH as [IH|(pre & x & post & -> & Hpre & Hx)].
    + left. by constructor.
    + right. exists (y :: pre), x, post. split_and!; [done| |done].
      by constructor.
Qed.
End RangeReturn.

(** ** The MaxedOutHPAs detector *)

(** C3, as the source has it: an autoscaler whose current replica count
    equals its maximum is reported as occurring, with the warning flag set
    (Warning severity) and the detail "<name> has <current>/<max> replicas";
    an autoscaler whose counts differ is not reported. *)
Theorem MaxedOutHPAs_detector (hpa : v1.HorizontalPodAutoscaler) (cfg : option Config) :
  (v1.CurrentReplicas (v1.Status hpa) = v1.MaxReplicas (v1.Spec hpa) ->
   Detector ProblemMaxedOutHPAs (ObjHPA hpa) cfg =
     Ret (v1.Name hpa +:+ " has " +:+
          fmt_d (v1.CurrentReplicas (v1.Status hpa)) +:+ "/" +:+
          fmt_d (v1.MaxReplicas (v1.Spec hpa)) +:+ " replicas", true, true))
  /\ (v1.CurrentReplicas (v1.Status hpa) <> v1.MaxReplicas (v1.Spec hpa) ->
      exists d, Detector ProblemMaxedOutHPAs (ObjHPA hpa) cfg = Ret d
                /\ isOccurring d = false).
Proof.
  split; intros H; simpl.
  - by rewrite bool_decide_eq_true_2.
  - rewrite bool_decide_eq_false_2 by congruence. by exists no_problem.
Qed.

Lemma MaxedOutHPAs_detector_witness :
  Detector ProblemMaxedOutHPAs (ObjHPA (Samples.hpa "web" 10 10)) None =
    Ret ("web has 10/10 replicas", true, true)
  /\ exists d, Detector ProblemMaxedOutHPAs (ObjHPA (Samples.hpa "web" 9 10)) None = Ret d
               /\ isOccurring d = false.
Proof.
  split.
  - apply (MaxedOutHPAs_detector (Samples.hpa "web" 10 10) None). reflexivity.
  - apply (MaxedOutHPAs_detector (Samples.hpa "web" 9 10) None). simpl. lia.
Defined.

(** C3 as stated fails: at 10 of 10 replicas the detector does not return
    Error severity, the warning flag is set. *)
Lemma MaxedOutHPAs_not_error :
  ~ exists d, Detector ProblemMaxedOutHPAs (ObjHPA (Samples.hpa "web" 10 10)) None = Ret d
              /\ isOccurring d = true /\ warning d = false.
Proof.
  intros (d & Hd & _ & Hw). vm_compute in Hd.
  injection Hd as <-. discriminate Hw.
Qed.

(** ** Detectors that return on every pod *)

Lemma range_return_total {A R : Type} (l : list A) (body : A -> result (option R)) :
  (forall x, exists r, body x = Ret r) ->
  exists r, range_return l body = Ret r.
Proof.
  intros Hbody. induction l as [|x l [r IH]]; simpl; [by eexists|].
  destruct (Hbody x) as [[v|] ->]; simpl; by eexists.
Qed.

#[local] Arguments String.append : simpl never.
#[local] Arguments range_return : simpl never.

Lemma oomKilled_body_total (cs : corev1.ContainerStatus) :
  exists r, oomKilled_body cs = Ret r.
Proof.
  unfold oomKilled_body, terminatedOOMKilled.
  destruct (corev1.Terminated (corev1.State cs)) as [t|];
    [destruct (bool_decide _); [by eexists|]|];
    (destruct (corev1.Terminated (corev1.LastTerminationState cs)) as [t'|];
     [destruct (bool_decide _)|]; by eexists).
Qed.

Lemma bind_total {A B : Type} (c : result A) (k : A -> result B) :
  (exists a, c = Ret a) -> (forall a, exists b, k a = Ret b) ->
  exists b, c ≫= k = Ret b.
Proof. intros [a ->] Hk. apply Hk. Qed.

Lemma PodNotReady_total (pod : corev1.Pod) (cfg : option Config) :
  exists d, Detector ProblemPodNotReady (ObjPod pod) cfg = Ret d.
Proof.
  simpl. destruct (bool_decide _); [by eexists|].
  apply bind_total; [apply range_return_total|intros [d|]; by eexists].
  intros cs. destruct (negb _); by eexists.
Qed.

Lemma PodImagePullBackOff_total (pod : corev1.Pod) (cfg : option Config) :
  exists d, Detector ProblemPodImagePullBackOff (ObjPod pod) cfg = Ret d.
Proof.
  simpl. apply bind_total.
  { apply range_return_total. intros cs.
    destruct (isImagePullBackOff cs); by eexists. }
  intros [d|]; [by eexists|].
  apply bind_total; [apply range_return_total|intros [d|]; by eexists].
  intros cs. destruct (isImagePullBackOff cs); by eexists.
Qed.

Lemma PodOOMKilled_total (pod : corev1.Pod) (cfg : option Config) :
  exists d, Detector ProblemPodOOMKilled (ObjPod pod) cfg = Ret d.
Proof.
  simpl. apply bind_total; [|intros [d|]; by eexists].
  apply range_return_total, oomKilled_body_total.
Qed.

(** ** The HighRestarts detector *)

Lemma int32_in_range (x : Z) : - 2 ^ 31 <= x < 2 ^ 31 -> int32 x = x.
Proof. intros H. unfold int32. rewrite Z.mod_small; lia. Qed.

(** The first container whose restart count reaches the truncated
    threshold decides the detection. *)
Lemma HighRestarts_first (pod : corev1.Pod) (c : Config) pre cs post :
  corev1.ContainerStatuses (corev1.Status pod) = pre ++ cs :: post ->
  Forall (fun y => corev1.RestartCount y < int32 (RestartThreshold c)) pre ->
  int32 (RestartThreshold c) <= corev1.RestartCount cs ->
  Detector ProblemHighRestarts (ObjPod pod) (Some c) =
    Ret (highRestarts_detail pod cs, true, true).
Proof.
  intros Hl Hpre Hcs. simpl. rewrite Hl, range_return_first.
  - unfold highRestarts_body at 1. simpl.
    by rewrite bool_decide_eq_true_2.
  - eapply Forall_impl; [exact Hpre|]. intros y Hy. simpl in Hy.
    unfold highRestarts_body. simpl. by rewrite bool_decide_eq_false_2 by lia.
Qed.

Lemma HighRestarts_none (pod : corev1.Pod) (c : Config) :
  Forall (fun y => corev1.RestartCount y < int32 (RestartThreshold c))
    (corev1.ContainerStatuses (corev1.Status pod)) ->
  Detector ProblemHighRestarts (ObjPod pod) (Some c) = Ret no_problem.
Proof.
  intros H. simpl. rewrite range_return_none; [done|].
  eapply Forall_impl; [exact H|]. intros y Hy. simpl in Hy.
  unfold highRestarts_body. simpl. by rewrite bool_decide_eq_false_2 by lia.
Qed.

Lemma detectProblems_cons problem rest obj cfg defaultProblem problems :
  detectProblems (problem :: rest) obj cfg defaultProblem problems =
    Detector problem obj cfg ≫= fun d =>
      let '(resourceDetails, warning, occurring) := d in
      if negb occurring
      then detectProblems rest obj cfg defaultProblem problems
      else
        detectProblems rest obj cfg defaultProblem
          (problems ++ [ {| Name := Name defaultProblem;
                            Owner := Owner defaultProblem;
                            Type_ := Type_ defaultProblem;
                            ProblemID := ID problem;
                            ProblemDetails := resourceDetails;
                            Warning := warning |} ]).
Proof. reflexivity. Qed.

(** One round of the loop of [detectProblems], the detector's result being
    known. *)
Ltac detect E := rewrite detectProblems_cons, E; cbn [mbind result_bind].

(** C4, as the source has it. For a threshold within the int32 range: when
    some container's restart count is at least the threshold, the detector
    reports the pod as occurring with the warning flag set (Warning
    severity), and the detail names the pod and the restart count of the
    first such container. In the scenario (one container restarted 5 times,
    threshold 3, crash-loop detector not failing) the scan of the pod yields
    exactly one HighRestarts record, a warning whose detail holds the pod
    name and "5". *)
Theorem HighRestarts_detector :
  (forall (pod : corev1.Pod) (c : Config),
      - 2 ^ 31 <= RestartThreshold c < 2 ^ 31 ->
      (exists cs, cs ∈ corev1.ContainerStatuses (corev1.Status pod)
                  /\ RestartThreshold c <= corev1.RestartCount cs) ->
      exists pre cs post,
        corev1.ContainerStatuses (corev1.Status pod) = pre ++ cs :: post
        /\ Forall (fun y => corev1.RestartCount y < RestartThreshold c) pre
        /\ RestartThreshold c <= corev1.RestartCount cs
        /\ Detector ProblemHighRestarts (ObjPod pod) (Some c) =
             Ret ("Container " +:+ corev1.Name pod +:+ " has restarted " +:+
                  fmt_d (corev1.RestartCount cs) +:+ " time(s)", true, true))
  /\ (forall (o : Options) (pod : corev1.Pod) (cs : corev1.ContainerStatus),
         cfg o = Some {| RestartThreshold := 3 |} ->
         corev1.ContainerStatuses (corev1.Status pod) = [cs] ->
         corev1.RestartCount cs = 5 ->
         Detector ProblemPodCrashLoopBackOff (ObjPod pod) (cfg o) <> Panic ->
         exists rs,
           getPodsWithProblems o pod = Ret (rs, true)
           /\ filter (fun r => ProblemID r = "HighRestarts") rs =
                [ {| Name := corev1.Namespace pod +:+ "/" +:+ corev1.Name pod;
                     Owner := default "" (corev1.Labels pod !! "reporting_team");
                     Type_ := "pod";
                     ProblemID := "HighRestarts";
                     ProblemDetails :=
                       "Container " +:+ corev1.Name pod +:+
                       " has restarted 5 time(s)";
                     Warning := true |} ]).
Proof.
  split.
  - intros pod c Hrange (cs0 & Hin & Hge).
    destruct (first_split
                (fun y => bool_decide (RestartThreshold c <= corev1.RestartCount y))
                (corev1.ContainerStatuses (corev1.Status pod)))
      as [Hnone|(pre & cs & post & Hl & Hpre & Hcs)].
    + rewrite Forall_forall in Hnone. specialize (Hnone _ Hin).
      apply bool_decide_eq_false in Hnone. lia.
    + apply bool_decide_eq_true in Hcs.
      assert (Hpre' : Forall (fun y => corev1.RestartCount y < RestartThreshold c) pre).
      { eapply Forall_impl; [exact Hpre|]. intros y Hy. simpl in Hy.
        apply bool_decide_eq_false in Hy. lia. }
      exists pre, cs, post. split_and!; [done..|].
      apply (HighRestarts_first pod c pre cs post Hl);
        rewrite int32_in_range by done; done.
  - intros o pod cs Hcfg Hl H5 Hnp.
    assert (E5 : Detector ProblemHighRestarts (ObjPod pod) (cfg o) =
                 Ret (highRestarts_detail pod cs, true, true)).
    { rewrite Hcfg. apply (HighRestarts_first pod _ [] cs []); [done|done|].
      rewrite H5. by vm_compute. }
    destruct (Detector ProblemPodCrashLoopBackOff (ObjPod pod) (cfg o))
      as [[[s1 w1] o1]|] eqn:E1; [|done].
    destruct (PodNotReady_total pod (cfg o)) as [[[s2 w2] o2] E2].
    destruct (PodImagePullBackOff_total pod (cfg o)) as [[[s3 w3] o3] E3].
    destruct (PodOOMKilled_total pod (cfg o)) as [[[s4 w4] o4] E4].
    unfold getPodsWithProblems, enabledPodProblems.
    detect E1. destruct o1; cbn [negb];
      detect E2; destruct o2; cbn [negb];
      detect E3; destruct o3; cbn [negb];
      detect E4; destruct o4; cbn [negb];
      detect E5; cbn [negb detectProblems];
      (eexists; split; [reflexivity|]);
      unfold highRestarts_detail; rewrite H5; reflexivity.
Qed.

Lemma HighRestarts_detector_witness :
  (exists pre cs post,
      [Samples.container "c" 5] = pre ++ cs :: post
      /\ Forall (fun y => corev1.RestartCount y < 3) pre
      /\ 3 <= corev1.RestartCount cs
      /\ Detector ProblemHighRestarts
           (ObjPod (Samples.pod "web" [Samples.container "c" 5]))
           (Some {| RestartThreshold := 3 |}) =
           Ret ("Container " +:+ "web" +:+ " has restarted " +:+
                fmt_d (corev1.RestartCount cs) +:+ " time(s)", true, true))
  /\ exists rs,
      getPodsWithProblems Samples.threshold3
        (Samples.pod "web" [Samples.container "c" 5]) = Ret (rs, true)
      /\ filter (fun r => ProblemID r = "HighRestarts") rs =
           [ {| Name := "default/web"; Owner := ""; Type_ := "pod";
                ProblemID := "HighRestarts";
                ProblemDetails := "Container web has restarted 5 time(s)";
                Warning := true |} ].
Proof.
  split.
  - apply (proj1 HighRestarts_detector
             (Samples.pod "web" [Samples.container "c" 5])
             {| RestartThreshold := 3 |}).
    + simpl. lia.
    + exists (Samples.container "c" 5). split; [by left|simpl; lia].
  - apply (proj2 HighRestarts_detector Samples.threshold3
             (Samples.pod "web" [Samples.container "c" 5])
             (Samples.container "c" 5)).
    + reflexivity.
    + reflexivity.
    + reflexivity.
    + vm_compute. discriminate.
Defined.

(** C4 as stated fails. In the scenario (5 restarts, threshold 3) the
    detector does not return Error severity, the warning flag is set. The
    comparison is made after truncating the threshold to 32 bits: with the
    threshold [100 - 2^32] a container restarted 5 times is at or above the
    threshold, yet the detector compares against 100 and reports nothing.
    And a pod whose only container was restarted 5 times yields no record
    at all when the crash-loop detector panics on it. *)
Lemma HighRestarts_not_error :
  (~ exists d,
       Detector ProblemHighRestarts
         (ObjPod (Samples.pod "web" [Samples.container "c" 5]))
         (Some {| RestartThreshold := 3 |}) = Ret d
       /\ isOccurring d = true /\ warning d = false)
  /\ (100 - 2 ^ 32 <= 5
      /\ Detector ProblemHighRestarts
           (ObjPod (Samples.pod "web" [Samples.container "c" 5]))
           (Some {| RestartThreshold := 100 - 2 ^ 32 |}) = Ret no_problem)
  /\ (corev1.RestartCount Samples.crashLooped5 = 5
      /\ getPodsWithProblems Samples.threshold3
           (Samples.pod "web" [Samples.crashLooped5]) = Panic).
Proof.
  split_and!.
  - intros (d & Hd & _ & Hw). vm_compute in Hd.
    injection Hd as <-. discriminate Hw.
  - lia.
  - by vm_compute.
  - reflexivity.
  - reflexivity.
Qed.

(** The detector dereferences its configuration: a nil [*Config] makes it
    panic as soon as the pod has a container. *)
Lemma HighRestarts_nil_config :
  Detector ProblemHighRestarts
    (ObjPod (Samples.pod "web" [Samples.container "c" 5])) None = Panic.
Proof. reflexivity. Qed.

(** ** The PodCrashLoopBackOff detector *)

(** C5 fails on the source: for a pod with a container waiting in
    CrashLoopBackOff whose last-termination state has no terminated record,
    the detector dereferences the nil record and panics; the panic takes
    the scan of the pod and the whole run with it. The same holds for an
    init container. *)
Theorem PodCrashLoopBackOff_nil_termination_panics :
  Detector ProblemPodCrashLoopBackOff
    (ObjPod (Samples.pod "web" [Samples.crashLooping "app"])) None = Panic
  /\ Detector ProblemPodCrashLoopBackOff
       (ObjPod {| corev1.Name := "web"; corev1.Namespace := "default";
                  corev1.Labels := ∅;
                  corev1.Spec := {| corev1.Containers := [];
                                    corev1.InitContainers := [] |};
                  corev1.Status :=
                    {| corev1.Phase := corev1.PodPending;
                       corev1.ContainerStatuses := [];
                       corev1.InitContainerStatuses :=
                         [Samples.crashLooping "init"] |} |}) None = Panic
  /\ getPodsWithProblems Samples.threshold3
       (Samples.pod "web" [Samples.crashLooping "app"]) = Panic
  /\ termination
       (Run Samples.threshold3
          (inr {| ListPods := inr [Samples.pod "web" [Samples.crashLooping "app"]];
                  ListHPAs := inr [] |})) = Panicked.
Proof. split_and!; reflexivity. Qed.

(** When the first crash-looping container does carry a last-termination
    record, the detector reports it as an error with that record's message. *)
Lemma PodCrashLoopBackOff_first (pod : corev1.Pod) (cfg : option Config)
    pre cs post t :
  corev1.ContainerStatuses (corev1.Status pod) = pre ++ cs :: post ->
  Forall (fun y => isCrashLoopBackoff y = false) pre ->
  isCrashLoopBackoff cs = true ->
  corev1.Terminated (corev1.LastTerminationState cs) = Some t ->
  Detector ProblemPodCrashLoopBackOff (ObjPod pod) cfg =
    Ret ("Container " +:+ corev1.cs_Name cs +:+
         " in a crash loop backoff state: " +:+ corev1.t_Message t, false, true).
Proof.
  intros Hl Hpre Hcs Ht. simpl. rewrite Hl, range_return_first.
  - by rewrite Hcs, Ht.
  - eapply Forall_impl; [exact Hpre|]. intros y Hy. simpl in Hy. by rewrite Hy.
Qed.

(** ** The PodOOMKilled detector *)

Lemma terminatedOOMKilled_true (st : corev1.ContainerState) :
  terminatedOOMKilled st = true <->
  exists t, corev1.Terminated st = Some t /\ corev1.t_Reason t = "OOMKilled".
Proof.
  unfold terminatedOOMKilled. destruct (corev1.Terminated st) as [t|].
  - rewrite bool_decide_eq_true. split.
    + intros Hr. by exists t.
    + by intros (t' & [= <-] & Hr).
  - split; [done|]. by intros (t & Ht & _).
Qed.

(** C6, as the source has it. The first container, in listed order, that
    is OOM-killed now or was OOM-killed last decides the detection, whatever
    the containers after it are.
    (1) If the current state of that container is terminated with reason
        OOMKilled, the detection is an error naming that container.
    (2) If only its last termination state has that reason, the detection
        is a warning naming that container, whose detail ends with the
        finish timestamp of that last termination; this holds also when a
        later container is OOM-killed now.
    (3) When no container is currently OOM-killed and some container was,
        the detection is the warning of (2) for the first container that
        was OOM-killed.
    (4) Whenever some container is or was OOM-killed the problem is
        reported as occurring. *)
Theorem PodOOMKilled_detector (pod : corev1.Pod) (cfg : option Config) :
  (forall pre cs post,
      corev1.ContainerStatuses (corev1.Status pod) = pre ++ cs :: post ->
      Forall (fun y => terminatedOOMKilled (corev1.State y) = false
                       /\ terminatedOOMKilled (corev1.LastTerminationState y) = false)
        pre ->
      terminatedOOMKilled (corev1.State cs) = true ->
      Detector ProblemPodOOMKilled (ObjPod pod) cfg =
        Ret ("Container " +:+ corev1.cs_Name cs +:+
             " was killed because it ran out of memory", false, true))
  /\ (forall pre cs post t,
      corev1.ContainerStatuses (corev1.Status pod) = pre ++ cs :: post ->
      Forall (fun y => terminatedOOMKilled (corev1.State y) = false
                       /\ terminatedOOMKilled (corev1.LastTerminationState y) = false)
        pre ->
      terminatedOOMKilled (corev1.State cs) = false ->
      corev1.Terminated (corev1.LastTerminationState cs) = Some t ->
      corev1.t_Reason t = "OOMKilled" ->
      Detector ProblemPodOOMKilled (ObjPod pod) cfg =
        Ret ("Container " +:+ corev1.cs_Name cs +:+
             " was recently killed because it ran out of memory: " +:+
             metav1.String_ (corev1.FinishedAt t), true, true))
  /\ (Forall (fun y => terminatedOOMKilled (corev1.State y) = false)
        (corev1.ContainerStatuses (corev1.Status pod)) ->
      (exists cs, cs ∈ corev1.ContainerStatuses (corev1.Status pod)
                  /\ terminatedOOMKilled (corev1.LastTerminationState cs) = true) ->
      exists pre cs post t,
        corev1.ContainerStatuses (corev1.Status pod) = pre ++ cs :: post
        /\ Forall (fun y => terminatedOOMKilled (corev1.LastTerminationState y) = false)
             pre
        /\ corev1.Terminated (corev1.LastTerminationState cs) = Some t
        /\ corev1.t_Reason t = "OOMKilled"
        /\ Detector ProblemPodOOMKilled (ObjPod pod) cfg =
             Ret ("Container " +:+ corev1.cs_Name cs +:+
                  " was recently killed because it ran out of memory: " +:+
                  metav1.String_ (corev1.FinishedAt t), true, true))
  /\ ((exists cs, cs ∈ corev1.ContainerStatuses (corev1.Status pod)
                  /\ (terminatedOOMKilled (corev1.State cs) = true
                      \/ terminatedOOMKilled (corev1.LastTerminationState cs) = true)) ->
      exists d, Detector ProblemPodOOMKilled (ObjPod pod) cfg = Ret d
                /\ isOccurring d = true).
Proof.
  assert (Hquiet : forall l : list corev1.ContainerStatus,
             Forall (fun y => terminatedOOMKilled (corev1.State y) = false
                              /\ terminatedOOMKilled (corev1.LastTerminationState y) = false) l ->
             Forall (fun y => oomKilled_body y = Ret None) l).
  { intros l Hl. eapply Forall_impl; [exact Hl|]. intros y [Hy1 Hy2].
    unfold oomKilled_body. by rewrite Hy1, Hy2. }
  assert (Hwas : forall pre cs post t,
             corev1.ContainerStatuses (corev1.Status pod) = pre ++ cs :: post ->
             Forall (fun y => terminatedOOMKilled (corev1.State y) = false
                              /\ terminatedOOMKilled (corev1.LastTerminationState y) = false)
               pre ->
             terminatedOOMKilled (corev1.State cs) = false ->
             corev1.Terminated (corev1.LastTerminationState cs) = Some t ->
             corev1.t_Reason t = "OOMKilled" ->
             Detector ProblemPodOOMKilled (ObjPod pod) cfg =
               Ret ("Container " +:+ corev1.cs_Name cs +:+
                    " was recently killed because it ran out of memory: " +:+
                    metav1.String_ (corev1.FinishedAt t), true, true)).
  { intros pre cs post t Hl Hpre Hcur Ht Hr. simpl.
    rewrite Hl, range_return_first by auto.
    unfold oomKilled_body at 1. rewrite Hcur.
    assert (Hlast : terminatedOOMKilled (corev1.LastTerminationState cs) = true).
    { apply terminatedOOMKilled_true. by exists t. }
    by rewrite Hlast, Ht. }
  split_and!.
  - intros pre cs post Hl Hpre Hcs. simpl.
    rewrite Hl, range_return_first by auto.
    unfold oomKilled_body at 1. by rewrite Hcs.
  - exact Hwas.
  - intros Hcur (cs0 & Hin & Hlast).
    destruct (first_split
                (fun y => terminatedOOMKilled (corev1.LastTerminationState y))
                (corev1.ContainerStatuses (corev1.Status pod)))
      as [Hnone|(pre & cs & post & Hl & Hpre & Hcs)].
    { rewrite Forall_forall in Hnone. specialize (Hnone _ Hin).
      simpl in Hnone. congruence. }
    destruct (proj1 (terminatedOOMKilled_true _) Hcs) as (t & Ht & Hr).
    exists pre, cs, post, t. split_and!; [done|exact Hpre|done|done|].
    rewrite Hl in Hcur.
    apply Forall_app in Hcur as [Hcur1 Hcur2].
    apply Forall_cons in Hcur2 as [Hcur2 _].
    apply (Hwas pre cs post t); [done| |done..].
    rewrite Forall_forall in Hcur1, Hpre |- *. auto.
  - intros (cs0 & Hin & Hcs0).
    destruct (first_split
                (fun y => terminatedOOMKilled (corev1.State y)
                          || terminatedOOMKilled (corev1.LastTerminationState y))
                (corev1.ContainerStatuses (corev1.Status pod)))
      as [Hnone|(pre & cs & post & Hl & Hpre & Hcs)].
    { rewrite Forall_forall in Hnone. specialize (Hnone _ Hin).
      simpl in Hnone. apply orb_false_iff in Hnone as [Hn1 Hn2].
      destruct Hcs0; congruence. }
    simpl. rewrite Hl, range_return_first.
    + unfold oomKilled_body at 1.
      destruct (terminatedOOMKilled (corev1.State cs)) eqn:E1; [by eexists|].
      simpl in Hcs. rewrite Hcs.
      destruct (proj1 (terminatedOOMKilled_true _) Hcs) as (t & -> & _).
      by eexists.
    + apply Hquiet. eapply Forall_impl; [exact Hpre|]. intros y Hy.
      simpl in Hy. by apply orb_false_iff in Hy.
Qed.

Lemma PodOOMKilled_detector_witness :
  Detector ProblemPodOOMKilled
    (ObjPod (Samples.pod "web" [Samples.container "log" 0;
                                Samples.isOOMKilled "app" Samples.noon;
                                Samples.wasOOMKilled "sidecar" Samples.noon])) None =
    Ret ("Container app was killed because it ran out of memory", false, true)
  /\ Detector ProblemPodOOMKilled (ObjPod Samples.pastThenPresentOOM) None =
       Ret ("Container sidecar was recently killed because it ran out of memory: "
            +:+ Samples.noon, true, true)
  /\ (exists pre cs post t,
         [Samples.container "log" 0; Samples.wasOOMKilled "a" Samples.noon;
          Samples.wasOOMKilled "b" "2023-07-02 08:30:00 +0000 UTC"]
           = pre ++ cs :: post
         /\ Forall (fun y => terminatedOOMKilled (corev1.LastTerminationState y) = false)
              pre
         /\ corev1.Terminated (corev1.LastTerminationState cs) = Some t
         /\ corev1.t_Reason t = "OOMKilled"
         /\ Detector ProblemPodOOMKilled
              (ObjPod (Samples.pod "web"
                         [Samples.container "log" 0; Samples.wasOOMKilled "a" Samples.noon;
                          Samples.wasOOMKilled "b" "2023-07-02 08:30:00 +0000 UTC"]))
              None =
              Ret ("Container " +:+ corev1.cs_Name cs +:+
                   " was recently killed because it ran out of memory: " +:+
                   metav1.String_ (corev1.FinishedAt t), true, true))
  /\ exists d, Detector ProblemPodOOMKilled (ObjPod Samples.pastThenPresentOOM) None
               = Ret d
               /\ isOccurring d = true.
Proof.
  split_and!.
  - apply (proj1 (PodOOMKilled_detector
                    (Samples.pod "web" [Samples.container "log" 0;
                                        Samples.isOOMKilled "app" Samples.noon;
                                        Samples.wasOOMKilled "sidecar" Samples.noon])
                    None)
             [Samples.container "log" 0] (Samples.isOOMKilled "app" Samples.noon)
             [Samples.wasOOMKilled "sidecar" Samples.noon]).
    + reflexivity.
    + repeat constructor.
    + reflexivity.
  - refine (eq_trans
              (proj1 (proj2 (PodOOMKilled_detector Samples.pastThenPresentOOM None))
                 [] (Samples.wasOOMKilled "sidecar" Samples.noon)
                 [Samples.isOOMKilled "app" Samples.noon] _ _ _ _ _ _) _).
    + reflexivity.
    + constructor.
    + reflexivity.
    + reflexivity.
    + reflexivity.
    + reflexivity.
  - apply (proj1 (proj2 (proj2 (PodOOMKilled_detector
                    (Samples.pod "web"
                       [Samples.container "log" 0; Samples.wasOOMKilled "a" Samples.noon;
                        Samples.wasOOMKilled "b" "2023-07-02 08:30:00 +0000 UTC"])
                    None)))).
    + repeat constructor.
    + exists (Samples.wasOOMKilled "b" "2023-07-02 08:30:00 +0000 UTC").
      split; [|reflexivity]. do 2 right. by left.
  - apply (proj2 (proj2 (proj2 (PodOOMKilled_detector Samples.pastThenPresentOOM None)))).
    exists (Samples.isOOMKilled "app" Samples.noon). split.
    + right. by left.
    + left. reflexivity.
Defined.

(** C6 as stated fails: a container of the pod is currently OOM-killed,
    yet the detection is a warning, because a container listed before it
    was OOM-killed earlier and is reported first. *)
Lemma PodOOMKilled_current_not_error :
  (exists cs, cs ∈ corev1.ContainerStatuses (corev1.Status Samples.pastThenPresentOOM)
              /\ terminatedOOMKilled (corev1.State cs) = true)
  /\ ~ exists d, Detector ProblemPodOOMKilled (ObjPod Samples.pastThenPresentOOM) None
                 = Ret d
                 /\ isOccurring d = true /\ warning d = false.
Proof.
  split.
  - exists (Samples.isOOMKilled "app" Samples.noon). split; [|reflexivity].
    right. by left.
  - intros (d & Hd & _ & Hw). vm_compute in Hd.
    injection Hd as <-. discriminate Hw.
Qed.

(** ** Defensive type checks *)

(** C7: every enabled pod detector, applied to an autoscaler, and every
    enabled autoscaler detector, applied to a pod, returns "not occurring"
    without panicking; so does every enabled detector applied to an object
    of any other kind. *)
Theorem detectors_defensive :
  (forall p, p ∈ enabledPodProblems ->
     forall (hpa : v1.HorizontalPodAutoscaler) (cfg : option Config),
       Detector p (ObjHPA hpa) cfg = Ret ("", false, false))
  /\ (forall p, p ∈ enabledHPAProblems ->
        forall (pod : corev1.Pod) (cfg : option Config),
          Detector p (ObjPod pod) cfg = Ret ("", false, false))
  /\ (forall p, p ∈ enabledProblems ->
        forall cfg : option Config,
          Detector p ObjOther cfg = Ret ("", false, false)).
Proof.
  split_and!; intros p Hp;
    repeat (apply elem_of_cons in Hp as [->|Hp]);
    try (by apply elem_of_nil in Hp); reflexivity.
Qed.

Lemma detectors_defensive_witness :
  Detector ProblemHighRestarts (ObjHPA (Samples.hpa "web" 10 10)) None =
    Ret ("", false, false)
  /\ Detector ProblemMaxedOutHPAs
       (ObjPod (Samples.pod "web" [Samples.container "c" 5])) None =
       Ret ("", false, false)
  /\ Detector ProblemPodCrashLoopBackOff ObjOther None = Ret ("", false, false).
Proof.
  split_and!.
  - apply (proj1 detectors_defensive ProblemHighRestarts).
    unfold enabledPodProblems. do 4 right. by left.
  - apply (proj1 (proj2 detectors_defensive) ProblemMaxedOutHPAs).
    by left.
  - apply (proj2 (proj2 detectors_defensive) ProblemPodCrashLoopBackOff).
    by left.
Defined.

(** The detector that is defined but not enabled, PodPending, has the same
    type check. *)
Lemma PodPending_defensive (hpa : v1.HorizontalPodAutoscaler) (cfg : option Config) :
  Detector ProblemPodPending (ObjHPA hpa) cfg = Ret ("", false, false).
Proof. reflexivity. Qed.

(** ** First appearances *)

Lemma elem_of_first_appearances_from (seen ids : list string) (x : string) :
  x ∈ first_appearances_from seen ids <-> x ∈ ids /\ x ∉ seen.
Proof.
  revert seen. induction ids as [|id rest IH]; intros seen; simpl.
  - set_solver.
  - destruct (decide (id ∈ seen)) as [Hin|Hnin].
    + rewrite IH. set_solver.
    + rewrite elem_of_cons, IH.
      destruct (decide (x = id)) as [->|Hne]; set_solver.
Qed.

Lemma NoDup_first_appearances_from (seen ids : list string) :
  NoDup (first_appearances_from seen ids).
Proof.
  revert seen. induction ids as [|id rest IH]; intros seen; simpl.
  - constructor.
  - destruct (decide (id ∈ seen)); [apply IH|].
    constructor; [|apply IH].
    rewrite elem_of_first_appearances_from. set_solver.
Qed.

(** Reading the input from left to right, an ID is appended exactly when
    it has not been met before. *)
Lemma first_appearances_from_snoc (seen ids : list string) (x : string) :
  first_appearances_from seen (ids ++ [x]) =
    first_appearances_from seen ids
    ++ (if decide (x ∈ seen ++ ids) then [] else [x]).
Proof.
  revert seen. induction ids as [|id rest IH]; intros seen; simpl.
  - rewrite app_nil_r. by destruct (decide (x ∈ seen)).
  - destruct (decide (id ∈ seen)) as [Hin|Hnin].
    + rewrite IH. f_equal.
      destruct (decide (x ∈ seen ++ rest)), (decide (x ∈ seen ++ id :: rest));
        set_solver.
    + simpl. rewrite IH. do 2 f_equal.
      destruct (decide (x ∈ (id :: seen) ++ rest)),
               (decide (x ∈ seen ++ id :: rest)); set_solver.
Qed.

(** ** The catalog lookup *)

Lemma findEnabled_Some (catalog : list Problem) (id : string) (e : Problem) :
  findEnabled catalog id = Some e -> ID e = id /\ e ∈ catalog.
Proof.
  induction catalog as [|p rest IH]; simpl; [done|].
  destruct (decide (ID p = id)) as [Hid|Hne].
  - intros [= <-]. split; [done|by left].
  - intros H. destruct (IH H) as [? ?]. split; [done|by right].
Qed.

Lemma findEnabled_None (catalog : list Problem) (id : string) :
  findEnabled catalog id = None <-> id ∉ map ID catalog.
Proof.
  induction catalog as [|p rest IH]; simpl.
  - split; [intros _; apply not_elem_of_nil|done].
  - destruct (decide (ID p = id)) as [Hid|Hne].
    + split; [done|]. intros H. exfalso. apply H. rewrite Hid. by left.
    + rewrite IH, not_elem_of_cons. naive_solver.
Qed.

Lemma findEnabled_NoDup (catalog : list Problem) (e : Problem) :
  NoDup (map ID catalog) -> e ∈ catalog -> findEnabled catalog (ID e) = Some e.
Proof.
  induction catalog as [|p rest IH]; simpl; intros Hnd He.
  - by apply elem_of_nil in He.
  - apply NoDup_cons in Hnd as [Hp Hnd].
    destruct (decide (ID p = ID e)) as [Hid|Hne].
    + apply elem_of_cons in He as [->|He]; [done|].
      exfalso. apply Hp. rewrite Hid. apply list_elem_of_fmap. by exists e.
    + apply elem_of_cons in He as [->|He]; [done|]. by apply IH.
Qed.

(** The IDs of the enabled problems are pairwise distinct. *)
Lemma enabledProblems_NoDup : NoDup (map ID enabledProblems).
Proof. apply (bool_decide_unpack _). by vm_compute. Qed.

(** ** [ReportFromResources] *)

(** The loop of [ReportFromResources] appends, to the problems collected so
    far, the catalog entries of the IDs that appear for the first time. The
    set [problemHM] holds the IDs met so far that resolve. *)
Lemma collectProblems_spec (catalog : list Problem) (resources : list Resource)
    (problemHM : gset string) (seen : list string) (problems : list Problem) :
  (forall id, id ∈ problemHM <-> id ∈ seen /\ is_Some (findEnabled catalog id)) ->
  collectProblems catalog resources problemHM problems =
    problems ++ omap (findEnabled catalog)
                  (first_appearances_from seen (map ProblemID resources)).
Proof.
  revert problemHM seen problems.
  induction resources as [|r rest IH]; intros hm seen ps Hinv; simpl.
  - by rewrite app_nil_r.
  - destruct (decide (ProblemID r ∈ hm)) as [Hin|Hnin].
    + rewrite decide_True by (by apply Hinv). by apply IH.
    + destruct (findEnabled catalog (ProblemID r)) as [e|] eqn:He.
      * destruct (findEnabled_Some _ _ _ He) as [Hid _].
        rewrite decide_False by (intros Hs; apply Hnin, Hinv; by rewrite He).
        simpl. rewrite He. simpl.
        rewrite (IH _ (ProblemID r :: seen)), <- app_assoc; [done|].
        intros id. rewrite Hid, elem_of_union, elem_of_singleton, elem_of_cons, Hinv.
        split.
        -- intros [->|[? ?]]; [rewrite He|]; eauto.
        -- intros [[->|?] ?]; eauto.
      * destruct (decide (ProblemID r ∈ seen)) as [Hs|Hs]; [by apply IH|].
        simpl. rewrite He. apply IH.
        intros id. rewrite elem_of_cons, Hinv.
        split; [naive_solver|]. intros [[->|?] Hsome]; [|done].
        rewrite He in Hsome. by destruct Hsome.
Qed.

Lemma fmap_ID_omap_findEnabled (catalog : list Problem) (ids : list string) :
  map ID (omap (findEnabled catalog) ids) =
    filter (fun id => is_Some (findEnabled catalog id)) ids.
Proof.
  induction ids as [|id rest IH]; simpl; [done|].
  rewrite filter_cons.
  destruct (findEnabled catalog id) as [e|] eqn:He; simpl.
  - destruct (findEnabled_Some _ _ _ He) as [-> _]. f_equal. exact IH.
  - exact IH.
Qed.

Lemma ReportFromResources_Problems (resources : list Resource) :
  Problems (ReportFromResources resources) =
    omap (findEnabled enabledProblems) (first_appearances (map ProblemID resources)).
Proof.
  unfold ReportFromResources. simpl.
  rewrite (collectProblems_spec _ _ ∅ []); [done|].
  intros id. set_solver.
Qed.

(** C1: the report keeps the input list as its [Resources]; its [Problems]
    are the catalog entries of the problem IDs of the input that resolve,
    one per distinct ID, in the order in which the IDs first appear; IDs
    that do not resolve contribute nothing, and no problem is listed whose
    ID is absent from the input. *)
Theorem ReportFromResources_spec (resources : list Resource) :
  Resources (ReportFromResources resources) = resources
  /\ Problems (ReportFromResources resources) =
       omap (findEnabled enabledProblems)
         (first_appearances (map ProblemID resources))
  /\ map ID (Problems (ReportFromResources resources)) =
       filter resolves (first_appearances (map ProblemID resources))
  /\ NoDup (map ID (Problems (ReportFromResources resources)))
  /\ (forall p, p ∈ Problems (ReportFromResources resources) <->
                p ∈ enabledProblems /\ ID p ∈ map ProblemID resources).
Proof.
  split_and!.
  - reflexivity.
  - apply ReportFromResources_Problems.
  - rewrite ReportFromResources_Problems. apply fmap_ID_omap_findEnabled.
  - rewrite ReportFromResources_Problems, fmap_ID_omap_findEnabled.
    apply NoDup_filter, NoDup_first_appearances_from.
  - intros p. rewrite ReportFromResources_Problems, list_elem_of_omap. split.
    + intros (id & Hid & He). apply findEnabled_Some in He as [<- Hp].
      split; [done|].
      by apply elem_of_first_appearances_from in Hid as [? _].
    + intros [Hp Hid]. exists (ID p). split.
      * apply elem_of_first_appearances_from. split; [done|apply not_elem_of_nil].
      * by apply findEnabled_NoDup; [apply enabledProblems_NoDup|].
Qed.

Lemma ReportFromResources_spec_witness :
  map ID (Problems (ReportFromResources Samples.records)) =
    ["HighRestarts"; "PodNotReady"; "PodOOMKilled"]
  /\ (ProblemHighRestarts ∈ Problems (ReportFromResources Samples.records) <->
      ProblemHighRestarts ∈ enabledProblems
      /\ ID ProblemHighRestarts ∈ map ProblemID Samples.records).
Proof.
  split.
  - rewrite (proj1 (proj2 (proj2 (ReportFromResources_spec Samples.records)))).
    reflexivity.
  - apply (proj2 (proj2 (proj2 (proj2 (ReportFromResources_spec Samples.records))))).
Defined.

(** ** Pointers into the record list *)

Lemma elem_of_indices_where (P : Resource -> bool) (j : nat)
    (resources : list Resource) (k : nat) :
  k ∈ indices_where P j resources <->
  (j <= k)%nat /\ exists r, resources !! (k - j)%nat = Some r /\ P r = true.
Proof.
  revert j. induction resources as [|r rest IH]; intros j; simpl.
  - split; [by intros ?%elem_of_nil|by intros (_ & ? & ? & _)].
  - assert (Hstep : k ∈ indices_where P (S j) rest <->
                    (j < k)%nat /\ exists x, (r :: rest) !! (k - j)%nat = Some x
                                             /\ P x = true).
    { rewrite IH. split.
      - intros (Hle & x & Hx & HP). split; [lia|]. exists x. split; [|done].
        by replace (k - j)%nat with (S (k - S j)) by lia.
      - intros (Hlt & x & Hx & HP). split; [lia|]. exists x. split; [|done].
        by replace (k - j)%nat with (S (k - S j)) in Hx by lia. }
    destruct (P r) eqn:HPr.
    + rewrite elem_of_cons, Hstep. split.
      * intros [->|(Hlt & Hx)]; [|split; [lia|done]].
        split; [lia|]. exists r. by rewrite Nat.sub_diag.
      * intros (Hle & Hx). destruct (decide (k = j)) as [->|Hne]; [by left|].
        right. split; [lia|done].
    + rewrite Hstep. split.
      * intros (Hlt & Hx). split; [lia|done].
      * intros (Hle & x & Hx & HP). destruct (decide (k = j)) as [->|Hne].
        -- rewrite Nat.sub_diag in Hx. injection Hx as <-. congruence.
        -- split; [lia|]. by exists x.
Qed.

Lemma indices_where_sorted (P : Resource -> bool) (j : nat) (resources : list Resource) :
  StronglySorted lt (indices_where P j resources).
Proof.
  revert j. induction resources as [|r rest IH]; intros j; simpl.
  - constructor.
  - destruct (P r); [|apply IH].
    constructor; [apply IH|].
    apply Forall_forall. intros k Hk%elem_of_indices_where. lia.
Qed.

Lemma StronglySorted_lt_NoDup (l : list nat) : StronglySorted lt l -> NoDup l.
Proof.
  induction 1 as [|k l _ IH Hall]; constructor; [|done].
  intros Hk. rewrite Forall_forall in Hall. specialize (Hall _ Hk). lia.
Qed.

Lemma indices_where_NoDup (P : Resource -> bool) (j : nat) (resources : list Resource) :
  NoDup (indices_where P j resources).
Proof. apply StronglySorted_lt_NoDup, indices_where_sorted. Qed.

Lemma indices_where_all (P : Resource -> bool) (j : nat) (resources : list Resource) :
  Forall (fun r => P r = true) resources ->
  indices_where P j resources = seq j (length resources).
Proof.
  intros H. revert j. induction H as [|r rest Hr _ IH]; intros j; simpl; [done|].
  by rewrite Hr, IH.
Qed.

Lemma records_at_seq (resources : list Resource) :
  records_at resources (seq 0 (length resources)) = resources.
Proof.
  unfold records_at.
  assert (H : forall pre l : list Resource,
             omap (fun j => (pre ++ l) !! j) (seq (length pre) (length l)) = l).
  { intros pre l. revert pre. induction l as [|x l IH]; intros pre; simpl; [done|].
    rewrite list_lookup_middle by done. simpl. f_equal.
    specialize (IH (pre ++ [x])). rewrite length_app, <- app_assoc in IH.
    simpl in IH. by rewrite Nat.add_1_r in IH. }
  apply (H [] resources).
Qed.

(** ** Closed forms of the index loops *)

Lemma appendAll_appendAt (id : string) (j : nat) (pointers : list nat)
    (m : gmap string (list nat)) :
  appendAll id pointers (appendAt id j m) = appendAll id (j :: pointers) m.
Proof.
  unfold appendAt. destruct pointers as [|k pointers]; simpl; [done|].
  rewrite lookup_insert_eq, insert_insert_eq. simpl.
  by rewrite <- app_assoc.
Qed.

Lemma ByProblem_resources_closed (problem : Problem) (j : nat)
    (resources : list Resource) (rtrn : gmap string (list nat)) :
  ByProblem_resources problem j resources rtrn =
    appendAll (ID problem) (indices_where (hasProblem (ID problem)) j resources) rtrn.
Proof.
  revert j rtrn. induction resources as [|r rest IH]; intros j rtrn; simpl; [done|].
  rewrite IH. unfold hasProblem at 2.
  destruct (decide (ProblemID r = ID problem)) as [Heq|Hne].
  - rewrite bool_decide_eq_true_2 by done. apply appendAll_appendAt.
  - by rewrite bool_decide_eq_false_2 by done.
Qed.

Lemma ByProblem_problems_closed (problems : list Problem)
    (resources : list Resource) (rtrn : gmap string (list nat)) :
  ByProblem_problems problems resources rtrn =
    appendProblems hasProblem problems resources rtrn.
Proof.
  revert rtrn. induction problems as [|p rest IH]; intros rtrn; simpl; [done|].
  by rewrite IH, ByProblem_resources_closed.
Qed.

Lemma BySeverity_resources_lookup (problem : Problem) (j : nat)
    (resources : list Resource) (rtrn : gmap Severity (gmap string (list nat)))
    (severity : Severity) :
  BySeverity_resources problem j resources rtrn !! severity =
    appendAll (ID problem)
      (indices_where (hasProblemAndSeverity severity (ID problem)) j resources)
    <$> rtrn !! severity.
Proof.
  revert j rtrn. induction resources as [|r rest IH]; intros j rtrn; simpl.
  - by destruct (rtrn !! severity).
  - rewrite IH. unfold hasProblemAndSeverity at 2, hasProblem, hasSeverity, severityOf.
    destruct (decide (ProblemID r = ID problem)) as [Heq|Hne].
    + rewrite (bool_decide_eq_true_2 _ Heq). simpl.
      unfold appendAtSeverity.
      destruct (Warning r); simpl; rewrite lookup_alter;
        (destruct (decide (_ = severity)) as [<-|Hs];
         [ rewrite bool_decide_eq_true_2 by done;
           destruct (rtrn !! _); simpl; [|done];
           by rewrite appendAll_appendAt
         | by rewrite (bool_decide_eq_false_2 _ Hs) ]).
    + by rewrite (bool_decide_eq_false_2 _ Hne).
Qed.

Lemma BySeverity_problems_lookup (problems : list Problem)
    (resources : list Resource) (rtrn : gmap Severity (gmap string (list nat)))
    (severity : Severity) :
  BySeverity_problems problems resources rtrn !! severity =
    appendProblems (hasProblemAndSeverity severity) problems resources
    <$> rtrn !! severity.
Proof.
  revert rtrn. induction problems as [|p rest IH]; intros rtrn; simpl.
  - by destruct (rtrn !! severity).
  - rewrite IH, BySeverity_resources_lookup.
    by destruct (rtrn !! severity).
Qed.

Lemma appendAll_lookup (id id' : string) (pointers : list nat)
    (m : gmap string (list nat)) :
  appendAll id pointers m !! id' =
    if decide (id = id') then
      match pointers with
      | [] => m !! id'
      | _ => Some (default [] (m !! id') ++ pointers)
      end
    else m !! id'.
Proof.
  unfold appendAll. destruct pointers as [|k pointers].
  - by destruct (decide (id = id')).
  - rewrite lookup_insert. by destruct (decide (id = id')) as [->|].
Qed.

(** With pairwise distinct problem IDs, each bucket is filled once. *)
Lemma appendProblems_lookup (Q : string -> Resource -> bool)
    (problems : list Problem) (resources : list Resource)
    (m : gmap string (list nat)) (id : string) :
  NoDup (map ID problems) ->
  appendProblems Q problems resources m !! id =
    if decide (id ∈ map ID problems) then
      match indices_where (Q id) 0 resources with
      | [] => m !! id
      | pointers => Some (default [] (m !! id) ++ pointers)
      end
    else m !! id.
Proof.
  revert m. induction problems as [|p rest IH]; intros m Hnd; simpl.
  - done.
  - apply NoDup_cons in Hnd as [Hp Hnd]. rewrite IH by done.
    rewrite appendAll_lookup.
    destruct (decide (ID p = id)) as [<-|Hne].
    + rewrite (decide_False (P := ID p ∈ map ID rest)) by done.
      rewrite decide_True by (by left).
      by destruct (indices_where _ _ _).
    + destruct (decide (id ∈ map ID rest)) as [Hin|Hnin].
      * rewrite decide_True; [done|by right].
      * rewrite decide_False; [done|].
        intros [?|?]%elem_of_cons; [congruence|done].
Qed.

(** ** The union of the buckets of a map *)

Section Flatten.
Context {K V : Type} `{Countable K} (f : V -> list nat).
Implicit Types (m : gmap K V) (x : nat).

Lemma concat_mjoin (ls : list (list nat)) : concat ls = mjoin ls.
Proof. induction ls as [|l ls IH]; simpl; congruence. Qed.

Lemma flatten_empty : flatten f (∅ : gmap K V) = [].
Proof. unfold flatten. by rewrite map_to_list_empty. Qed.

Lemma flatten_insert m i v :
  m !! i = None -> flatten f (<[i:=v]> m) ≡ₚ f v ++ flatten f m.
Proof.
  intros Hi. unfold flatten. rewrite !concat_mjoin.
  change (map (fun entry : K * V => f entry.2))
    with (fmap (M := list) (fun entry : K * V => f entry.2)).
  by rewrite (map_to_list_insert m i v Hi).
Qed.

Lemma elem_of_flatten m x :
  x ∈ flatten f m <-> exists k v, m !! k = Some v /\ x ∈ f v.
Proof.
  unfold flatten. rewrite concat_mjoin, list_elem_of_join. split.
  - intros (l & Hx & Hl). apply list_elem_of_fmap in Hl as ([k v] & -> & Hkv).
    apply elem_of_map_to_list in Hkv. by exists k, v.
  - intros (k & v & Hkv & Hx). exists (f v). split; [done|].
    apply list_elem_of_fmap. exists (k, v). split; [done|].
    by apply elem_of_map_to_list.
Qed.

(** Buckets without repetition that are pairwise disjoint have a union
    without repetition. *)
Lemma NoDup_flatten m :
  (forall k v, m !! k = Some v -> NoDup (f v)) ->
  (forall k1 k2 v1 v2 x,
      m !! k1 = Some v1 -> m !! k2 = Some v2 -> x ∈ f v1 -> x ∈ f v2 -> k1 = k2) ->
  NoDup (flatten f m).
Proof.
  induction m as [|i v m Hi IH] using map_ind; intros Hnd Hdisj.
  - rewrite flatten_empty. constructor.
  - rewrite (flatten_insert m i v Hi). apply NoDup_app. split_and!.
    + apply (Hnd i). apply lookup_insert_eq.
    + intros x Hx (k & w & Hk & Hw)%elem_of_flatten.
      assert (i <> k) as Hne by congruence.
      apply Hne. apply (Hdisj i k v w x); [apply lookup_insert_eq| |done|done].
      by rewrite lookup_insert_ne.
    + apply IH.
      * intros k w Hk. apply (Hnd k).
        rewrite lookup_insert_ne; [done|congruence].
      * intros k1 k2 v1 v2 x Hk1 Hk2. apply Hdisj.
        -- rewrite lookup_insert_ne; [done|congruence].
        -- rewrite lookup_insert_ne; [done|congruence].
Qed.
End Flatten.

(** ** The indices of a report built by [ReportFromResources] *)

Lemma indices_where_nil (P : Resource -> bool) (j : nat) (resources : list Resource) :
  Forall (fun r => P r = false) resources -> indices_where P j resources = [].
Proof.
  intros H. revert j. induction H as [|r rest Hr _ IH]; intros j; simpl; [done|].
  by rewrite Hr.
Qed.

Lemma indices_where_ext (P Q : Resource -> bool) (j : nat) (resources : list Resource) :
  (forall r, P r = Q r) -> indices_where P j resources = indices_where Q j resources.
Proof.
  intros HPQ. revert j. induction resources as [|r rest IH]; intros j; simpl; [done|].
  by rewrite HPQ, IH.
Qed.

Lemma elem_of_indices_where_0 (P : Resource -> bool) (resources : list Resource) (k : nat) :
  k ∈ indices_where P 0 resources <->
  exists r, resources !! k = Some r /\ P r = true.
Proof.
  rewrite elem_of_indices_where, Nat.sub_0_r. split; [by intros [_ ?]|].
  intros ?. split; [lia|done].
Qed.

Section ReportIndices.
Variable resources : list Resource.

Lemma ReportFromResources_elem_ID (id : string) :
  id ∈ map ID (Problems (ReportFromResources resources)) <->
  resolves id /\ id ∈ map ProblemID resources.
Proof.
  rewrite ReportFromResources_Problems, fmap_ID_omap_findEnabled.
  rewrite list_elem_of_filter. unfold first_appearances.
  rewrite elem_of_first_appearances_from. unfold resolves.
  split; [naive_solver|]. intros [? ?]. split_and!; [done..|apply not_elem_of_nil].
Qed.

Lemma ReportFromResources_NoDup :
  NoDup (map ID (Problems (ReportFromResources resources))).
Proof.
  rewrite ReportFromResources_Problems, fmap_ID_omap_findEnabled.
  apply NoDup_filter, NoDup_first_appearances_from.
Qed.

(** One bucket of an index of the report. *)
Lemma report_index_lookup (Q : string -> Resource -> bool) (id : string) :
  (forall r, Q id r = true -> ProblemID r = id) ->
  appendProblems Q (Problems (ReportFromResources resources)) resources ∅ !! id =
    if decide (resolves id) then
      match indices_where (Q id) 0 resources with
      | [] => None
      | pointers => Some pointers
      end
    else None.
Proof.
  intros HQ. rewrite appendProblems_lookup by apply ReportFromResources_NoDup.
  rewrite lookup_empty.
  destruct (decide (id ∈ map ID (Problems (ReportFromResources resources))))
    as [Hin|Hnin].
  - apply ReportFromResources_elem_ID in Hin as [Hres _].
    by rewrite decide_True.
  - destruct (decide (resolves id)) as [Hres|Hres]; [|done].
    rewrite indices_where_nil; [done|].
    apply Forall_forall. intros r Hr.
    destruct (Q id r) eqn:HQr; [|done].
    exfalso. apply Hnin, ReportFromResources_elem_ID. split; [done|].
    apply list_elem_of_fmap. exists r. split; [|done]. symmetry. by apply HQ.
Qed.

Lemma report_index_lookup_Some (Q : string -> Resource -> bool) (id : string)
    (pointers : list nat) :
  (forall r, Q id r = true -> ProblemID r = id) ->
  appendProblems Q (Problems (ReportFromResources resources)) resources ∅ !! id
    = Some pointers ->
  resolves id /\ pointers = indices_where (Q id) 0 resources.
Proof.
  intros HQ. rewrite report_index_lookup by done.
  destruct (decide (resolves id)); [|done].
  destruct (indices_where (Q id) 0 resources); [done|].
  by intros [= <-].
Qed.

(** The union of the buckets of an index of the report. *)
Lemma report_index_buckets (Q : string -> Resource -> bool) :
  (forall id r, Q id r = true -> ProblemID r = id) ->
  NoDup (buckets (appendProblems Q (Problems (ReportFromResources resources))
                    resources ∅))
  /\ forall k,
      k ∈ buckets (appendProblems Q (Problems (ReportFromResources resources))
                     resources ∅) <->
      exists r, resources !! k = Some r
                /\ resolves (ProblemID r) /\ Q (ProblemID r) r = true.
Proof.
  intros HQ. split.
  - apply NoDup_flatten.
    + intros id l Hl. apply report_index_lookup_Some in Hl as [_ ->]; [|by apply HQ].
      apply indices_where_NoDup.
    + intros id1 id2 l1 l2 k Hl1 Hl2.
      apply report_index_lookup_Some in Hl1 as [_ ->]; [|by apply HQ].
      apply report_index_lookup_Some in Hl2 as [_ ->]; [|by apply HQ].
      intros (r1 & Hr1 & HQ1)%elem_of_indices_where_0
             (r2 & Hr2 & HQ2)%elem_of_indices_where_0.
      apply HQ in HQ1, HQ2. congruence.
  - intros k. unfold buckets. rewrite elem_of_flatten. split.
    + intros (id & l & Hl & Hk).
      apply report_index_lookup_Some in Hl as [Hres ->]; [|by apply HQ].
      apply elem_of_indices_where_0 in Hk as (r & Hr & HQr).
      exists r. by rewrite (HQ _ _ HQr).
    + intros (r & Hr & Hres & HQr).
      exists (ProblemID r), (indices_where (Q (ProblemID r)) 0 resources).
      assert (Hk : k ∈ indices_where (Q (ProblemID r)) 0 resources).
      { apply elem_of_indices_where_0. by exists r. }
      split; [|done].
      rewrite report_index_lookup by apply HQ.
      rewrite decide_True by done.
      destruct (indices_where (Q (ProblemID r)) 0 resources); [|done].
      by apply elem_of_nil in Hk.
Qed.

Lemma hasProblem_ID (id : string) (r : Resource) :
  hasProblem id r = true -> ProblemID r = id.
Proof. apply bool_decide_eq_true. Qed.

Lemma hasProblemAndSeverity_ID (severity : Severity) (id : string) (r : Resource) :
  hasProblemAndSeverity severity id r = true -> ProblemID r = id.
Proof. intros [H _]%andb_true_iff. by apply hasProblem_ID. Qed.

Lemma ByProblem_closed :
  ByProblem (ReportFromResources resources) =
    appendProblems hasProblem (Problems (ReportFromResources resources))
      resources ∅.
Proof. apply ByProblem_problems_closed. Qed.

Lemma BySeverity_lookup (severity : Severity) :
  BySeverity (ReportFromResources resources) !! severity =
    if decide (severity = SeverityError \/ severity = SeverityWarning) then
      Some (appendProblems (hasProblemAndSeverity severity)
              (Problems (ReportFromResources resources)) resources ∅)
    else None.
Proof.
  unfold BySeverity. rewrite BySeverity_problems_lookup. simpl.
  rewrite !lookup_insert.
  destruct (decide (SeverityWarning = severity)) as [<-|Hw].
  { rewrite decide_True by (by right). done. }
  destruct (decide (SeverityError = severity)) as [<-|He].
  { rewrite decide_True by (by left). done. }
  rewrite decide_False; [done|]. intros [?|?]; congruence.
Qed.
End ReportIndices.

(** ** Partition of the records by the two indices *)

Lemma resolvable_true (r : Resource) : resolvable r = true <-> resolves (ProblemID r).
Proof. apply bool_decide_eq_true. Qed.

Lemma ByProblem_buckets (resources : list Resource) :
  buckets (ByProblem (ReportFromResources resources)) ≡ₚ
    indices_where resolvable 0 resources.
Proof.
  rewrite ByProblem_closed.
  destruct (report_index_buckets resources hasProblem hasProblem_ID) as [Hnd Hel].
  apply NoDup_Permutation; [done|apply indices_where_NoDup|].
  intros k. rewrite Hel, elem_of_indices_where_0.
  split; intros (r & Hr & H); exists r; (split; [done|]).
  - apply resolvable_true, H.
  - split; [by apply resolvable_true|]. by apply bool_decide_eq_true.
Qed.

Lemma severityOf_cases (r : Resource) :
  severityOf r = SeverityError \/ severityOf r = SeverityWarning.
Proof. unfold severityOf. destruct (Warning r); auto. Qed.

Lemma BySeverity_lookup_Some (resources : list Resource) (severity : Severity)
    (m : gmap string (list nat)) :
  BySeverity (ReportFromResources resources) !! severity = Some m ->
  (severity = SeverityError \/ severity = SeverityWarning)
  /\ m = appendProblems (hasProblemAndSeverity severity)
           (Problems (ReportFromResources resources)) resources ∅.
Proof.
  rewrite BySeverity_lookup.
  destruct (decide (severity = SeverityError \/ severity = SeverityWarning));
    [|done].
  by intros [= <-].
Qed.

Lemma BySeverity_buckets (resources : list Resource) :
  severityBuckets (BySeverity (ReportFromResources resources)) ≡ₚ
    indices_where resolvable 0 resources.
Proof.
  assert (Hsev : forall severity,
             NoDup (buckets (appendProblems (hasProblemAndSeverity severity)
                      (Problems (ReportFromResources resources)) resources ∅))
             /\ forall k,
                 k ∈ buckets (appendProblems (hasProblemAndSeverity severity)
                      (Problems (ReportFromResources resources)) resources ∅) <->
                 exists r, resources !! k = Some r /\ resolves (ProblemID r)
                           /\ hasProblemAndSeverity severity (ProblemID r) r = true).
  { intros severity. apply report_index_buckets.
    intros id r. apply hasProblemAndSeverity_ID. }
  apply NoDup_Permutation; [|apply indices_where_NoDup|].
  - apply NoDup_flatten.
    + intros severity m [_ ->]%BySeverity_lookup_Some. apply Hsev.
    + intros s1 s2 m1 m2 k [_ ->]%BySeverity_lookup_Some
        [_ ->]%BySeverity_lookup_Some
        (r1 & Hr1 & _ & [_ H1]%andb_true_iff)%Hsev
        (r2 & Hr2 & _ & [_ H2]%andb_true_iff)%Hsev.
      apply bool_decide_eq_true in H1, H2. congruence.
  - intros k. unfold severityBuckets.
    rewrite elem_of_flatten, elem_of_indices_where_0. split.
    + intros (severity & m & [_ ->]%BySeverity_lookup_Some & (r & Hr & Hres & _)%Hsev).
      exists r. split; [done|]. by apply resolvable_true.
    + intros (r & Hr & Hres%resolvable_true).
      exists (severityOf r). eexists. split.
      * rewrite BySeverity_lookup.
        rewrite decide_True by apply severityOf_cases. reflexivity.
      * apply Hsev. exists r. split_and!; [done..|].
        unfold hasProblemAndSeverity, hasProblem, hasSeverity.
        by rewrite !bool_decide_eq_true_2.
Qed.

Lemma records_at_Permutation (resources : list Resource) (pointers : list nat) :
  pointers ≡ₚ seq 0 (length resources) ->
  records_at resources pointers ≡ₚ resources.
Proof.
  intros H. pose proof (records_at_seq resources) as Hseq.
  unfold records_at in *. by rewrite H, Hseq.
Qed.

(** C2, as the source has it: both indices partition the records whose
    problem ID resolves; every such record is pointed to exactly once over
    all buckets of [ByProblem], and exactly once over all buckets of
    [BySeverity]. When every record of the input resolves, the union of
    the buckets under either index is the input, as a multiset. Each
    bucket of [ByProblem] lists the records with its problem ID, all of
    them, in input order. *)
Theorem indices_partition (resources : list Resource) :
  buckets (ByProblem (ReportFromResources resources)) ≡ₚ
    indices_where resolvable 0 resources
  /\ severityBuckets (BySeverity (ReportFromResources resources)) ≡ₚ
       indices_where resolvable 0 resources
  /\ (Forall (fun r => resolves (ProblemID r)) resources ->
      buckets (ByProblem (ReportFromResources resources)) ≡ₚ
        seq 0 (length resources)
      /\ severityBuckets (BySeverity (ReportFromResources resources)) ≡ₚ
           seq 0 (length resources)
      /\ records_at resources (buckets (ByProblem (ReportFromResources resources)))
           ≡ₚ resources
      /\ records_at resources
           (severityBuckets (BySeverity (ReportFromResources resources)))
           ≡ₚ resources)
  /\ (forall id pointers,
         ByProblem (ReportFromResources resources) !! id = Some pointers ->
         StronglySorted lt pointers
         /\ forall k, k ∈ pointers <->
                      exists r, resources !! k = Some r /\ ProblemID r = id).
Proof.
  split_and!.
  - apply ByProblem_buckets.
  - apply BySeverity_buckets.
  - intros Hall.
    assert (Hseq : indices_where resolvable 0 resources = seq 0 (length resources)).
    { apply indices_where_all. eapply Forall_impl; [exact Hall|].
      intros r Hr. by apply resolvable_true. }
    pose proof (ByProblem_buckets resources) as HP.
    pose proof (BySeverity_buckets resources) as HS.
    rewrite Hseq in HP, HS.
    split_and!; [done|done|by apply records_at_Permutation..].
  - intros id pointers. rewrite ByProblem_closed.
    intros [_ ->]%report_index_lookup_Some; [|apply hasProblem_ID].
    split; [apply indices_where_sorted|].
    intros k. rewrite elem_of_indices_where_0.
    split; intros (r & Hr & H); exists r; (split; [done|]).
    + by apply hasProblem_ID.
    + by apply bool_decide_eq_true.
Qed.

Lemma indices_partition_witness :
  (buckets (ByProblem (ReportFromResources Samples.resolving)) ≡ₚ
     seq 0 (length Samples.resolving)
   /\ severityBuckets (BySeverity (ReportFromResources Samples.resolving)) ≡ₚ
        seq 0 (length Samples.resolving)
   /\ records_at Samples.resolving
        (buckets (ByProblem (ReportFromResources Samples.resolving)))
        ≡ₚ Samples.resolving
   /\ records_at Samples.resolving
        (severityBuckets (BySeverity (ReportFromResources Samples.resolving)))
        ≡ₚ Samples.resolving)
  /\ (StronglySorted lt [0; 2]%nat
      /\ forall k, k ∈ [0; 2]%nat <->
                   exists r, Samples.resolving !! k = Some r
                             /\ ProblemID r = "HighRestarts").
Proof.
  split.
  - apply (proj1 (proj2 (proj2 (indices_partition Samples.resolving)))).
    apply (bool_decide_unpack _). by vm_compute.
  - apply (proj2 (proj2 (proj2 (indices_partition Samples.resolving)))
             "HighRestarts" [0; 2]%nat).
    by vm_compute.
Defined.

(** C2 as stated fails: a record whose problem ID is not in the catalog is
    in no bucket of either index, so the union of the buckets is smaller
    than the input. *)
Lemma indices_drop_unresolved_records :
  ~ (records_at Samples.records
       (buckets (ByProblem (ReportFromResources Samples.records)))
       ≡ₚ Samples.records)
  /\ ~ (records_at Samples.records
          (severityBuckets (BySeverity (ReportFromResources Samples.records)))
          ≡ₚ Samples.records).
Proof.
  split; intros H; apply Permutation_length in H; vm_compute in H; discriminate.
Qed.

(** ** Purity of the indices *)

Lemma appendProblems_nil (Q : string -> Resource -> bool) (problems : list Problem)
    (resources : list Resource) (m : gmap string (list nat)) :
  Forall (fun r => forall id, Q id r = false) resources ->
  appendProblems Q problems resources m = m.
Proof.
  intros HQ. revert m. induction problems as [|p rest IH]; intros m; simpl; [done|].
  rewrite indices_where_nil; [apply IH|].
  eapply Forall_impl; [exact HQ|]. by intros r Hr.
Qed.

Lemma BySeverity_lookup_general (r : Report) (severity : Severity) :
  severity = SeverityError \/ severity = SeverityWarning ->
  BySeverity r !! severity =
    Some (appendProblems (hasProblemAndSeverity severity)
            (Problems r) (Resources r) ∅).
Proof.
  intros Hs. unfold BySeverity. rewrite BySeverity_problems_lookup.
  by destruct Hs as [-> | ->].
Qed.

Lemma prog_bind_run {A B : Type} (c : OnHeap.prog A) (k : A -> OnHeap.prog B)
    (h h' : OnHeap.Heap) (a : A) :
  c h = Ret (a, h') -> (c ≫= k) h = k a h'.
Proof. intros Hc. unfold mbind, OnHeap.prog_bind. by rewrite Hc. Qed.

Lemma addr_Problems_run (h : OnHeap.Heap) (i : nat) (p : Problem) :
  Problems (OnHeap.receiver h) !! i = Some p ->
  OnHeap.addr_Problems i h = Ret (i, h).
Proof.
  intros Hp. unfold OnHeap.addr_Problems.
  apply lookup_lt_Some in Hp. by rewrite decide_True.
Qed.

Lemma addr_Resources_run (h : OnHeap.Heap) (j : nat) (x : Resource) :
  Resources (OnHeap.receiver h) !! j = Some x ->
  OnHeap.addr_Resources j h = Ret (j, h).
Proof.
  intros Hx. unfold OnHeap.addr_Resources.
  apply lookup_lt_Some in Hx. by rewrite decide_True.
Qed.

Lemma load_Problem_run {A : Type} (field : Problem -> A) (h : OnHeap.Heap)
    (i : nat) (p : Problem) :
  Problems (OnHeap.receiver h) !! i = Some p ->
  OnHeap.load_Problem field i h = Ret (field p, h).
Proof. intros Hp. unfold OnHeap.load_Problem. by rewrite Hp. Qed.

Lemma load_Resource_run {A : Type} (field : Resource -> A) (h : OnHeap.Heap)
    (j : nat) (x : Resource) :
  Resources (OnHeap.receiver h) !! j = Some x ->
  OnHeap.load_Resource field j h = Ret (field x, h).
Proof. intros Hx. unfold OnHeap.load_Resource. by rewrite Hx. Qed.

Lemma stringMap_load_run (h : OnHeap.Heap) (m : OnHeap.ref) (id : string)
    (entries : gmap string (list nat)) :
  OnHeap.stringMaps h !! m = Some entries ->
  OnHeap.stringMap_load (Some m) id h = Ret (default [] (entries !! id), h).
Proof. intros Hm. unfold OnHeap.stringMap_load. by rewrite Hm. Qed.

Lemma ByProblem_resource_run (h : OnHeap.Heap) (rtrn : OnHeap.ref) (i j : nat)
    (p : Problem) (x : Resource) (entries : gmap string (list nat)) :
  Problems (OnHeap.receiver h) !! i = Some p ->
  Resources (OnHeap.receiver h) !! j = Some x ->
  OnHeap.stringMaps h !! rtrn = Some entries ->
  exists h',
    OnHeap.ByProblem_resource rtrn i j h = Ret ((), h')
    /\ OnHeap.receiver h' = OnHeap.receiver h
    /\ OnHeap.severityMaps h' = OnHeap.severityMaps h
    /\ OnHeap.stringMaps h' !! rtrn =
         Some (if decide (ProblemID x = ID p) then appendAt (ID p) j entries
               else entries)
    /\ forall l, l <> rtrn -> OnHeap.stringMaps h' !! l = OnHeap.stringMaps h !! l.
Proof.
  intros Hp Hx Hm. unfold OnHeap.ByProblem_resource.
  rewrite (prog_bind_run _ _ _ _ _ (addr_Resources_run _ _ _ Hx)).
  rewrite (prog_bind_run _ _ _ _ _ (load_Resource_run ProblemID _ _ _ Hx)).
  rewrite (prog_bind_run _ _ _ _ _ (load_Problem_run ID _ _ _ Hp)).
  destruct (decide (ProblemID x = ID p)) as [Heq|Hne].
  - rewrite (prog_bind_run _ _ _ _ _ (load_Problem_run ID _ _ _ Hp)).
    rewrite (prog_bind_run _ _ _ _ _ (load_Problem_run ID _ _ _ Hp)).
    rewrite (prog_bind_run _ _ _ _ _ (stringMap_load_run _ _ _ _ Hm)).
    unfold OnHeap.stringMap_store. rewrite Hm.
    eexists. split; [reflexivity|]. simpl. split_and!; [done|done| |].
    + by rewrite lookup_insert_eq.
    + intros l Hl. by rewrite lookup_insert_ne.
  - exists h. by split_and!.
Qed.

Lemma ByProblem_resources_run (rtrn : OnHeap.ref) (i : nat) (p : Problem) (k : nat) :
  forall (j : nat) (h : OnHeap.Heap) (entries : gmap string (list nat)),
    Problems (OnHeap.receiver h) !! i = Some p ->
    OnHeap.stringMaps h !! rtrn = Some entries ->
    (j + k = length (Resources (OnHeap.receiver h)))%nat ->
    exists h',
      OnHeap.for_range (seq j k) (OnHeap.ByProblem_resource rtrn i) h = Ret ((), h')
      /\ OnHeap.receiver h' = OnHeap.receiver h
      /\ OnHeap.severityMaps h' = OnHeap.severityMaps h
      /\ OnHeap.stringMaps h' !! rtrn =
           Some (ByProblem_resources p j (drop j (Resources (OnHeap.receiver h)))
                   entries)
      /\ forall l, l <> rtrn -> OnHeap.stringMaps h' !! l = OnHeap.stringMaps h !! l.
Proof.
  induction k as [|k IH]; intros j h entries Hp Hm Hlen.
  - exists h. rewrite drop_ge by lia. by split_and!.
  - destruct (lookup_lt_is_Some_2 (Resources (OnHeap.receiver h)) j) as [x Hx];
      [lia|].
    destruct (ByProblem_resource_run h rtrn i j p x entries Hp Hx Hm)
      as (h1 & Hrun & Hr1 & Hs1 & Hm1 & Hf1).
    destruct (IH (S j) h1 _ ltac:(by rewrite Hr1) Hm1 ltac:(rewrite Hr1; lia))
      as (h' & Hrun' & Hr' & Hs' & Hm' & Hf').
    exists h'. cbn [seq OnHeap.for_range].
    rewrite (prog_bind_run _ _ _ _ _ Hrun), Hrun'.
    rewrite (drop_S _ _ _ Hx). cbn [ByProblem_resources].
    rewrite Hr1 in Hr', Hm'.
    split_and!; [done|done|congruence|done|].
    intros l Hl. by rewrite Hf', Hf1.
Qed.

Lemma ByProblem_problem_run (h : OnHeap.Heap) (rtrn : OnHeap.ref) (i : nat)
    (p : Problem) (entries : gmap string (list nat)) :
  Problems (OnHeap.receiver h) !! i = Some p ->
  OnHeap.stringMaps h !! rtrn = Some entries ->
  exists h',
    OnHeap.ByProblem_problem rtrn i h = Ret ((), h')
    /\ OnHeap.receiver h' = OnHeap.receiver h
    /\ OnHeap.severityMaps h' = OnHeap.severityMaps h
    /\ OnHeap.stringMaps h' !! rtrn =
         Some (ByProblem_resources p 0 (Resources (OnHeap.receiver h)) entries)
    /\ forall l, l <> rtrn -> OnHeap.stringMaps h' !! l = OnHeap.stringMaps h !! l.
Proof.
  intros Hp Hm. unfold OnHeap.ByProblem_problem.
  rewrite (prog_bind_run _ _ _ _ _ (addr_Problems_run _ _ _ Hp)).
  rewrite (prog_bind_run OnHeap.len_Resources _ h h _ eq_refl).
  apply (ByProblem_resources_run rtrn i p _ 0%nat h entries Hp Hm). lia.
Qed.

Lemma ByProblem_problems_run (rtrn : OnHeap.ref) (n : nat) :
  forall (i : nat) (h : OnHeap.Heap) (entries : gmap string (list nat)),
    OnHeap.stringMaps h !! rtrn = Some entries ->
    (i + n = length (Problems (OnHeap.receiver h)))%nat ->
    exists h',
      OnHeap.for_range (seq i n) (OnHeap.ByProblem_problem rtrn) h = Ret ((), h')
      /\ OnHeap.receiver h' = OnHeap.receiver h
      /\ OnHeap.severityMaps h' = OnHeap.severityMaps h
      /\ OnHeap.stringMaps h' !! rtrn =
           Some (ByProblem_problems (drop i (Problems (OnHeap.receiver h)))
                   (Resources (OnHeap.receiver h)) entries)
      /\ forall l, l <> rtrn -> OnHeap.stringMaps h' !! l = OnHeap.stringMaps h !! l.
Proof.
  induction n as [|n IH]; intros i h entries Hm Hlen.
  - exists h. rewrite drop_ge by lia. by split_and!.
  - destruct (lookup_lt_is_Some_2 (Problems (OnHeap.receiver h)) i) as [p Hp];
      [lia|].
    destruct (ByProblem_problem_run h rtrn i p entries Hp Hm)
      as (h1 & Hrun & Hr1 & Hs1 & Hm1 & Hf1).
    destruct (IH (S i) h1 _ Hm1 ltac:(rewrite Hr1; lia))
      as (h' & Hrun' & Hr' & Hs' & Hm' & Hf').
    exists h'. cbn [seq OnHeap.for_range].
    rewrite (prog_bind_run _ _ _ _ _ Hrun), Hrun'.
    rewrite (drop_S _ _ _ Hp). cbn [ByProblem_problems].
    rewrite Hr1 in Hr', Hm'.
    split_and!; [done|done|congruence|done|].
    intros l Hl. by rewrite Hf', Hf1.
Qed.

(** A call of [ByProblem] makes one new map, fills it as [ByProblem] of the
    receiver's report says, and writes nothing else. *)
Lemma OnHeap_ByProblem_run (h : OnHeap.Heap) :
  exists m h',
    OnHeap.ByProblem h = Ret (m, h')
    /\ OnHeap.stringMaps h !! m = None
    /\ OnHeap.receiver h' = OnHeap.receiver h
    /\ OnHeap.severityMaps h' = OnHeap.severityMaps h
    /\ OnHeap.stringMaps h' !! m = Some (ByProblem (OnHeap.receiver h))
    /\ forall l, l <> m -> OnHeap.stringMaps h' !! l = OnHeap.stringMaps h !! l.
Proof.
  set (m := fresh (dom (OnHeap.stringMaps h))).
  set (h0 := {| OnHeap.receiver := OnHeap.receiver h;
                OnHeap.stringMaps := <[m := ∅]> (OnHeap.stringMaps h);
                OnHeap.severityMaps := OnHeap.severityMaps h |}).
  assert (Hfresh : OnHeap.stringMaps h !! m = None).
  { apply not_elem_of_dom, is_fresh. }
  destruct (ByProblem_problems_run m (length (Problems (OnHeap.receiver h0)))
              0%nat h0 ∅) as (h' & Hrun & Hr & Hs & Hm & Hf).
  { apply lookup_insert_eq. }
  { lia. }
  exists m, h'. unfold OnHeap.ByProblem.
  rewrite (prog_bind_run OnHeap.make_stringMap _ h h0 m eq_refl).
  rewrite (prog_bind_run OnHeap.len_Problems _ h0 h0 _ eq_refl).
  rewrite (prog_bind_run _ _ _ _ _ Hrun).
  split_and!; [done..|].
  intros l Hl. rewrite Hf by done. by apply lookup_insert_ne.
Qed.

Lemma severityMap_load_run (h : OnHeap.Heap) (m : OnHeap.ref) (severity : Severity)
    (entries : gmap Severity OnHeap.ref) :
  OnHeap.severityMaps h !! m = Some entries ->
  OnHeap.severityMap_load m severity h = Ret (entries !! severity, h).
Proof. intros Hm. unfold OnHeap.severityMap_load. by rewrite Hm. Qed.

Lemma represents_lookup (h : OnHeap.Heap) (m errors warnings : OnHeap.ref)
    (view : gmap Severity (gmap string (list nat))) (severity : Severity) :
  OnHeap.represents h m errors warnings view ->
  severity = SeverityError \/ severity = SeverityWarning ->
  exists bucket entries,
    (severity = SeverityError /\ bucket = errors
     \/ severity = SeverityWarning /\ bucket = warnings)
    /\ OnHeap.severityMap_load m severity h = Ret (Some bucket, h)
    /\ OnHeap.stringMaps h !! bucket = Some entries
    /\ view !! severity = Some entries.
Proof.
  intros (Hne & Hm & [es Hes] & [ws Hws] & Hother & He & Hw) [-> | ->].
  - exists errors, es. split_and!; [by left| |congruence|done].
    rewrite (severityMap_load_run _ _ _ _ Hm).
    by rewrite lookup_insert_ne, lookup_insert_eq.
  - exists warnings, ws. split_and!; [by right| |congruence|done].
    rewrite (severityMap_load_run _ _ _ _ Hm).
    by rewrite lookup_insert_eq.
Qed.

Lemma appendAtSeverity_run (h : OnHeap.Heap) (rtrn errors warnings : OnHeap.ref)
    (view : gmap Severity (gmap string (list nat))) (severity : Severity)
    (i j : nat) (p : Problem) :
  OnHeap.represents h rtrn errors warnings view ->
  severity = SeverityError \/ severity = SeverityWarning ->
  Problems (OnHeap.receiver h) !! i = Some p ->
  exists h',
    OnHeap.appendAtSeverity rtrn severity i j h = Ret ((), h')
    /\ OnHeap.receiver h' = OnHeap.receiver h
    /\ OnHeap.severityMaps h' = OnHeap.severityMaps h
    /\ OnHeap.represents h' rtrn errors warnings
         (appendAtSeverity severity (ID p) j view)
    /\ forall l, l <> errors -> l <> warnings ->
                 OnHeap.stringMaps h' !! l = OnHeap.stringMaps h !! l.
Proof.
  intros Hrep Hs Hp.
  destruct (represents_lookup h rtrn errors warnings view severity Hrep Hs)
    as (bucket & entries & Hwhich & Hload & Hbucket & Hview).
  destruct Hrep as (Hne & Hm & He' & Hw' & Hother & He & Hw).
  unfold OnHeap.appendAtSeverity.
  rewrite (prog_bind_run _ _ _ _ _ Hload).
  rewrite (prog_bind_run _ _ _ _ _ (load_Problem_run ID _ _ _ Hp)).
  rewrite (prog_bind_run _ _ _ _ _ Hload).
  rewrite (prog_bind_run _ _ _ _ _ (load_Problem_run ID _ _ _ Hp)).
  rewrite (prog_bind_run _ _ _ _ _ (stringMap_load_run _ _ _ _ Hbucket)).
  unfold OnHeap.stringMap_store. rewrite Hbucket.
  eexists. split; [reflexivity|]. simpl. split_and!; [done|done| |].
  - unfold OnHeap.represents, appendAtSeverity. simpl.
    destruct Hwhich as [[-> ->] | [-> ->]].
    + rewrite lookup_alter_eq, (lookup_alter_ne _ _ SeverityError SeverityWarning) by done.
      rewrite lookup_insert_eq, lookup_insert_ne by done.
      rewrite Hview. split_and!; [done|done|by eexists|done| |done|done].
      intros s Hs1 Hs2. rewrite lookup_alter_ne by done. by apply Hother.
    + rewrite lookup_alter_eq, (lookup_alter_ne _ _ SeverityWarning SeverityError) by done.
      rewrite lookup_insert_eq, lookup_insert_ne by done.
      rewrite Hview. split_and!; [done|done|done|by eexists| |done|done].
      intros s Hs1 Hs2. rewrite lookup_alter_ne by done. by apply Hother.
  - intros l Hl1 Hl2. apply lookup_insert_ne.
    destruct Hwhich as [[_ ->] | [_ ->]]; done.
Qed.

Lemma BySeverity_resource_run (h : OnHeap.Heap) (rtrn errors warnings : OnHeap.ref)
    (view : gmap Severity (gmap string (list nat))) (i j : nat)
    (p : Problem) (x : Resource) :
  OnHeap.represents h rtrn errors warnings view ->
  Problems (OnHeap.receiver h) !! i = Some p ->
  Resources (OnHeap.receiver h) !! j = Some x ->
  exists h',
    OnHeap.BySeverity_resource rtrn i j h = Ret ((), h')
    /\ OnHeap.receiver h' = OnHeap.receiver h
    /\ OnHeap.severityMaps h' = OnHeap.severityMaps h
    /\ OnHeap.represents h' rtrn errors warnings
         (if decide (ProblemID x = ID p)
          then
            if negb (Warning x)
            then appendAtSeverity SeverityError (ID p) j view
            else appendAtSeverity SeverityWarning (ID p) j view
          else view)
    /\ forall l, l <> errors -> l <> warnings ->
                 OnHeap.stringMaps h' !! l = OnHeap.stringMaps h !! l.
Proof.
  intros Hrep Hp Hx. unfold OnHeap.BySeverity_resource.
  rewrite (prog_bind_run _ _ _ _ _ (addr_Resources_run _ _ _ Hx)).
  rewrite (prog_bind_run _ _ _ _ _ (load_Resource_run ProblemID _ _ _ Hx)).
  rewrite (prog_bind_run _ _ _ _ _ (load_Problem_run ID _ _ _ Hp)).
  destruct (decide (ProblemID x = ID p)) as [Heq|Hne].
  - rewrite (prog_bind_run _ _ _ _ _ (load_Resource_run Warning _ _ _ Hx)).
    destruct (negb (Warning x)).
    + apply appendAtSeverity_run; [done|by left|done].
    + apply appendAtSeverity_run; [done|by right|done].
  - exists h. by split_and!.
Qed.

Lemma BySeverity_resources_run (rtrn errors warnings : OnHeap.ref) (i : nat)
    (p : Problem) (k : nat) :
  forall (j : nat) (h : OnHeap.Heap) (view : gmap Severity (gmap string (list nat))),
    OnHeap.represents h rtrn errors warnings view ->
    Problems (OnHeap.receiver h) !! i = Some p ->
    (j + k = length (Resources (OnHeap.receiver h)))%nat ->
    exists h',
      OnHeap.for_range (seq j k) (OnHeap.BySeverity_resource rtrn i) h = Ret ((), h')
      /\ OnHeap.receiver h' = OnHeap.receiver h
      /\ OnHeap.severityMaps h' = OnHeap.severityMaps h
      /\ OnHeap.represents h' rtrn errors warnings
           (BySeverity_resources p j (drop j (Resources (OnHeap.receiver h))) view)
      /\ forall l, l <> errors -> l <> warnings ->
                   OnHeap.stringMaps h' !! l = OnHeap.stringMaps h !! l.
Proof.
  induction k as [|k IH]; intros j h view Hrep Hp Hlen.
  - exists h. rewrite drop_ge by lia. by split_and!.
  - destruct (lookup_lt_is_Some_2 (Resources (OnHeap.receiver h)) j) as [x Hx];
      [lia|].
    destruct (BySeverity_resource_run h rtrn errors warnings view i j p x Hrep Hp Hx)
      as (h1 & Hrun & Hr1 & Hs1 & Hrep1 & Hf1).
    destruct (IH (S j) h1 _ Hrep1 ltac:(by rewrite Hr1) ltac:(rewrite Hr1; lia))
      as (h' & Hrun' & Hr' & Hs' & Hrep' & Hf').
    exists h'. cbn [seq OnHeap.for_range].
    rewrite (prog_bind_run _ _ _ _ _ Hrun), Hrun'.
    rewrite (drop_S _ _ _ Hx). cbn [BySeverity_resources].
    rewrite Hr1 in Hr', Hrep'.
    split_and!; [done|done|congruence|done|].
    intros l Hl1 Hl2. by rewrite Hf', Hf1.
Qed.

Lemma BySeverity_problem_run (h : OnHeap.Heap) (rtrn errors warnings : OnHeap.ref)
    (view : gmap Severity (gmap string (list nat))) (i : nat) (p : Problem) :
  OnHeap.represents h rtrn errors warnings view ->
  Problems (OnHeap.receiver h) !! i = Some p ->
  exists h',
    OnHeap.BySeverity_problem rtrn i h = Ret ((), h')
    /\ OnHeap.receiver h' = OnHeap.receiver h
    /\ OnHeap.severityMaps h' = OnHeap.severityMaps h
    /\ OnHeap.represents h' rtrn errors warnings
         (BySeverity_resources p 0 (Resources (OnHeap.receiver h)) view)
    /\ forall l, l <> errors -> l <> warnings ->
                 OnHeap.stringMaps h' !! l = OnHeap.stringMaps h !! l.
Proof.
  intros Hrep Hp. unfold OnHeap.BySeverity_problem.
  rewrite (prog_bind_run _ _ _ _ _ (addr_Problems_run _ _ _ Hp)).
  rewrite (prog_bind_run OnHeap.len_Resources _ h h _ eq_refl).
  apply (BySeverity_resources_run rtrn errors warnings i p _ 0%nat h view Hrep Hp).
  lia.
Qed.

Lemma BySeverity_problems_run (rtrn errors warnings : OnHeap.ref) (n : nat) :
  forall (i : nat) (h : OnHeap.Heap) (view : gmap Severity (gmap string (list nat))),
    OnHeap.represents h rtrn errors warnings view ->
    (i + n = length (Problems (OnHeap.receiver h)))%nat ->
    exists h',
      OnHeap.for_range (seq i n) (OnHeap.BySeverity_problem rtrn) h = Ret ((), h')
      /\ OnHeap.receiver h' = OnHeap.receiver h
      /\ OnHeap.severityMaps h' = OnHeap.severityMaps h
      /\ OnHeap.represents h' rtrn errors warnings
           (BySeverity_problems (drop i (Problems (OnHeap.receiver h)))
              (Resources (OnHeap.receiver h)) view)
      /\ forall l, l <> errors -> l <> warnings ->
                   OnHeap.stringMaps h' !! l = OnHeap.stringMaps h !! l.
Proof.
  induction n as [|n IH]; intros i h view Hrep Hlen.
  - exists h. rewrite drop_ge by lia. by split_and!.
  - destruct (lookup_lt_is_Some_2 (Problems (OnHeap.receiver h)) i) as [p Hp];
      [lia|].
    destruct (BySeverity_problem_run h rtrn errors warnings view i p Hrep Hp)
      as (h1 & Hrun & Hr1 & Hs1 & Hrep1 & Hf1).
    destruct (IH (S i) h1 _ Hrep1 ltac:(rewrite Hr1; lia))
      as (h' & Hrun' & Hr' & Hs' & Hrep' & Hf').
    exists h'. cbn [seq OnHeap.for_range].
    rewrite (prog_bind_run _ _ _ _ _ Hrun), Hrun'.
    rewrite (drop_S _ _ _ Hp). cbn [BySeverity_problems].
    rewrite Hr1 in Hr', Hrep'.
    split_and!; [done|done|congruence|done|].
    intros l Hl1 Hl2. by rewrite Hf', Hf1.
Qed.

(** What a heap that [represents] a view holds at the reference is the
    view itself. *)
Lemma represents_severityMap_of (h : OnHeap.Heap) (m errors warnings : OnHeap.ref)
    (view : gmap Severity (gmap string (list nat))) :
  OnHeap.represents h m errors warnings view ->
  OnHeap.severityMap_of h m = Some view.
Proof.
  intros (Hne & Hm & [es Hes] & [ws Hws] & Hother & He & Hw).
  unfold OnHeap.severityMap_of. rewrite Hm. f_equal.
  apply map_eq. intros s. rewrite lookup_omap.
  destruct (decide (s = SeverityWarning)) as [->|Hs1].
  { rewrite lookup_insert_eq. simpl. done. }
  rewrite lookup_insert_ne by done.
  destruct (decide (s = SeverityError)) as [->|Hs2].
  { rewrite lookup_insert_eq. simpl. done. }
  rewrite lookup_insert_ne, lookup_empty by done. simpl.
  symmetry. by apply Hother.
Qed.

(** A call of [BySeverity] makes one severity map and two buckets, all
    new, fills them as [BySeverity] of the receiver's report says, and
    writes nothing else. *)
Lemma OnHeap_BySeverity_run (h : OnHeap.Heap) :
  exists m errors warnings h',
    OnHeap.BySeverity h = Ret (m, h')
    /\ OnHeap.severityMaps h !! m = None
    /\ OnHeap.stringMaps h !! errors = None
    /\ OnHeap.stringMaps h !! warnings = None
    /\ OnHeap.receiver h' = OnHeap.receiver h
    /\ OnHeap.represents h' m errors warnings (BySeverity (OnHeap.receiver h))
    /\ (forall l, l <> m -> OnHeap.severityMaps h' !! l = OnHeap.severityMaps h !! l)
    /\ (forall l, l <> errors -> l <> warnings ->
                  OnHeap.stringMaps h' !! l = OnHeap.stringMaps h !! l).
Proof.
  set (m := fresh (dom (OnHeap.severityMaps h))).
  set (e := fresh (dom (OnHeap.stringMaps h))).
  set (w := fresh (dom (<[e := ∅]> (OnHeap.stringMaps h)))).
  set (h0 := {| OnHeap.receiver := OnHeap.receiver h;
                OnHeap.stringMaps := <[w := ∅]> (<[e := ∅]> (OnHeap.stringMaps h));
                OnHeap.severityMaps :=
                  <[m := <[SeverityWarning := w]> (<[SeverityError := e]> ∅)]>
                    (OnHeap.severityMaps h) |}).
  assert (Hm : OnHeap.severityMaps h !! m = None)
    by apply not_elem_of_dom, is_fresh.
  assert (He : OnHeap.stringMaps h !! e = None)
    by apply not_elem_of_dom, is_fresh.
  assert (Hw : (<[e := ∅]> (OnHeap.stringMaps h)) !! w = None)
    by apply not_elem_of_dom, is_fresh.
  assert (Hew : e <> w).
  { intros Heq. rewrite <- Heq, lookup_insert_eq in Hw. discriminate. }
  assert (Hw' : OnHeap.stringMaps h !! w = None).
  { by rewrite lookup_insert_ne in Hw. }
  assert (Hrun0 : OnHeap.BySeverity h =
            (n ← OnHeap.len_Problems;
             _ ← OnHeap.for_range (seq 0 n) (OnHeap.BySeverity_problem m);
             mret m) h0).
  { unfold OnHeap.BySeverity, mbind, OnHeap.prog_bind at 1 2 3 4 5.
    unfold OnHeap.make_severityMap, OnHeap.make_stringMap,
      OnHeap.severityMap_store.
    cbn [OnHeap.receiver OnHeap.stringMaps OnHeap.severityMaps].
    rewrite lookup_insert_eq.
    cbn [OnHeap.receiver OnHeap.stringMaps OnHeap.severityMaps].
    rewrite lookup_insert_eq.
    cbn [OnHeap.receiver OnHeap.stringMaps OnHeap.severityMaps].
    by rewrite !insert_insert_eq. }
  assert (Hrep0 : OnHeap.represents h0 m e w
                    (<[SeverityWarning := ∅]> (<[SeverityError := ∅]> ∅))).
  { unfold OnHeap.represents, h0. simpl. split_and!.
    - done.
    - by rewrite lookup_insert_eq.
    - by rewrite lookup_insert_ne, lookup_insert_eq.
    - by rewrite lookup_insert_eq.
    - intros s Hs1 Hs2. by rewrite !lookup_insert_ne, lookup_empty.
    - by rewrite (lookup_insert_ne _ w e), !lookup_insert_eq,
        (lookup_insert_ne _ SeverityWarning SeverityError), lookup_insert_eq.
    - by rewrite !lookup_insert_eq. }
  destruct (BySeverity_problems_run m e w (length (Problems (OnHeap.receiver h0)))
              0%nat h0 _ Hrep0 ltac:(lia))
    as (h' & Hrun & Hr & Hs & Hrep & Hf).
  exists m, e, w, h'. rewrite Hrun0.
  rewrite (prog_bind_run OnHeap.len_Problems _ h0 h0 _ eq_refl).
  rewrite (prog_bind_run _ _ _ _ _ Hrun).
  split_and!; [done..| |].
  - intros l Hl. rewrite Hs. unfold h0. simpl. by rewrite lookup_insert_ne.
  - intros l Hl1 Hl2. rewrite Hf by done. unfold h0. simpl.
    by rewrite !lookup_insert_ne.
Qed.

Lemma represents_frame (h h' : OnHeap.Heap) (m errors warnings : OnHeap.ref)
    (view : gmap Severity (gmap string (list nat))) :
  OnHeap.represents h m errors warnings view ->
  OnHeap.severityMaps h' !! m = OnHeap.severityMaps h !! m ->
  OnHeap.stringMaps h' !! errors = OnHeap.stringMaps h !! errors ->
  OnHeap.stringMaps h' !! warnings = OnHeap.stringMaps h !! warnings ->
  OnHeap.represents h' m errors warnings view.
Proof.
  intros (Hne & Hm & Hes & Hws & Hother & He & Hw) Hm' He' Hw'.
  unfold OnHeap.represents. rewrite Hm', He', Hw'. by split_and!.
Qed.

(** C9: on a heap holding any report and any maps, a call of [ByProblem]
    returns, and so does a second call on the heap that the first one
    left.  The maps returned by the two calls have the same contents, the
    [ByProblem] of the report; the second call does not disturb the map
    returned by the first; and the report is the same after each call as
    before the first.  The same holds of [BySeverity].  [BySeverity] always
    has a bucket for each of the two severities, and the bucket of a
    severity that no record has is the empty map. *)
Theorem indices_idempotent (h : OnHeap.Heap) :
  (exists m1 h1 m2 h2,
      OnHeap.ByProblem h = Ret (m1, h1)
      /\ OnHeap.ByProblem h1 = Ret (m2, h2)
      /\ OnHeap.stringMap_of h1 m1 = Some (ByProblem (OnHeap.receiver h))
      /\ OnHeap.stringMap_of h2 m2 = Some (ByProblem (OnHeap.receiver h))
      /\ OnHeap.stringMap_of h2 m1 = Some (ByProblem (OnHeap.receiver h))
      /\ OnHeap.receiver h1 = OnHeap.receiver h
      /\ OnHeap.receiver h2 = OnHeap.receiver h)
  /\ (exists m1 h1 m2 h2,
      OnHeap.BySeverity h = Ret (m1, h1)
      /\ OnHeap.BySeverity h1 = Ret (m2, h2)
      /\ OnHeap.severityMap_of h1 m1 = Some (BySeverity (OnHeap.receiver h))
      /\ OnHeap.severityMap_of h2 m2 = Some (BySeverity (OnHeap.receiver h))
      /\ OnHeap.severityMap_of h2 m1 = Some (BySeverity (OnHeap.receiver h))
      /\ OnHeap.receiver h1 = OnHeap.receiver h
      /\ OnHeap.receiver h2 = OnHeap.receiver h)
  /\ is_Some (BySeverity (OnHeap.receiver h) !! SeverityError)
  /\ is_Some (BySeverity (OnHeap.receiver h) !! SeverityWarning)
  /\ (forall severity,
         severity = SeverityError \/ severity = SeverityWarning ->
         Forall (fun x => severityOf x <> severity)
           (Resources (OnHeap.receiver h)) ->
         BySeverity (OnHeap.receiver h) !! severity = Some ∅).
Proof.
  split_and!.
  - destruct (OnHeap_ByProblem_run h)
      as (m1 & h1 & Hrun1 & _ & Hr1 & _ & Hm1 & _).
    destruct (OnHeap_ByProblem_run h1)
      as (m2 & h2 & Hrun2 & Hnew & Hr2 & _ & Hm2 & Hf2).
    rewrite Hr1 in Hm2.
    exists m1, h1, m2, h2. unfold OnHeap.stringMap_of.
    split_and!; [done|done|done|done| |done|congruence].
    rewrite Hf2; [done|]. intros ->. congruence.
  - destruct (OnHeap_BySeverity_run h)
      as (m1 & e1 & w1 & h1 & Hrun1 & _ & _ & _ & Hr1 & Hrep1 & _ & _).
    destruct (OnHeap_BySeverity_run h1)
      as (m2 & e2 & w2 & h2 & Hrun2 & Hm2 & He2 & Hw2 & Hr2 & Hrep2 & Hfs & Hfm).
    rewrite Hr1 in Hrep2.
    exists m1, h1, m2, h2.
    split_and!; [done|done| | | |done|congruence].
    + by apply (represents_severityMap_of h1 m1 e1 w1).
    + by apply (represents_severityMap_of h2 m2 e2 w2).
    + apply (represents_severityMap_of h2 m1 e1 w1).
      pose proof Hrep1
        as (_ & Hm1 & [es Hes] & [ws Hws] & _ & He1 & Hw1).
      apply (represents_frame h1); [done| | |].
      * apply Hfs. intros ->. congruence.
      * apply Hfm; intros ->; congruence.
      * apply Hfm; intros ->; congruence.
  - rewrite BySeverity_lookup_general by (by left). by eexists.
  - rewrite BySeverity_lookup_general by (by right). by eexists.
  - intros severity Hs Hall. rewrite BySeverity_lookup_general by done.
    rewrite appendProblems_nil; [done|].
    eapply Forall_impl; [exact Hall|]. intros x Hx id. simpl in Hx.
    unfold hasProblemAndSeverity, hasSeverity.
    rewrite (bool_decide_eq_false_2 _ Hx). apply andb_false_r.
Qed.

Lemma indices_idempotent_witness :
  (exists m1 h1 m2 h2,
      OnHeap.ByProblem
        {| OnHeap.receiver := ReportFromResources Samples.records;
           OnHeap.stringMaps := ∅; OnHeap.severityMaps := ∅ |} = Ret (m1, h1)
      /\ OnHeap.ByProblem h1 = Ret (m2, h2)
      /\ OnHeap.stringMap_of h1 m1
         = Some (ByProblem (ReportFromResources Samples.records))
      /\ OnHeap.stringMap_of h2 m2
         = Some (ByProblem (ReportFromResources Samples.records))
      /\ OnHeap.stringMap_of h2 m1
         = Some (ByProblem (ReportFromResources Samples.records))
      /\ OnHeap.receiver h1 = ReportFromResources Samples.records
      /\ OnHeap.receiver h2 = ReportFromResources Samples.records)
  /\ BySeverity (ReportFromResources [Samples.record "PodNotReady" false])
       !! SeverityWarning = Some ∅.
Proof.
  split.
  - apply (proj1 (indices_idempotent
                    {| OnHeap.receiver := ReportFromResources Samples.records;
                       OnHeap.stringMaps := ∅; OnHeap.severityMaps := ∅ |})).
  - apply (proj2 (proj2 (proj2 (proj2
             (indices_idempotent
                {| OnHeap.receiver :=
                     ReportFromResources [Samples.record "PodNotReady" false];
                   OnHeap.stringMaps := ∅; OnHeap.severityMaps := ∅ |}))))).
    + by right.
    + repeat constructor. by vm_compute.
Defined.

(** ** Records that do not resolve *)

(** C10: a record whose problem ID has no catalog entry stays in the
    report's [Resources], no listed problem has its ID, and no bucket of
    [ByProblem] or of [BySeverity] points to it. *)
Theorem unresolved_record_in_no_bucket (resources : list Resource) (j : nat)
    (x : Resource) :
  resources !! j = Some x ->
  ~ resolves (ProblemID x) ->
  Resources (ReportFromResources resources) !! j = Some x
  /\ (forall p, p ∈ Problems (ReportFromResources resources) ->
                ID p <> ProblemID x)
  /\ (forall id pointers,
         ByProblem (ReportFromResources resources) !! id = Some pointers ->
         j ∉ pointers)
  /\ (forall severity m id pointers,
         BySeverity (ReportFromResources resources) !! severity = Some m ->
         m !! id = Some pointers ->
         j ∉ pointers).
Proof.
  intros Hj Hres. split_and!.
  - done.
  - intros p Hp Hid. apply Hres.
    apply (ReportFromResources_elem_ID resources). rewrite <- Hid.
    apply list_elem_of_fmap. by exists p.
  - intros id pointers. rewrite ByProblem_closed.
    intros [Hid ->]%report_index_lookup_Some; [|apply hasProblem_ID].
    intros (r & Hr & HQ%hasProblem_ID)%elem_of_indices_where_0.
    apply Hres. congruence.
  - intros severity m id pointers [_ ->]%BySeverity_lookup_Some.
    intros [Hid ->]%report_index_lookup_Some; [|apply hasProblemAndSeverity_ID].
    intros (r & Hr & HQ%hasProblemAndSeverity_ID)%elem_of_indices_where_0.
    apply Hres. congruence.
Qed.

Lemma unresolved_record_in_no_bucket_witness :
  Resources (ReportFromResources Samples.records) !! 1%nat
    = Some (Samples.record "Unknown" false)
  /\ (forall p, p ∈ Problems (ReportFromResources Samples.records) ->
                ID p <> "Unknown")
  /\ (forall id pointers,
         ByProblem (ReportFromResources Samples.records) !! id = Some pointers ->
         1%nat ∉ pointers)
  /\ (forall severity m id pointers,
         BySeverity (ReportFromResources Samples.records) !! severity = Some m ->
         m !! id = Some pointers ->
         1%nat ∉ pointers).
Proof.
  apply (unresolved_record_in_no_bucket Samples.records 1
           (Samples.record "Unknown" false)).
  - reflexivity.
  - unfold resolves. vm_compute. by intros [? ?].
Defined.

(** ** The outcome of a run *)

(** C8: once both listings have succeeded, a scan that yields no record
    makes [Run] print the all-clear line and return nil, which ends the
    process with status 0; a scan that yields at least one record makes
    [Run] render the report and call [os.Exit(1)]. *)
Theorem Run_exit_status (o : Options) (k : KubeClient)
    (pods : list corev1.Pod) (hpas : list v1.HorizontalPodAutoscaler) :
  ListPods k = inr pods ->
  ListHPAs k = inr hpas ->
  (scan o pods hpas = Ret [] ->
   Run o (inr k) = {| stdout := [Checking; Done; EverythingLooksGood];
                      termination := Returned None |}
   /\ exitStatus (termination (Run o (inr k))) = Some 0)
  /\ (forall resourceProblems,
         scan o pods hpas = Ret resourceProblems ->
         resourceProblems <> [] ->
         Run o (inr k) =
           {| stdout := [Checking; Done]
                        ++ render (ReportFromResources resourceProblems);
              termination := Exited 1 |}
         /\ exitStatus (termination (Run o (inr k))) = Some 1).
Proof.
  intros Hpods Hhpas. unfold Run. rewrite Hpods, Hhpas. split.
  - intros ->. by rewrite decide_True.
  - intros rs -> Hne. rewrite decide_False; [done|].
    by destruct rs.
Qed.

Lemma Run_exit_status_witness :
  (Run Samples.threshold3
     (inr {| ListPods := inr [Samples.pod "web" [Samples.container "c" 1]];
             ListHPAs := inr [Samples.hpa "web" 9 10] |}) =
     {| stdout := [Checking; Done; EverythingLooksGood];
        termination := Returned None |}
   /\ exitStatus (termination
        (Run Samples.threshold3
           (inr {| ListPods := inr [Samples.pod "web" [Samples.container "c" 1]];
                   ListHPAs := inr [Samples.hpa "web" 9 10] |}))) = Some 0)
  /\ exitStatus (termination
       (Run Samples.threshold3
          (inr {| ListPods := inr [Samples.pod "web" [Samples.container "c" 5]];
                  ListHPAs := inr [Samples.hpa "web" 10 10] |}))) = Some 1.
Proof.
  split.
  - apply (proj1 (Run_exit_status Samples.threshold3
             {| ListPods := inr [Samples.pod "web" [Samples.container "c" 1]];
                ListHPAs := inr [Samples.hpa "web" 9 10] |}
             [Samples.pod "web" [Samples.container "c" 1]]
             [Samples.hpa "web" 9 10] eq_refl eq_refl)).
    reflexivity.
  - eapply (proj2 (Run_exit_status Samples.threshold3
             {| ListPods := inr [Samples.pod "web" [Samples.container "c" 5]];
                ListHPAs := inr [Samples.hpa "web" 10 10] |}
             [Samples.pod "web" [Samples.container "c" 5]]
             [Samples.hpa "web" 10 10] eq_refl eq_refl)).
    + reflexivity.
    + discriminate.
Defined.

(** A failed listing makes [Run] return the wrapped error before anything
    is scanned or printed. *)
Lemma Run_acquisition_errors (o : Options) (k : KubeClient) (err : string) :
  Run o (inl err) =
    {| stdout := [];
       termination := Returned (Some
         ("failed to get kubernetes client (is the devenv running?): " +:+ err)) |}
  /\ (ListPods k = inl err ->
      Run o (inr k) =
        {| stdout := [];
           termination := Returned (Some ("failed to list pods: " +:+ err)) |}).
Proof.
  split; [done|]. intros Hpods. unfold Run. by rewrite Hpods.
Qed.

(** * Further properties of the detectors *)

(** A loop whose body never panics returns at the first element on which
    the body returns, and falls through when there is none. *)
Lemma range_return_ret {A R : Type} (h : A -> option R)
    (body : A -> result (option R)) (l : list A) :
  (forall x, body x = Ret (h x)) ->
  (Forall (fun x => h x = None) l /\ range_return l body = Ret None)
  \/ exists pre x post v,
      l = pre ++ x :: post
      /\ Forall (fun y => h y = None) pre
      /\ h x = Some v
      /\ range_return l body = Ret (Some v).
Proof.
  intros Hbody.
  destruct (first_split (fun x => bool_decide (is_Some (h x))) l)
    as [Hnone|(pre & x & post & -> & Hpre & Hx)].
  - assert (Hall : Forall (fun x => h x = None) l).
    { eapply Forall_impl; [exact Hnone|]. intros x Hx. simpl in Hx.
      apply bool_decide_eq_false in Hx. by apply eq_None_not_Some. }
    left. split; [done|]. apply range_return_none.
    eapply Forall_impl; [exact Hall|]. intros x Hx. simpl in Hx.
    by rewrite Hbody, Hx.
  - assert (Hall : Forall (fun y => h y = None) pre).
    { eapply Forall_impl; [exact Hpre|]. intros y Hy. simpl in Hy.
      apply bool_decide_eq_false in Hy. by apply eq_None_not_Some. }
    apply bool_decide_eq_true in Hx as [v Hv].
    right. exists pre, x, post, v. split_and!; [done..|].
    rewrite range_return_first.
    + by rewrite Hbody, Hv.
    + eapply Forall_impl; [exact Hall|]. intros y Hy. simpl in Hy.
      by rewrite Hbody, Hy.
Qed.

(** ** PodNotReady *)

(** X1. The PodNotReady detector never panics on a pod. It reports a pod
    exactly when the pod's phase is Running and some container is not ready; the
    detection is then an error that names the first container that is not
    ready. Init containers play no part. *)
Theorem PodNotReady_detector (pod : corev1.Pod) (cfg : option Config) :
  exists d,
    Detector ProblemPodNotReady (ObjPod pod) cfg = Ret d
    /\ (isOccurring d = true <->
        corev1.Phase (corev1.Status pod) = corev1.PodRunning
        /\ exists cs, cs ∈ corev1.ContainerStatuses (corev1.Status pod)
                      /\ corev1.Ready cs = false)
    /\ (isOccurring d = true ->
        warning d = false
        /\ exists pre cs post,
            corev1.ContainerStatuses (corev1.Status pod) = pre ++ cs :: post
            /\ Forall (fun y => corev1.Ready y = true) pre
            /\ corev1.Ready cs = false
            /\ reason d = "Container " +:+ corev1.cs_Name cs +:+ " is not ready").
Proof.
  simpl.
  destruct (decide (corev1.Phase (corev1.Status pod) = corev1.PodRunning))
    as [Hrun|Hrun].
  2: { rewrite bool_decide_eq_true_2 by done. exists no_problem.
       split_and!; [done| |done]. split; [done|]. by intros [? _]. }
  rewrite bool_decide_eq_false_2 by (by intros ?).
  destruct (range_return_ret
              (fun cs => if negb (corev1.Ready cs)
                         then Some ("Container " +:+ corev1.cs_Name cs +:+
                                    " is not ready", false, true)
                         else None)
              (fun cs => if negb (corev1.Ready cs)
                         then Ret (Some ("Container " +:+ corev1.cs_Name cs +:+
                                         " is not ready", false, true))
                         else Ret None)
              (corev1.ContainerStatuses (corev1.Status pod)))
    as [[Hall ->]|(pre & cs & post & v & Hl & Hpre & Hcs & ->)].
  { intros cs. by destruct (negb _). }
  - exists no_problem. split_and!; [done| |done]. split; [done|].
    intros (_ & cs & Hin & Hcs). rewrite Forall_forall in Hall.
    specialize (Hall _ Hin). simpl in Hall. by rewrite Hcs in Hall.
  - exists v. destruct (corev1.Ready cs) eqn:Hready; [done|].
    simpl in Hcs. injection Hcs as <-. split_and!; [done| |].
    + split; [intros _|done]. split; [done|]. exists cs. split; [|done].
      rewrite Hl. set_solver.
    + intros _. split; [done|]. exists pre, cs, post. split_and!; [done| |done..].
      eapply Forall_impl; [exact Hpre|]. intros y Hy. simpl in Hy.
      by destruct (corev1.Ready y).
Qed.

(** ** PodImagePullBackOff *)

Lemma isImagePullBackOff_true (cs : corev1.ContainerStatus) :
  isImagePullBackOff cs = true <->
  exists w, corev1.Waiting (corev1.State cs) = Some w
            /\ (corev1.w_Reason w = "ImagePullBackOff"
                \/ corev1.w_Reason w = "ErrImagePull").
Proof.
  unfold isImagePullBackOff. destruct (corev1.Waiting (corev1.State cs)) as [w|].
  - rewrite orb_true_iff, !bool_decide_eq_true. split.
    + intros Hw. by exists w.
    + by intros (w' & [= <-] & Hw).
  - split; [done|]. by intros (w & Hw & _).
Qed.

Lemma findContainer_None (sl : list corev1.Container) (name : string) :
  name ∉ map corev1.c_Name sl -> findContainer sl name = None.
Proof.
  induction sl as [|c sl IH]; simpl; [done|]. intros Hn.
  apply not_elem_of_cons in Hn as [Hne Hn].
  rewrite bool_decide_eq_false_2 by congruence. by apply IH.
Qed.

Lemma findContainer_first (pre post : list corev1.Container)
    (c : corev1.Container) (name : string) :
  name ∉ map corev1.c_Name pre -> corev1.c_Name c = name ->
  findContainer (pre ++ c :: post) name = Some c.
Proof.
  intros Hpre Hc. induction pre as [|c' pre IH]; simpl.
  - by rewrite bool_decide_eq_true_2.
  - simpl in Hpre. apply not_elem_of_cons in Hpre as [Hne Hpre].
    rewrite bool_decide_eq_false_2 by congruence. by apply IH.
Qed.

(** X2. The image reported for a container status is the image of the first
    container of the pod's spec with the same name, searched among the init
    containers for an init container and among the regular ones otherwise;
    it is "unknown" when the spec has no container of that name. *)
Theorem getImageForContainerStatus_spec (pod : corev1.Pod) (isInitContainer : bool)
    (cs : corev1.ContainerStatus) (sl : list corev1.Container) :
  sl = (if isInitContainer then corev1.InitContainers (corev1.Spec pod)
        else corev1.Containers (corev1.Spec pod)) ->
  (corev1.cs_Name cs ∉ map corev1.c_Name sl ->
   getImageForContainerStatus pod isInitContainer cs = "unknown")
  /\ (forall pre c post,
         sl = pre ++ c :: post ->
         corev1.cs_Name cs ∉ map corev1.c_Name pre ->
         corev1.c_Name c = corev1.cs_Name cs ->
         getImageForContainerStatus pod isInitContainer cs = corev1.Image c).
Proof.
  intros Hsl. unfold getImageForContainerStatus. rewrite <- Hsl. split.
  - intros Hn. by rewrite findContainer_None.
  - intros pre c post -> Hpre Hc. by rewrite findContainer_first.
Qed.

Lemma getImageForContainerStatus_spec_witness :
  getImageForContainerStatus MoreSamples.webPod false (Samples.container "ghost" 0)
    = "unknown"
  /\ getImageForContainerStatus MoreSamples.webPod false (Samples.container "app" 0)
     = "registry/app:1"
  /\ getImageForContainerStatus MoreSamples.webPod true (Samples.container "app" 0)
     = "unknown".
Proof.
  split_and!.
  - apply (proj1 (getImageForContainerStatus_spec MoreSamples.webPod false
                    (Samples.container "ghost" 0) _ eq_refl)).
    apply (bool_decide_unpack _). by vm_compute.
  - apply (proj2 (getImageForContainerStatus_spec MoreSamples.webPod false
                    (Samples.container "app" 0) _ eq_refl)
             [ {| corev1.c_Name := "proxy"; corev1.Image := "registry/proxy:2" |} ]
             {| corev1.c_Name := "app"; corev1.Image := "registry/app:1" |}
             [ {| corev1.c_Name := "app"; corev1.Image := "registry/app:old" |} ]).
    + reflexivity.
    + apply (bool_decide_unpack _). by vm_compute.
    + reflexivity.
  - apply (proj1 (getImageForContainerStatus_spec MoreSamples.webPod true
                    (Samples.container "app" 0) _ eq_refl)).
    apply (bool_decide_unpack _). by vm_compute.
Defined.

(** X3. The PodImagePullBackOff detector never panics on a pod. It reports
    the first container, regular ones before init containers, that waits with reason
    ImagePullBackOff or ErrImagePull, as an error whose detail holds the
    container's name and its image as resolved from the pod's spec (among
    the init containers for an init container); it reports nothing when
    there is no such container. *)
Theorem PodImagePullBackOff_detector (pod : corev1.Pod) (cfg : option Config) :
  (forall pre cs post,
      corev1.ContainerStatuses (corev1.Status pod) = pre ++ cs :: post ->
      Forall (fun y => isImagePullBackOff y = false) pre ->
      isImagePullBackOff cs = true ->
      Detector ProblemPodImagePullBackOff (ObjPod pod) cfg =
        Ret (imagePull_detail cs (getImageForContainerStatus pod false cs),
             false, true))
  /\ (forall pre cs post,
         Forall (fun y => isImagePullBackOff y = false)
           (corev1.ContainerStatuses (corev1.Status pod)) ->
         corev1.InitContainerStatuses (corev1.Status pod) = pre ++ cs :: post ->
         Forall (fun y => isImagePullBackOff y = false) pre ->
         isImagePullBackOff cs = true ->
         Detector ProblemPodImagePullBackOff (ObjPod pod) cfg =
           Ret (imagePull_detail cs (getImageForContainerStatus pod true cs),
                false, true))
  /\ (exists d,
         Detector ProblemPodImagePullBackOff (ObjPod pod) cfg = Ret d
         /\ (isOccurring d = true <->
             exists cs, cs ∈ corev1.ContainerStatuses (corev1.Status pod)
                               ++ corev1.InitContainerStatuses (corev1.Status pod)
                        /\ isImagePullBackOff cs = true)
         /\ (isOccurring d = true -> warning d = false)).
Proof.
  assert (Hquiet : forall (b : bool) (l : list corev1.ContainerStatus),
             Forall (fun y => isImagePullBackOff y = false) l ->
             Forall (fun cs =>
               (let imageName := getImageForContainerStatus pod b cs in
                if isImagePullBackOff cs
                then Ret (Some (imagePull_detail cs imageName, false, true))
                else Ret None) = Ret None) l).
  { intros b l Hl. eapply Forall_impl; [exact Hl|]. intros y Hy.
    simpl in *. by rewrite Hy. }
  assert (H1 : forall pre cs post,
      corev1.ContainerStatuses (corev1.Status pod) = pre ++ cs :: post ->
      Forall (fun y => isImagePullBackOff y = false) pre ->
      isImagePullBackOff cs = true ->
      Detector ProblemPodImagePullBackOff (ObjPod pod) cfg =
        Ret (imagePull_detail cs (getImageForContainerStatus pod false cs),
             false, true)).
  { intros pre cs post Hl Hpre Hcs. simpl.
    rewrite Hl, range_return_first by apply (Hquiet false), Hpre.
    by rewrite Hcs. }
  assert (H2 : forall pre cs post,
      Forall (fun y => isImagePullBackOff y = false)
        (corev1.ContainerStatuses (corev1.Status pod)) ->
      corev1.InitContainerStatuses (corev1.Status pod) = pre ++ cs :: post ->
      Forall (fun y => isImagePullBackOff y = false) pre ->
      isImagePullBackOff cs = true ->
      Detector ProblemPodImagePullBackOff (ObjPod pod) cfg =
        Ret (imagePull_detail cs (getImageForContainerStatus pod true cs),
             false, true)).
  { intros pre cs post Hreg Hl Hpre Hcs. simpl.
    rewrite (range_return_none (corev1.ContainerStatuses (corev1.Status pod)))
      by apply (Hquiet false), Hreg. simpl.
    rewrite Hl, range_return_first by apply (Hquiet true), Hpre.
    by rewrite Hcs. }
  split_and!; [exact H1|exact H2|].
  destruct (first_split isImagePullBackOff
              (corev1.ContainerStatuses (corev1.Status pod)))
    as [Hreg|(pre & cs & post & Hl & Hpre & Hcs)].
  2: { eexists. split; [by apply (H1 pre cs post)|]. split; [|done].
       split; [intros _|done]. exists cs. split; [|done].
       rewrite Hl. set_solver. }
  destruct (first_split isImagePullBackOff
              (corev1.InitContainerStatuses (corev1.Status pod)))
    as [Hinit|(pre & cs & post & Hl & Hpre & Hcs)].
  2: { eexists. split; [by apply (H2 pre cs post)|]. split; [|done].
       split; [intros _|done]. exists cs. split; [|done].
       rewrite Hl. set_solver. }
  exists no_problem. split_and!; [|split; [done|]|done].
  - simpl. rewrite (range_return_none (corev1.ContainerStatuses (corev1.Status pod)))
      by apply (Hquiet false), Hreg. simpl.
    by rewrite range_return_none by apply (Hquiet true), Hinit.
  - intros (cs & Hin & Hcs). apply elem_of_app in Hin as [Hin|Hin].
    + rewrite Forall_forall in Hreg. specialize (Hreg _ Hin). simpl in Hreg.
      congruence.
    + rewrite Forall_forall in Hinit. specialize (Hinit _ Hin). simpl in Hinit.
      congruence.
Qed.

Lemma PodImagePullBackOff_detector_witness :
  Detector ProblemPodImagePullBackOff (ObjPod MoreSamples.pullRegular) None =
    Ret ("Container app is failing to pull its image (registry/app:1)", false, true)
  /\ Detector ProblemPodImagePullBackOff (ObjPod MoreSamples.pullInit) None =
       Ret ("Container setup is failing to pull its image (unknown)", false, true).
Proof.
  split.
  - refine (eq_trans
              (proj1 (PodImagePullBackOff_detector MoreSamples.pullRegular None)
                 [Samples.container "proxy" 0]
                 (MoreSamples.waitingContainer "app" "ErrImagePull" "pull failed")
                 [] _ _ _) _).
    + reflexivity.
    + by repeat constructor.
    + reflexivity.
    + reflexivity.
  - refine (eq_trans
              (proj1 (proj2 (PodImagePullBackOff_detector MoreSamples.pullInit None))
                 [] (MoreSamples.waitingContainer "setup" "ImagePullBackOff" "") []
                 _ _ _ _) _).
    + by repeat constructor.
    + reflexivity.
    + constructor.
    + reflexivity.
    + reflexivity.
Defined.

(** ** PodPending *)

(** X4. The PodPending detector never panics on a pod. For a pod whose
    phase is not Pending it reports nothing. For a pending pod it reports the first
    container that has a waiting state, regular containers before init
    containers, as an error whose detail holds the container's name and
    the waiting message; it reports nothing when no container waits. *)
Theorem PodPending_detector (pod : corev1.Pod) (cfg : option Config) :
  (corev1.Phase (corev1.Status pod) <> corev1.PodPending ->
   Detector ProblemPodPending (ObjPod pod) cfg = Ret ("", false, false))
  /\ (forall pre cs post w,
         corev1.Phase (corev1.Status pod) = corev1.PodPending ->
         corev1.ContainerStatuses (corev1.Status pod) = pre ++ cs :: post ->
         Forall (fun y => corev1.Waiting (corev1.State y) = None) pre ->
         corev1.Waiting (corev1.State cs) = Some w ->
         Detector ProblemPodPending (ObjPod pod) cfg =
           Ret ("Container " +:+ corev1.cs_Name cs +:+ " is pending: " +:+
                corev1.w_Message w, false, true))
  /\ (forall pre cs post w,
         corev1.Phase (corev1.Status pod) = corev1.PodPending ->
         Forall (fun y => corev1.Waiting (corev1.State y) = None)
           (corev1.ContainerStatuses (corev1.Status pod)) ->
         corev1.InitContainerStatuses (corev1.Status pod) = pre ++ cs :: post ->
         Forall (fun y => corev1.Waiting (corev1.State y) = None) pre ->
         corev1.Waiting (corev1.State cs) = Some w ->
         Detector ProblemPodPending (ObjPod pod) cfg =
           Ret ("Init container " +:+ corev1.cs_Name cs +:+ " is pending: " +:+
                corev1.w_Message w, false, true))
  /\ (exists d,
         Detector ProblemPodPending (ObjPod pod) cfg = Ret d
         /\ (isOccurring d = true <->
             corev1.Phase (corev1.Status pod) = corev1.PodPending
             /\ exists cs, cs ∈ corev1.ContainerStatuses (corev1.Status pod)
                                 ++ corev1.InitContainerStatuses (corev1.Status pod)
                           /\ is_Some (corev1.Waiting (corev1.State cs)))
         /\ (isOccurring d = true -> warning d = false)).
Proof.
  assert (Hquiet : forall (prefix : string) (l : list corev1.ContainerStatus),
             Forall (fun y => corev1.Waiting (corev1.State y) = None) l ->
             Forall (fun cs =>
               match corev1.Waiting (corev1.State cs) with
               | Some w => Ret (Some (prefix +:+ corev1.cs_Name cs +:+
                                      " is pending: " +:+ corev1.w_Message w,
                                      false, true))
               | None => Ret (None : option Detection)
               end = Ret None) l).
  { intros prefix l Hl. eapply Forall_impl; [exact Hl|]. intros y Hy.
    simpl in *. by rewrite Hy. }
  assert (H0 : corev1.Phase (corev1.Status pod) <> corev1.PodPending ->
               Detector ProblemPodPending (ObjPod pod) cfg = Ret ("", false, false)).
  { intros Hph. simpl. by rewrite bool_decide_eq_true_2. }
  assert (H1 : forall pre cs post w,
         corev1.Phase (corev1.Status pod) = corev1.PodPending ->
         corev1.ContainerStatuses (corev1.Status pod) = pre ++ cs :: post ->
         Forall (fun y => corev1.Waiting (corev1.State y) = None) pre ->
         corev1.Waiting (corev1.State cs) = Some w ->
         Detector ProblemPodPending (ObjPod pod) cfg =
           Ret ("Container " +:+ corev1.cs_Name cs +:+ " is pending: " +:+
                corev1.w_Message w, false, true)).
  { intros pre cs post w Hph Hl Hpre Hcs. simpl.
    rewrite bool_decide_eq_false_2 by (by intros ?).
    rewrite Hl, range_return_first by apply (Hquiet "Container "), Hpre.
    by rewrite Hcs. }
  assert (H2 : forall pre cs post w,
         corev1.Phase (corev1.Status pod) = corev1.PodPending ->
         Forall (fun y => corev1.Waiting (corev1.State y) = None)
           (corev1.ContainerStatuses (corev1.Status pod)) ->
         corev1.InitContainerStatuses (corev1.Status pod) = pre ++ cs :: post ->
         Forall (fun y => corev1.Waiting (corev1.State y) = None) pre ->
         corev1.Waiting (corev1.State cs) = Some w ->
         Detector ProblemPodPending (ObjPod pod) cfg =
           Ret ("Init container " +:+ corev1.cs_Name cs +:+ " is pending: " +:+
                corev1.w_Message w, false, true)).
  { intros pre cs post w Hph Hreg Hl Hpre Hcs. simpl.
    rewrite bool_decide_eq_false_2 by (by intros ?).
    rewrite (range_return_none (corev1.ContainerStatuses (corev1.Status pod)))
      by apply (Hquiet "Container "), Hreg.
    simpl.
    rewrite Hl, range_return_first by apply (Hquiet "Init container "), Hpre.
    by rewrite Hcs. }
  split_and!; [exact H0|exact H1|exact H2|].
  destruct (decide (corev1.Phase (corev1.Status pod) = corev1.PodPending))
    as [Hph|Hph].
  2: { exists no_problem. split; [by apply H0|]. split; [|done].
       split; [done|]. by intros [? _]. }
  destruct (first_split
              (fun y => bool_decide (is_Some (corev1.Waiting (corev1.State y))))
              (corev1.ContainerStatuses (corev1.Status pod)))
    as [Hreg|(pre & cs & post & Hl & Hpre & [w Hcs]%bool_decide_eq_true)].
  2: { eexists. split; [apply (H1 pre cs post w); [done..| |done]|].
       - eapply Forall_impl; [exact Hpre|]. intros y Hy. simpl in Hy.
         apply bool_decide_eq_false in Hy. by apply eq_None_not_Some.
       - split; [|done]. split; [intros _|done]. split; [done|].
         exists cs. split; [rewrite Hl; set_solver|by exists w]. }
  assert (Hreg' : Forall (fun y => corev1.Waiting (corev1.State y) = None)
                    (corev1.ContainerStatuses (corev1.Status pod))).
  { eapply Forall_impl; [exact Hreg|]. intros y Hy. simpl in Hy.
    apply bool_decide_eq_false in Hy. by apply eq_None_not_Some. }
  destruct (first_split
              (fun y => bool_decide (is_Some (corev1.Waiting (corev1.State y))))
              (corev1.InitContainerStatuses (corev1.Status pod)))
    as [Hinit|(pre & cs & post & Hl & Hpre & [w Hcs]%bool_decide_eq_true)].
  2: { eexists. split; [apply (H2 pre cs post w); [done..| |done]|].
       - eapply Forall_impl; [exact Hpre|]. intros y Hy. simpl in Hy.
         apply bool_decide_eq_false in Hy. by apply eq_None_not_Some.
       - split; [|done]. split; [intros _|done]. split; [done|].
         exists cs. split; [rewrite Hl; set_solver|by exists w]. }
  assert (Hinit' : Forall (fun y => corev1.Waiting (corev1.State y) = None)
                     (corev1.InitContainerStatuses (corev1.Status pod))).
  { eapply Forall_impl; [exact Hinit|]. intros y Hy. simpl in Hy.
    apply bool_decide_eq_false in Hy. by apply eq_None_not_Some. }
  exists no_problem. split_and!; [|split; [done|]|done].
  - simpl. rewrite bool_decide_eq_false_2 by (by intros ?).
    rewrite (range_return_none (corev1.ContainerStatuses (corev1.Status pod)))
      by apply (Hquiet "Container "), Hreg'.
    simpl.
    by rewrite range_return_none by apply (Hquiet "Init container "), Hinit'.
  - intros (_ & cs & Hin & [w Hw]). apply elem_of_app in Hin as [Hin|Hin].
    + rewrite Forall_forall in Hreg'. specialize (Hreg' _ Hin). simpl in Hreg'.
      congruence.
    + rewrite Forall_forall in Hinit'. specialize (Hinit' _ Hin). simpl in Hinit'.
      congruence.
Qed.

Lemma PodPending_detector_witness :
  Detector ProblemPodPending (ObjPod MoreSamples.pullInit) None =
    Ret ("Init container setup is pending: ", false, true)
  /\ Detector ProblemPodPending (ObjPod MoreSamples.pullRegular) None =
       Ret ("Container app is pending: pull failed", false, true)
  /\ Detector ProblemPodPending (ObjPod MoreSamples.webPod) None =
       Ret ("", false, false).
Proof.
  split_and!.
  - refine (eq_trans
              (proj1 (proj2 (proj2 (PodPending_detector MoreSamples.pullInit None)))
                 [] (MoreSamples.waitingContainer "setup" "ImagePullBackOff" "") []
                 _ _ _ _ _ _) _); [reflexivity| |reflexivity| |reflexivity..].
    + by repeat constructor.
    + constructor.
  - refine (eq_trans
              (proj1 (proj2 (PodPending_detector MoreSamples.pullRegular None))
                 [Samples.container "proxy" 0]
                 (MoreSamples.waitingContainer "app" "ErrImagePull" "pull failed")
                 [] _ _ _ _ _) _); [reflexivity..| |reflexivity|reflexivity].
    by repeat constructor.
  - apply (proj1 (PodPending_detector MoreSamples.webPod None)).
    by vm_compute.
Defined.

(** ** PodCrashLoopBackOff *)

Lemma isCrashLoopBackoff_true (cs : corev1.ContainerStatus) :
  isCrashLoopBackoff cs = true <->
  exists w, corev1.Waiting (corev1.State cs) = Some w
            /\ corev1.w_Reason w = "CrashLoopBackOff".
Proof.
  unfold isCrashLoopBackoff. destruct (corev1.Waiting (corev1.State cs)) as [w|].
  - rewrite bool_decide_eq_true. split.
    + intros Hw. by exists w.
    + by intros (w' & [= <-] & Hw).
  - split; [done|]. by intros (w & Hw & _).
Qed.

(** X5. The PodCrashLoopBackOff detector looks at the first container, regular
    ones before init containers, that waits with reason CrashLoopBackOff.
    If that container has a last-termination record, the detection is an
    error whose detail holds the container's name and the record's message;
    if it has none, the detector panics. Without such a container nothing
    is reported. So the detector returns whenever every crash-looping
    container carries a last-termination record. *)
Theorem PodCrashLoopBackOff_detector (pod : corev1.Pod) (cfg : option Config) :
  (forall pre cs post,
      corev1.ContainerStatuses (corev1.Status pod) = pre ++ cs :: post ->
      Forall (fun y => isCrashLoopBackoff y = false) pre ->
      isCrashLoopBackoff cs = true ->
      Detector ProblemPodCrashLoopBackOff (ObjPod pod) cfg =
        match corev1.Terminated (corev1.LastTerminationState cs) with
        | Some t =>
            Ret ("Container " +:+ corev1.cs_Name cs +:+
                 " in a crash loop backoff state: " +:+ corev1.t_Message t,
                 false, true)
        | None => Panic
        end)
  /\ (forall pre cs post,
         Forall (fun y => isCrashLoopBackoff y = false)
           (corev1.ContainerStatuses (corev1.Status pod)) ->
         corev1.InitContainerStatuses (corev1.Status pod) = pre ++ cs :: post ->
         Forall (fun y => isCrashLoopBackoff y = false) pre ->
         isCrashLoopBackoff cs = true ->
         Detector ProblemPodCrashLoopBackOff (ObjPod pod) cfg =
           match corev1.Terminated (corev1.LastTerminationState cs) with
           | Some t =>
               Ret ("Init container " +:+ corev1.cs_Name cs +:+
                    " in a crash loop backoff state: " +:+ corev1.t_Message t,
                    false, true)
           | None => Panic
           end)
  /\ (Forall (fun y => isCrashLoopBackoff y = false)
        (corev1.ContainerStatuses (corev1.Status pod)
         ++ corev1.InitContainerStatuses (corev1.Status pod)) ->
      Detector ProblemPodCrashLoopBackOff (ObjPod pod) cfg = Ret ("", false, false))
  /\ ((forall cs, cs ∈ corev1.ContainerStatuses (corev1.Status pod)
                       ++ corev1.InitContainerStatuses (corev1.Status pod) ->
                  isCrashLoopBackoff cs = true ->
                  is_Some (corev1.Terminated (corev1.LastTerminationState cs))) ->
      exists d,
        Detector ProblemPodCrashLoopBackOff (ObjPod pod) cfg = Ret d
        /\ (isOccurring d = true <->
            exists cs, cs ∈ corev1.ContainerStatuses (corev1.Status pod)
                              ++ corev1.InitContainerStatuses (corev1.Status pod)
                       /\ isCrashLoopBackoff cs = true)
        /\ warning d = false).
Proof.
  assert (Hquiet : forall (prefix : string) (l : list corev1.ContainerStatus),
             Forall (fun y => isCrashLoopBackoff y = false) l ->
             Forall (fun cs =>
               (if isCrashLoopBackoff cs
                then t ← deref (corev1.Terminated (corev1.LastTerminationState cs));
                     Ret (Some (prefix +:+ corev1.cs_Name cs +:+
                                " in a crash loop backoff state: " +:+
                                corev1.t_Message t, false, true))
                else Ret (None : option Detection)) = Ret None) l).
  { intros prefix l Hl. eapply Forall_impl; [exact Hl|]. intros y Hy.
    simpl in *. by rewrite Hy. }
  assert (H1 : forall pre cs post,
      corev1.ContainerStatuses (corev1.Status pod) = pre ++ cs :: post ->
      Forall (fun y => isCrashLoopBackoff y = false) pre ->
      isCrashLoopBackoff cs = true ->
      Detector ProblemPodCrashLoopBackOff (ObjPod pod) cfg =
        match corev1.Terminated (corev1.LastTerminationState cs) with
        | Some t =>
            Ret ("Container " +:+ corev1.cs_Name cs +:+
                 " in a crash loop backoff state: " +:+ corev1.t_Message t,
                 false, true)
        | None => Panic
        end).
  { intros pre cs post Hl Hpre Hcs. simpl.
    rewrite Hl, range_return_first by apply (Hquiet "Container "), Hpre.
    rewrite Hcs.
    by destruct (corev1.Terminated (corev1.LastTerminationState cs)). }
  assert (H2 : forall pre cs post,
      Forall (fun y => isCrashLoopBackoff y = false)
        (corev1.ContainerStatuses (corev1.Status pod)) ->
      corev1.InitContainerStatuses (corev1.Status pod) = pre ++ cs :: post ->
      Forall (fun y => isCrashLoopBackoff y = false) pre ->
      isCrashLoopBackoff cs = true ->
      Detector ProblemPodCrashLoopBackOff (ObjPod pod) cfg =
        match corev1.Terminated (corev1.LastTerminationState cs) with
        | Some t =>
            Ret ("Init container " +:+ corev1.cs_Name cs +:+
                 " in a crash loop backoff state: " +:+ corev1.t_Message t,
                 false, true)
        | None => Panic
        end).
  { intros pre cs post Hreg Hl Hpre Hcs. simpl.
    rewrite (range_return_none (corev1.ContainerStatuses (corev1.Status pod)))
      by apply (Hquiet "Container "), Hreg.
    simpl.
    rewrite Hl, range_return_first by apply (Hquiet "Init container "), Hpre.
    rewrite Hcs.
    by destruct (corev1.Terminated (corev1.LastTerminationState cs)). }
  assert (H3 : Forall (fun y => isCrashLoopBackoff y = false)
        (corev1.ContainerStatuses (corev1.Status pod)
         ++ corev1.InitContainerStatuses (corev1.Status pod)) ->
      Detector ProblemPodCrashLoopBackOff (ObjPod pod) cfg = Ret ("", false, false)).
  { intros [Hreg Hinit]%Forall_app. simpl.
    rewrite (range_return_none (corev1.ContainerStatuses (corev1.Status pod)))
      by apply (Hquiet "Container "), Hreg.
    simpl.
    by rewrite range_return_none by apply (Hquiet "Init container "), Hinit. }
  split_and!; [exact H1|exact H2|exact H3|].
  intros Hrec.
  destruct (first_split isCrashLoopBackoff
              (corev1.ContainerStatuses (corev1.Status pod)))
    as [Hreg|(pre & cs & post & Hl & Hpre & Hcs)].
  2: { assert (Hin : cs ∈ corev1.ContainerStatuses (corev1.Status pod)
                          ++ corev1.InitContainerStatuses (corev1.Status pod))
         by (rewrite Hl; set_solver).
       destruct (Hrec cs Hin Hcs) as [t Ht].
       eexists. split; [rewrite (H1 pre cs post Hl Hpre Hcs), Ht; reflexivity|].
       split; [|done]. split; [intros _|done]. by exists cs. }
  destruct (first_split isCrashLoopBackoff
              (corev1.InitContainerStatuses (corev1.Status pod)))
    as [Hinit|(pre & cs & post & Hl & Hpre & Hcs)].
  2: { assert (Hin : cs ∈ corev1.ContainerStatuses (corev1.Status pod)
                          ++ corev1.InitContainerStatuses (corev1.Status pod))
         by (rewrite Hl; set_solver).
       destruct (Hrec cs Hin Hcs) as [t Ht].
       eexists. split; [rewrite (H2 pre cs post Hreg Hl Hpre Hcs), Ht; reflexivity|].
       split; [|done]. split; [intros _|done]. by exists cs. }
  exists no_problem. split; [apply H3; by apply Forall_app|].
  split; [|done]. split; [done|].
  intros (cs & Hin & Hcs). apply elem_of_app in Hin as [Hin|Hin].
  - rewrite Forall_forall in Hreg. specialize (Hreg _ Hin). simpl in Hreg.
    congruence.
  - rewrite Forall_forall in Hinit. specialize (Hinit _ Hin). simpl in Hinit.
    congruence.
Qed.

Lemma PodCrashLoopBackOff_detector_witness :
  Detector ProblemPodCrashLoopBackOff (ObjPod MoreSamples.crashLoopingInit) None =
    Ret ("Init container migrate in a crash loop backoff state: exit status 1",
         false, true)
  /\ Detector ProblemPodCrashLoopBackOff
       (ObjPod (Samples.pod "web" [Samples.container "c" 1; Samples.crashLooping "app"]))
       None = Panic
  /\ Detector ProblemPodCrashLoopBackOff (ObjPod MoreSamples.pullRegular) None =
       Ret ("", false, false)
  /\ exists d,
      Detector ProblemPodCrashLoopBackOff (ObjPod MoreSamples.crashLoopingInit) None
        = Ret d
      /\ (isOccurring d = true <->
          exists cs, cs ∈ [] ++ [MoreSamples.crashLoopedWithRecord "migrate"
                                    "exit status 1"]
                     /\ isCrashLoopBackoff cs = true)
      /\ warning d = false.
Proof.
  split_and!.
  - refine (eq_trans
              (proj1 (proj2 (PodCrashLoopBackOff_detector
                               MoreSamples.crashLoopingInit None))
                 [] (MoreSamples.crashLoopedWithRecord "migrate" "exit status 1") []
                 _ _ _ _) _); [constructor|reflexivity|constructor|reflexivity..].
  - refine (eq_trans
              (proj1 (PodCrashLoopBackOff_detector
                        (Samples.pod "web" [Samples.container "c" 1;
                                            Samples.crashLooping "app"]) None)
                 [Samples.container "c" 1] (Samples.crashLooping "app") []
                 _ _ _) _); [reflexivity| |reflexivity..].
    by repeat constructor.
  - apply (proj1 (proj2 (proj2 (PodCrashLoopBackOff_detector
                                  MoreSamples.pullRegular None)))).
    by repeat constructor.
  - apply (proj2 (proj2 (proj2 (PodCrashLoopBackOff_detector
                                  MoreSamples.crashLoopingInit None)))).
    intros cs Hin _. simpl in Hin. apply list_elem_of_singleton in Hin as ->.
    by eexists.
Defined.

(** ** PodOOMKilled: when nothing is reported *)

(** X6. The PodOOMKilled detector never panics on a pod, and it reports a
    pod exactly when some regular container is OOM-killed now or was OOM-killed last;
    the statuses of init containers are not inspected. *)
Theorem PodOOMKilled_occurring (pod : corev1.Pod) (cfg : option Config) :
  exists d,
    Detector ProblemPodOOMKilled (ObjPod pod) cfg = Ret d
    /\ (isOccurring d = true <->
        exists cs, cs ∈ corev1.ContainerStatuses (corev1.Status pod)
                   /\ (terminatedOOMKilled (corev1.State cs) = true
                       \/ terminatedOOMKilled (corev1.LastTerminationState cs) = true))
    /\ (isOccurring d = false -> d = ("", false, false)).
Proof.
  unfold ProblemPodOOMKilled. cbn [Detector].
  destruct (range_return_ret (R := Detection)
              (fun cs =>
                 if terminatedOOMKilled (corev1.State cs) then
                   Some ("Container " +:+ corev1.cs_Name cs +:+
                         " was killed because it ran out of memory", false, true)
                 else
                   match corev1.Terminated (corev1.LastTerminationState cs) with
                   | Some t =>
                       if bool_decide (corev1.t_Reason t = "OOMKilled") then
                         Some ("Container " +:+ corev1.cs_Name cs +:+
                               " was recently killed because it ran out of memory: "
                               +:+ metav1.String_ (corev1.FinishedAt t), true, true)
                       else None
                   | None => None
                   end)
              oomKilled_body
              (corev1.ContainerStatuses (corev1.Status pod)))
    as [[Hall ->]|(pre & cs & post & v & Hl & Hpre & Hcs & ->)].
  { intros cs. unfold oomKilled_body, terminatedOOMKilled.
    destruct (corev1.Terminated (corev1.State cs)) as [t|];
      [destruct (bool_decide _); [done|]|];
      (destruct (corev1.Terminated (corev1.LastTerminationState cs)) as [t'|];
       [destruct (bool_decide _)|]; done). }
  - exists no_problem. split_and!; [done| |done]. split; [done|].
    intros (cs & Hin & Hcs). rewrite Forall_forall in Hall.
    specialize (Hall _ Hin). simpl in Hall. unfold terminatedOOMKilled in *.
    destruct Hcs as [Hcs|Hcs].
    + by rewrite Hcs in Hall.
    + destruct (match corev1.Terminated (corev1.State cs) with
                | Some t => bool_decide (corev1.t_Reason t = "OOMKilled")
                | None => false
                end); [done|].
      destruct (corev1.Terminated (corev1.LastTerminationState cs)); [|done].
      by rewrite Hcs in Hall.
  - exists v. split; [done|].
    assert (Hin : cs ∈ corev1.ContainerStatuses (corev1.Status pod))
      by (rewrite Hl; set_solver).
    unfold terminatedOOMKilled in *.
    destruct (corev1.Terminated (corev1.State cs)) as [t|] eqn:Ht.
    + destruct (bool_decide (corev1.t_Reason t = "OOMKilled")) eqn:Hr.
      * injection Hcs as <-. split; [|done]. split; [intros _|done].
        exists cs. split; [done|]. left. by rewrite Ht.
      * destruct (corev1.Terminated (corev1.LastTerminationState cs)) as [t'|] eqn:Ht';
          [|done].
        destruct (bool_decide (corev1.t_Reason t' = "OOMKilled")) eqn:Hr'; [|done].
        injection Hcs as <-. split; [|done]. split; [intros _|done].
        exists cs. split; [done|]. right. by rewrite Ht'.
    + destruct (corev1.Terminated (corev1.LastTerminationState cs)) as [t'|] eqn:Ht';
        [|done].
      destruct (bool_decide (corev1.t_Reason t' = "OOMKilled")) eqn:Hr'; [|done].
      injection Hcs as <-. split; [|done]. split; [intros _|done].
      exists cs. split; [done|]. right. by rewrite Ht'.
Qed.

(** ** HighRestarts: the threshold as the detector reads it *)

Lemma range_return_cons {A R : Type} (x : A) (l : list A)
    (body : A -> result (option R)) :
  range_return (x :: l) body =
    body x ≫= fun r => match r with
                       | Some v => Ret (Some v)
                       | None => range_return l body
                       end.
Proof. reflexivity. Qed.

Lemma range_return_ext {A R : Type} (l : list A) (body body' : A -> result (option R)) :
  (forall x, body x = body' x) -> range_return l body = range_return l body'.
Proof.
  intros Hext. induction l as [|x l IH]; [done|].
  rewrite !range_return_cons, Hext. destruct (body' x) as [[v|]|]; simpl; done.
Qed.

Lemma int32_range (x : Z) : - 2 ^ 31 <= int32 x < 2 ^ 31.
Proof.
  unfold int32. pose proof (Z.mod_pos_bound (x + 2 ^ 31) (2 ^ 32)). lia.
Qed.

Lemma int32_periodic (x k : Z) : int32 (x + k * 2 ^ 32) = int32 x.
Proof.
  unfold int32. replace (x + k * 2 ^ 32 + 2 ^ 31) with (x + 2 ^ 31 + k * 2 ^ 32) by lia.
  by rewrite Z.mod_add by lia.
Qed.

(** X7. The HighRestarts detector compares restart counts with the threshold
    truncated to 32 bits. With a configuration it never panics and reports
    a pod exactly when some regular container's restart count is at least
    the truncated threshold, always as a warning; thresholds that differ by
    a multiple of 2^32 give the same detections. Without a configuration
    (a nil pointer) it panics as soon as the pod has a container status,
    and reports nothing for a pod without container statuses. *)
Theorem HighRestarts_threshold (pod : corev1.Pod) :
  (forall c : Config,
      exists d,
        Detector ProblemHighRestarts (ObjPod pod) (Some c) = Ret d
        /\ (isOccurring d = true <->
            exists cs, cs ∈ corev1.ContainerStatuses (corev1.Status pod)
                       /\ int32 (RestartThreshold c) <= corev1.RestartCount cs)
        /\ (isOccurring d = true -> warning d = true)
        /\ (isOccurring d = false -> d = ("", false, false)))
  /\ (forall t k : Z,
         Detector ProblemHighRestarts (ObjPod pod)
           (Some {| RestartThreshold := t + k * 2 ^ 32 |}) =
         Detector ProblemHighRestarts (ObjPod pod)
           (Some {| RestartThreshold := t |}))
  /\ (corev1.ContainerStatuses (corev1.Status pod) = [] ->
      Detector ProblemHighRestarts (ObjPod pod) None = Ret ("", false, false))
  /\ (corev1.ContainerStatuses (corev1.Status pod) <> [] ->
      Detector ProblemHighRestarts (ObjPod pod) None = Panic).
Proof.
  split_and!.
  - intros c.
    destruct (first_split
                (fun y => bool_decide (int32 (RestartThreshold c)
                                       <= corev1.RestartCount y))
                (corev1.ContainerStatuses (corev1.Status pod)))
      as [Hnone|(pre & cs & post & Hl & Hpre & Hcs%bool_decide_eq_true)].
    + assert (Hall : Forall (fun y => corev1.RestartCount y
                                      < int32 (RestartThreshold c))
                       (corev1.ContainerStatuses (corev1.Status pod))).
      { eapply Forall_impl; [exact Hnone|]. intros y Hy. simpl in Hy.
        apply bool_decide_eq_false in Hy. lia. }
      exists no_problem. split; [by apply HighRestarts_none|].
      split_and!; [|done..]. split; [done|].
      intros (cs & Hin & Hcs). rewrite Forall_forall in Hall.
      specialize (Hall _ Hin). simpl in Hall. lia.
    + eexists. split.
      * apply (HighRestarts_first pod c pre cs post Hl); [|done].
        eapply Forall_impl; [exact Hpre|]. intros y Hy. simpl in Hy.
        apply bool_decide_eq_false in Hy. lia.
      * split_and!; [|done..]. split; [intros _|done].
        exists cs. split; [rewrite Hl; set_solver|done].
  - intros t k. unfold ProblemHighRestarts. cbn [Detector].
    f_equal. apply range_return_ext. intros cs.
    unfold highRestarts_body. cbn [deref mbind result_bind RestartThreshold].
    by rewrite int32_periodic.
  - intros Hl. unfold ProblemHighRestarts. cbn [Detector]. by rewrite Hl.
  - intros Hl. unfold ProblemHighRestarts. cbn [Detector].
    destruct (corev1.ContainerStatuses (corev1.Status pod)) as [|cs l]; [done|].
    by rewrite range_return_cons.
Qed.

Lemma HighRestarts_threshold_witness :
  Detector ProblemHighRestarts
    (ObjPod (Samples.pod "web" [Samples.container "c" 5]))
    (Some {| RestartThreshold := 100 + (-1) * 2 ^ 32 |}) =
  Detector ProblemHighRestarts
    (ObjPod (Samples.pod "web" [Samples.container "c" 5]))
    (Some {| RestartThreshold := 100 |})
  /\ Detector ProblemHighRestarts (ObjPod (Samples.pod "web" [])) None
     = Ret ("", false, false)
  /\ Detector ProblemHighRestarts
       (ObjPod (Samples.pod "web" [Samples.container "c" 0])) None = Panic.
Proof.
  split_and!.
  - apply (proj1 (proj2 (HighRestarts_threshold
                           (Samples.pod "web" [Samples.container "c" 5])))).
  - by apply (proj1 (proj2 (proj2 (HighRestarts_threshold (Samples.pod "web" []))))).
  - by apply (proj2 (proj2 (proj2 (HighRestarts_threshold
                                     (Samples.pod "web" [Samples.container "c" 0]))))).
Defined.

(** ** Where the detectors panic *)

Lemma PodPending_total (pod : corev1.Pod) (cfg : option Config) :
  exists d, Detector ProblemPodPending (ObjPod pod) cfg = Ret d.
Proof.
  simpl. destruct (bool_decide _); [by eexists|].
  apply bind_total.
  { apply range_return_total. intros cs.
    destruct (corev1.Waiting (corev1.State cs)); by eexists. }
  intros [d|]; [by eexists|].
  apply bind_total; [apply range_return_total|intros [d|]; by eexists].
  intros cs. destruct (corev1.Waiting (corev1.State cs)); by eexists.
Qed.

(** X8. PodNotReady, PodImagePullBackOff, PodOOMKilled and PodPending
    panic on the nil pod pointer, which passes their type assertion, and
    on no other object: on every other object they return a detection,
    for every configuration, a nil configuration included.  MaxedOutHPAs
    panics on the nil autoscaler pointer and returns a detection on every
    other object.  On a pod, an autoscaler or an object of another kind,
    only PodCrashLoopBackOff and HighRestarts among the catalog's detectors
    can panic. *)
Theorem detectors_panic_only_on_nil (cfg : option Config) :
  (forall p,
      p ∈ [ProblemPodNotReady; ProblemPodImagePullBackOff; ProblemPodOOMKilled;
           ProblemPodPending] ->
      Detector p ObjNilPod cfg = Panic
      /\ forall obj, obj <> ObjNilPod -> exists d, Detector p obj cfg = Ret d)
  /\ Detector ProblemMaxedOutHPAs ObjNilHPA cfg = Panic
  /\ forall obj, obj <> ObjNilHPA ->
                 exists d, Detector ProblemMaxedOutHPAs obj cfg = Ret d.
Proof.
  split_and!.
  - intros p Hp. repeat (apply elem_of_cons in Hp as [->|Hp]);
      [| | | |by apply elem_of_nil in Hp];
      (split; [reflexivity|]);
      intros [pod| |hpa| |] Hobj; try done; try (by eexists).
    + apply PodNotReady_total.
    + apply PodImagePullBackOff_total.
    + apply PodOOMKilled_total.
    + apply PodPending_total.
  - reflexivity.
  - intros [pod| |hpa| |] Hobj; try done; try (by eexists).
    simpl. destruct (bool_decide _); by eexists.
Qed.

Lemma detectors_panic_only_on_nil_witness :
  (Detector ProblemPodOOMKilled ObjNilPod None = Panic
   /\ exists d, Detector ProblemPodOOMKilled (ObjPod Samples.pastThenPresentOOM) None
                = Ret d)
  /\ exists d, Detector ProblemPodPending ObjNilHPA None = Ret d.
Proof.
  split; [split|].
  - apply (proj1 (detectors_panic_only_on_nil None) ProblemPodOOMKilled).
    do 2 right. by left.
  - apply (proj1 (detectors_panic_only_on_nil None) ProblemPodOOMKilled).
    + do 2 right. by left.
    + discriminate.
  - apply (proj1 (detectors_panic_only_on_nil None) ProblemPodPending).
    + do 3 right. by left.
    + discriminate.
Defined.

(** * The scan *)

(** ** The detections of one resource *)

Lemma detectProblems_Ret (enabled : list Problem) (obj : Object)
    (cfg : option Config) (defaultProblem : Resource) (problems rs : list Resource) :
  detectProblems enabled obj cfg defaultProblem problems = Ret rs <->
  exists ds,
    Forall2 (fun p d => Detector p obj cfg = Ret d) enabled ds
    /\ rs = problems ++ omap (recorded defaultProblem) (zip enabled ds).
Proof.
  revert problems. induction enabled as [|p rest IH]; intros problems.
  - simpl. split.
    + intros [= <-]. exists []. split; [constructor|]. by rewrite app_nil_r.
    + intros (ds & Hds & ->). apply Forall2_nil_inv_l in Hds as ->.
      simpl. by rewrite app_nil_r.
  - rewrite detectProblems_cons. split.
    + destruct (Detector p obj cfg) as [[[s w] occ]|] eqn:Hd; [|done].
      cbn [mbind result_bind]. destruct occ; cbn [negb].
      * intros (ds & Hds & ->)%IH. exists ((s, w, true) :: ds).
        split; [by constructor|]. by rewrite <- app_assoc.
      * intros (ds & Hds & ->)%IH. exists ((s, w, false) :: ds).
        split; [by constructor|]. done.
    + intros (ds & Hds & ->).
      apply Forall2_cons_inv_l in Hds as (d & ds' & Hd & Hds & ->).
      rewrite Hd. cbn [mbind result_bind]. destruct d as [[s w] occ].
      destruct occ; cbn [negb]; apply IH; exists ds'; (split; [done|]).
      * by rewrite <- app_assoc.
      * done.
Qed.

Lemma detectProblems_Panic (enabled : list Problem) (obj : Object)
    (cfg : option Config) (defaultProblem : Resource) (problems : list Resource) :
  detectProblems enabled obj cfg defaultProblem problems = Panic <->
  exists p, p ∈ enabled /\ Detector p obj cfg = Panic.
Proof.
  revert problems. induction enabled as [|p rest IH]; intros problems.
  - simpl. split; [done|]. by intros (p & Hp%elem_of_nil & _).
  - rewrite detectProblems_cons.
    destruct (Detector p obj cfg) as [[[s w] occ]|] eqn:Hd.
    + cbn [mbind result_bind]. destruct occ; cbn [negb]; rewrite IH;
        (split; intros (q & Hq & Hpanic);
         [exists q; split; [by right|done]|]);
        (apply elem_of_cons in Hq as [->|Hq]; [congruence|by exists q]).
    + cbn [mbind result_bind]. split; [intros _|done].
      exists p. split; [by left|done].
Qed.

Lemma recorded_sublist (defaultProblem : Resource) (enabled : list Problem)
    (ds : list Detection) :
  map ProblemID (omap (recorded defaultProblem) (zip enabled ds))
    `sublist_of` map ID enabled.
Proof.
  revert ds. induction enabled as [|p rest IH]; intros ds; [constructor|].
  destruct ds as [|d ds]; [apply sublist_nil_l|].
  simpl. unfold recorded at 1. simpl.
  destruct (isOccurring d); simpl.
  - by apply sublist_skip.
  - by apply sublist_cons.
Qed.

Lemma elem_of_recorded (defaultProblem : Resource) (enabled : list Problem)
    (obj : Object) (cfg : option Config) (ds : list Detection) (r : Resource) :
  Forall2 (fun p d => Detector p obj cfg = Ret d) enabled ds ->
  r ∈ omap (recorded defaultProblem) (zip enabled ds) <->
  exists p d, p ∈ enabled /\ Detector p obj cfg = Ret d
              /\ isOccurring d = true /\ r = recordOf defaultProblem p d.
Proof.
  intros Hds. rewrite list_elem_of_omap. split.
  - intros ([p d] & Hin & Hrec). unfold recorded in Hrec. simpl in Hrec.
    destruct (isOccurring d) eqn:Hocc; [|done]. injection Hrec as <-.
    apply list_elem_of_lookup in Hin as [i Hi].
    apply lookup_zip_with_Some in Hi as (p' & d' & [= <- <-] & Hp & Hd).
    exists p, d. split_and!; [|..|done|done].
    + apply list_elem_of_lookup. by exists i.
    + by apply (Forall2_lookup_lr _ _ _ _ _ _ Hds Hp Hd).
  - intros (p & d & Hp & Hd & Hocc & ->).
    apply list_elem_of_lookup in Hp as [i Hi].
    destruct (Forall2_lookup_l _ _ _ _ _ Hds Hi) as (d' & Hd' & Heq).
    assert (d' = d) as -> by congruence.
    exists (p, d). split.
    + apply list_elem_of_lookup. exists i.
      apply lookup_zip_with_Some. by exists p, d.
    + unfold recorded. simpl. by rewrite Hocc.
Qed.

Lemma getPodsWithProblems_eq (o : Options) (pod : corev1.Pod) :
  getPodsWithProblems o pod =
    detectProblems enabledPodProblems (ObjPod pod) (cfg o) (defaultPodProblem pod) []
    ≫= fun problems => Ret (problems, bool_decide (0 < length problems)%nat).
Proof. reflexivity. Qed.

Lemma getHPAsWithProblems_eq (o : Options) (hpa : v1.HorizontalPodAutoscaler) :
  getHPAsWithProblems o hpa =
    detectProblems enabledHPAProblems (ObjHPA hpa) (cfg o) (defaultHPAProblem hpa) []
    ≫= fun problems => Ret (problems, bool_decide (0 < length problems)%nat).
Proof. reflexivity. Qed.

(** X9. When the scan of a pod returns, its records are exactly the occurring
    detections of the enabled pod problems: one record per problem that
    occurs, in catalog order, each carrying the pod's "namespace/name",
    its reporting_team label (empty if there is none), the type "pod", and
    the detection's detail and warning flag. The flag returned with them
    says whether there is a record. *)
Theorem getPodsWithProblems_records (o : Options) (pod : corev1.Pod)
    (rs : list Resource) (b : bool) :
  getPodsWithProblems o pod = Ret (rs, b) ->
  (b = true <-> rs <> [])
  /\ Forall (fun r =>
               Name r = corev1.Namespace pod +:+ "/" +:+ corev1.Name pod
               /\ Owner r = default "" (corev1.Labels pod !! "reporting_team")
               /\ Type_ r = "pod") rs
  /\ map ProblemID rs `sublist_of` map ID enabledPodProblems
  /\ (forall r,
         r ∈ rs <->
         exists p d,
           p ∈ enabledPodProblems
           /\ Detector p (ObjPod pod) (cfg o) = Ret d
           /\ isOccurring d = true
           /\ r = recordOf (defaultPodProblem pod) p d).
Proof.
  rewrite getPodsWithProblems_eq.
  destruct (detectProblems _ _ _ _ _) as [rs'|] eqn:Hdet; [|done].
  cbn [mbind result_bind]. intros [= <- <-].
  apply detectProblems_Ret in Hdet as (ds & Hds & ->). rewrite app_nil_l.
  split_and!.
  - rewrite bool_decide_eq_true.
    destruct (omap _ _); simpl; split; (done || lia).
  - apply Forall_forall. intros r (p & d & _ & _ & _ & ->)%(elem_of_recorded _ _ _ _ _ _ Hds).
    done.
  - apply recorded_sublist.
  - intros r. by apply elem_of_recorded.
Qed.

Lemma getPodsWithProblems_records_witness :
  exists rs,
    getPodsWithProblems Samples.threshold3 MoreSamples.notReadyRestarting
      = Ret (rs, true)
    /\ map ProblemID rs = ["PodNotReady"; "HighRestarts"]
    /\ Forall (fun r => Name r = "shop/web" /\ Owner r = "payments"
                        /\ Type_ r = "pod") rs.
Proof.
  exists [ {| Name := "shop/web"; Owner := "payments"; Type_ := "pod";
              ProblemID := "PodNotReady";
              ProblemDetails := "Container app is not ready"; Warning := false |};
           {| Name := "shop/web"; Owner := "payments"; Type_ := "pod";
              ProblemID := "HighRestarts";
              ProblemDetails := "Container web has restarted 7 time(s)";
              Warning := true |} ].
  split; [reflexivity|]. split; [reflexivity|].
  apply (proj1 (proj2 (getPodsWithProblems_records Samples.threshold3
                         MoreSamples.notReadyRestarting _ true eq_refl))).
Defined.

(** ** When the scan of a pod panics *)

Lemma range_return_total_on {A R : Type} (l : list A) (body : A -> result (option R)) :
  Forall (fun x => exists r, body x = Ret r) l ->
  exists r, range_return l body = Ret r.
Proof.
  induction 1 as [|x l [r Hx] _ [r' IH]]; [by eexists|].
  rewrite range_return_cons, Hx. destruct r as [v|]; simpl; by eexists.
Qed.

Lemma PodCrashLoopBackOff_returns (pod : corev1.Pod) (cfg : option Config) :
  (forall cs, cs ∈ corev1.ContainerStatuses (corev1.Status pod)
                   ++ corev1.InitContainerStatuses (corev1.Status pod) ->
              isCrashLoopBackoff cs = true ->
              is_Some (corev1.Terminated (corev1.LastTerminationState cs))) ->
  exists d, Detector ProblemPodCrashLoopBackOff (ObjPod pod) cfg = Ret d.
Proof.
  intros Hrec.
  assert (Hbody : forall (prefix : string) (l : list corev1.ContainerStatus),
             l ⊆ corev1.ContainerStatuses (corev1.Status pod)
                 ++ corev1.InitContainerStatuses (corev1.Status pod) ->
             Forall (fun cs => exists r,
               (if isCrashLoopBackoff cs
                then t ← deref (corev1.Terminated (corev1.LastTerminationState cs));
                     Ret (Some (prefix +:+ corev1.cs_Name cs +:+
                                " in a crash loop backoff state: " +:+
                                corev1.t_Message t, false, true))
                else Ret (None : option Detection)) = Ret r) l).
  { intros prefix l Hl. apply Forall_forall. intros cs Hcs.
    destruct (isCrashLoopBackoff cs) eqn:Hclb; [|by eexists].
    destruct (Hrec cs (Hl _ Hcs) Hclb) as [t ->]. by eexists. }
  simpl. apply bind_total.
  { apply range_return_total_on, (Hbody "Container "). set_solver. }
  intros [d|]; [by eexists|].
  apply bind_total; [|intros [d|]; by eexists].
  apply range_return_total_on, (Hbody "Init container "). set_solver.
Qed.

Lemma HighRestarts_returns (pod : corev1.Pod) (c : Config) :
  exists d, Detector ProblemHighRestarts (ObjPod pod) (Some c) = Ret d.
Proof.
  simpl. apply bind_total; [|intros [d|]; by eexists].
  apply range_return_total. intros cs. unfold highRestarts_body. simpl.
  destruct (bool_decide _); by eexists.
Qed.

Lemma getPodsWithProblems_Panic_iff (o : Options) (pod : corev1.Pod) :
  getPodsWithProblems o pod = Panic <->
  Detector ProblemPodCrashLoopBackOff (ObjPod pod) (cfg o) = Panic
  \/ Detector ProblemHighRestarts (ObjPod pod) (cfg o) = Panic.
Proof.
  rewrite getPodsWithProblems_eq.
  destruct (detectProblems _ _ _ _ _) as [rs|] eqn:Hdet.
  - cbn [mbind result_bind]. split; [done|]. intros Hpanic.
    assert (detectProblems enabledPodProblems (ObjPod pod) (cfg o)
              (defaultPodProblem pod) [] = Panic) as Hp; [|congruence].
    apply detectProblems_Panic.
    destruct Hpanic as [Hpanic|Hpanic]; eexists; (split; [|exact Hpanic]).
    + by left.
    + unfold enabledPodProblems. do 4 right. by left.
  - cbn [mbind result_bind]. split; [intros _|done].
    apply detectProblems_Panic in Hdet as (p & Hp & Hpanic).
    unfold enabledPodProblems in Hp.
    repeat (apply elem_of_cons in Hp as [->|Hp]).
    + by left.
    + destruct (PodNotReady_total pod (cfg o)) as [d Hd]. congruence.
    + destruct (PodImagePullBackOff_total pod (cfg o)) as [d Hd]. congruence.
    + destruct (PodOOMKilled_total pod (cfg o)) as [d Hd]. congruence.
    + by right.
    + by apply elem_of_nil in Hp.
Qed.

(** X10. The scan of a pod panics exactly when the PodCrashLoopBackOff detector
    or the HighRestarts detector panics on it. So it returns whenever a
    configuration is present and every crash-looping container of the pod
    carries a last-termination record. *)
Theorem getPodsWithProblems_panics (o : Options) (pod : corev1.Pod) :
  (getPodsWithProblems o pod = Panic <->
   Detector ProblemPodCrashLoopBackOff (ObjPod pod) (cfg o) = Panic
   \/ Detector ProblemHighRestarts (ObjPod pod) (cfg o) = Panic)
  /\ (is_Some (cfg o) ->
      (forall cs, cs ∈ corev1.ContainerStatuses (corev1.Status pod)
                       ++ corev1.InitContainerStatuses (corev1.Status pod) ->
                  isCrashLoopBackoff cs = true ->
                  is_Some (corev1.Terminated (corev1.LastTerminationState cs))) ->
      exists rs b, getPodsWithProblems o pod = Ret (rs, b)).
Proof.
  pose proof (getPodsWithProblems_Panic_iff o pod) as Hiff.
  split; [exact Hiff|].
  intros [c Hc] Hrec.
  destruct (getPodsWithProblems o pod) as [[rs b]|] eqn:Hget; [by eexists _, _|].
  exfalso. destruct (proj1 Hiff eq_refl) as [Hpanic|Hpanic].
  - destruct (PodCrashLoopBackOff_returns pod (cfg o) Hrec) as [d Hd]. congruence.
  - rewrite Hc in Hpanic.
    destruct (HighRestarts_returns pod c) as [d Hd]. congruence.
Qed.

Lemma getPodsWithProblems_panics_witness :
  exists rs b, getPodsWithProblems Samples.threshold3 MoreSamples.crashLoopingInit
               = Ret (rs, b).
Proof.
  apply (proj2 (getPodsWithProblems_panics Samples.threshold3
                  MoreSamples.crashLoopingInit)).
  - by eexists.
  - intros cs Hin _. simpl in Hin. apply list_elem_of_singleton in Hin as ->.
    by eexists.
Defined.

(** ** The scan over all resources *)

Lemma getHPAsWithProblems_closed (o : Options) (hpa : v1.HorizontalPodAutoscaler) :
  getHPAsWithProblems o hpa =
    Ret (if decide (maxedOut hpa) then ([maxedOutRecord hpa], true)
         else ([], false)).
Proof.
  assert (Hd : Detector ProblemMaxedOutHPAs (ObjHPA hpa) (cfg o) =
               if decide (maxedOut hpa)
               then Ret (ProblemDetails (maxedOutRecord hpa), true, true)
               else Ret no_problem).
  { simpl. unfold maxedOut. destruct (decide _) as [Heq|Hne].
    - by rewrite (bool_decide_eq_true_2 _ Heq).
    - by rewrite (bool_decide_eq_false_2 _ Hne). }
  rewrite getHPAsWithProblems_eq. unfold enabledHPAProblems.
  rewrite detectProblems_cons, Hd. by destruct (decide (maxedOut hpa)).
Qed.

Lemma scanHPAs_closed (o : Options) (hpas : list v1.HorizontalPodAutoscaler)
    (resourceProblems : list Resource) :
  scanHPAs o hpas resourceProblems =
    Ret (resourceProblems ++ map maxedOutRecord (filter maxedOut hpas)).
Proof.
  revert resourceProblems. induction hpas as [|h rest IH]; intros acc.
  - simpl. by rewrite app_nil_r.
  - cbn [scanHPAs]. rewrite getHPAsWithProblems_closed. cbn [mbind result_bind].
    rewrite filter_cons. destruct (decide (maxedOut h)).
    + rewrite IH. simpl. by rewrite <- app_assoc.
    + by rewrite IH.
Qed.

Lemma getPodsWithProblems_flag (o : Options) (pod : corev1.Pod)
    (rs : list Resource) (b : bool) :
  getPodsWithProblems o pod = Ret (rs, b) ->
  (if b then rs else []) = rs.
Proof.
  rewrite getPodsWithProblems_eq.
  destruct (detectProblems _ _ _ _ _) as [rs'|]; [|done].
  cbn [mbind result_bind]. intros [= <- <-]. by destruct rs'.
Qed.

Lemma scanPods_Ret (o : Options) (pods : list corev1.Pod)
    (resourceProblems rs : list Resource) :
  scanPods o pods resourceProblems = Ret rs <->
  exists rss,
    Forall2 (fun p l => exists b, getPodsWithProblems o p = Ret (l, b)) pods rss
    /\ rs = resourceProblems ++ concat rss.
Proof.
  revert resourceProblems. induction pods as [|p rest IH]; intros acc.
  - simpl. split.
    + intros [= <-]. exists []. split; [constructor|]. by rewrite app_nil_r.
    + intros (rss & Hrss & ->). apply Forall2_nil_inv_l in Hrss as ->.
      simpl. by rewrite app_nil_r.
  - cbn [scanPods].
    destruct (getPodsWithProblems o p) as [[l b]|] eqn:Hget.
    + cbn [mbind result_bind]. pose proof (getPodsWithProblems_flag _ _ _ _ Hget) as Hflag.
      assert (Hacc : (if b then acc ++ l else acc) = acc ++ l).
      { destruct b; [done|]. rewrite <- Hflag. by rewrite app_nil_r. }
      rewrite Hacc, IH. split.
      * intros (rss & Hrss & ->). exists (l :: rss). split.
        -- constructor; [by exists b|done].
        -- simpl. by rewrite app_assoc.
      * intros (rss & Hrss & ->).
        apply Forall2_cons_inv_l in Hrss as (l' & rss' & [b' Hl'] & Hrss & ->).
        assert (l' = l) as -> by congruence.
        exists rss'. split; [done|]. simpl. by rewrite app_assoc.
    + cbn [mbind result_bind]. split; [done|].
      intros (rss & Hrss & _).
      apply Forall2_cons_inv_l in Hrss as (l' & rss' & [b' Hl'] & _). congruence.
Qed.

Lemma scanPods_Panic (o : Options) (pods : list corev1.Pod)
    (resourceProblems : list Resource) :
  scanPods o pods resourceProblems = Panic <->
  exists p, p ∈ pods /\ getPodsWithProblems o p = Panic.
Proof.
  revert resourceProblems. induction pods as [|p rest IH]; intros acc.
  - simpl. split; [done|]. by intros (p & Hp%elem_of_nil & _).
  - cbn [scanPods].
    destruct (getPodsWithProblems o p) as [[l b]|] eqn:Hget.
    + cbn [mbind result_bind]. rewrite IH. split.
      * intros (q & Hq & Hpanic). exists q. split; [by right|done].
      * intros (q & Hq & Hpanic).
        apply elem_of_cons in Hq as [->|Hq]; [congruence|by exists q].
    + cbn [mbind result_bind]. split; [intros _|done].
      exists p. split; [by left|done].
Qed.

(** X11. The scan returns exactly when the scan of every pod returns; its
    records are then the records of the pods, pod after pod in listing
    order, followed by one record for every HPA whose current replica
    count equals its maximum, in listing order. *)
Theorem scan_records (o : Options) (pods : list corev1.Pod)
    (hpas : list v1.HorizontalPodAutoscaler) (rs : list Resource) :
  scan o pods hpas = Ret rs <->
  exists rss,
    Forall2 (fun p l => exists b, getPodsWithProblems o p = Ret (l, b)) pods rss
    /\ rs = concat rss ++ map maxedOutRecord (filter maxedOut hpas).
Proof.
  unfold scan. split.
  - destruct (scanPods o pods []) as [acc|] eqn:Hpods; [|done].
    cbn [mbind result_bind]. rewrite scanHPAs_closed. intros [= <-].
    apply scanPods_Ret in Hpods as (rss & Hrss & ->). by exists rss.
  - intros (rss & Hrss & ->).
    assert (Hpods : scanPods o pods [] = Ret (concat rss)).
    { apply scanPods_Ret. by exists rss. }
    rewrite Hpods. cbn [mbind result_bind]. by rewrite scanHPAs_closed.
Qed.

Lemma scan_Panic_iff (o : Options) (pods : list corev1.Pod)
    (hpas : list v1.HorizontalPodAutoscaler) :
  scan o pods hpas = Panic <->
  exists pod,
    pod ∈ pods
    /\ (Detector ProblemPodCrashLoopBackOff (ObjPod pod) (cfg o) = Panic
        \/ Detector ProblemHighRestarts (ObjPod pod) (cfg o) = Panic).
Proof.
  pose proof (getPodsWithProblems_Panic_iff o) as Hpanics.
  unfold scan.
  destruct (scanPods o pods []) as [acc|] eqn:Hpods.
  - cbn [mbind result_bind]. rewrite scanHPAs_closed. split; [done|].
    intros (pod & Hin & Hpanic%Hpanics).
    assert (scanPods o pods [] = Panic) as Hp; [|congruence].
    apply scanPods_Panic. by exists pod.
  - cbn [mbind result_bind]. split; [intros _|done].
    apply scanPods_Panic in Hpods as (pod & Hin & Hpanic%Hpanics).
    by exists pod.
Qed.

(** X12. The scan panics exactly when, on some pod, the PodCrashLoopBackOff
    detector or the HighRestarts detector panics; HPAs never make it
    panic. *)
Theorem scan_panics (o : Options) (pods : list corev1.Pod)
    (hpas : list v1.HorizontalPodAutoscaler) :
  scan o pods hpas = Panic <->
  exists pod,
    pod ∈ pods
    /\ (Detector ProblemPodCrashLoopBackOff (ObjPod pod) (cfg o) = Panic
        \/ Detector ProblemHighRestarts (ObjPod pod) (cfg o) = Panic).
Proof. apply scan_Panic_iff. Qed.

Lemma scan_Ret (o : Options) (pods : list corev1.Pod)
    (hpas : list v1.HorizontalPodAutoscaler) (rs : list Resource) :
  scan o pods hpas = Ret rs ->
  exists rss,
    Forall2 (fun p l => exists b, getPodsWithProblems o p = Ret (l, b)) pods rss
    /\ rs = concat rss ++ map maxedOutRecord (filter maxedOut hpas).
Proof.
  unfold scan.
  destruct (scanPods o pods []) as [acc|] eqn:Hpods; [|done].
  cbn [mbind result_bind]. rewrite scanHPAs_closed. intros [= <-].
  apply scanPods_Ret in Hpods as (rss & Hrss & ->). by exists rss.
Qed.

Lemma getPodsWithProblems_elem (o : Options) (pod : corev1.Pod)
    (rs : list Resource) (b : bool) (r : Resource) :
  getPodsWithProblems o pod = Ret (rs, b) ->
  r ∈ rs <->
  exists p d,
    p ∈ enabledPodProblems
    /\ Detector p (ObjPod pod) (cfg o) = Ret d
    /\ isOccurring d = true
    /\ r = recordOf (defaultPodProblem pod) p d.
Proof.
  rewrite getPodsWithProblems_eq.
  destruct (detectProblems _ _ _ _ _) as [rs'|] eqn:Hdet; [|done].
  cbn [mbind result_bind]. intros [= <- <-].
  apply detectProblems_Ret in Hdet as (ds & Hds & ->). rewrite app_nil_l.
  by apply elem_of_recorded.
Qed.

Lemma elem_of_concat (rss : list (list Resource)) (r : Resource) :
  r ∈ concat rss <-> exists l, l ∈ rss /\ r ∈ l.
Proof.
  induction rss as [|l rss IH]; simpl.
  - split; [by intros ?%elem_of_nil|by intros (l & ?%elem_of_nil & _)].
  - rewrite elem_of_app, IH. split.
    + intros [Hr|(l' & Hl' & Hr)]; [exists l; split; [by left|done]|].
      exists l'. split; [by right|done].
    + intros (l' & [->|Hl']%elem_of_cons & Hr); [by left|]. right. by exists l'.
Qed.

(** The records of a scan, one by one: a record comes from an occurring
    detection of an enabled pod problem on a listed pod, or is the record
    of a listed HPA that is maxed out. *)
Lemma scan_elem (o : Options) (pods : list corev1.Pod)
    (hpas : list v1.HorizontalPodAutoscaler) (rs : list Resource) (r : Resource) :
  scan o pods hpas = Ret rs ->
  r ∈ rs <->
  (exists pod p d,
      pod ∈ pods /\ p ∈ enabledPodProblems
      /\ Detector p (ObjPod pod) (cfg o) = Ret d
      /\ isOccurring d = true
      /\ r = recordOf (defaultPodProblem pod) p d)
  \/ (exists hpa, hpa ∈ hpas /\ maxedOut hpa /\ r = maxedOutRecord hpa).
Proof.
  intros (rss & Hrss & ->)%scan_Ret.
  rewrite elem_of_app, elem_of_concat, list_elem_of_fmap.
  split; intros [H|H]; [left|right|left|right].
  - destruct H as (l & Hl & Hr).
    apply list_elem_of_lookup in Hl as [i Hi].
    destruct (Forall2_lookup_r _ _ _ _ _ Hrss Hi) as (pod & Hpod & [b Hget]).
    destruct (proj1 (getPodsWithProblems_elem _ _ _ _ r Hget) Hr)
      as (p & d & Hp & Hd & Hocc & Heq).
    exists pod, p, d. split_and!; [|done..].
    apply list_elem_of_lookup. by exists i.
  - destruct H as (hpa & -> & [Hmax Hin]%list_elem_of_filter). by exists hpa.
  - destruct H as (pod & p & d & Hpod & Hp & Hd & Hocc & ->).
    apply list_elem_of_lookup in Hpod as [i Hi].
    destruct (Forall2_lookup_l _ _ _ _ _ Hrss Hi) as (l & Hl & [b Hget]).
    exists l. split; [apply list_elem_of_lookup; by exists i|].
    apply (getPodsWithProblems_elem _ _ _ _ _ Hget). by exists p, d.
  - destruct H as (hpa & Hin & Hmax & ->). exists hpa. split; [done|].
    by apply list_elem_of_filter.
Qed.

(** X13. A scan that returns yields no record exactly when no enabled pod
    detector reports an occurrence on any pod and no HPA is maxed out. *)
Theorem scan_all_clear (o : Options) (pods : list corev1.Pod)
    (hpas : list v1.HorizontalPodAutoscaler) (rs : list Resource) :
  scan o pods hpas = Ret rs ->
  rs = [] <->
  (forall pod p d,
      pod ∈ pods -> p ∈ enabledPodProblems ->
      Detector p (ObjPod pod) (cfg o) = Ret d -> isOccurring d = false)
  /\ (forall hpa, hpa ∈ hpas ->
                  v1.MaxReplicas (v1.Spec hpa) <> v1.CurrentReplicas (v1.Status hpa)).
Proof.
  intros Hscan. split.
  - intros ->. split.
    + intros pod p d Hpod Hp Hd. destruct (isOccurring d) eqn:Hocc; [|done].
      exfalso. apply (not_elem_of_nil (recordOf (defaultPodProblem pod) p d)).
      apply (scan_elem _ _ _ _ _ Hscan). left. by exists pod, p, d.
    + intros hpa Hin Hmax.
      apply (not_elem_of_nil (maxedOutRecord hpa)).
      apply (scan_elem _ _ _ _ _ Hscan). right. by exists hpa.
  - intros [Hpods Hhpas]. destruct rs as [|r rs]; [done|]. exfalso.
    assert (Hr : r ∈ r :: rs) by by left.
    apply (scan_elem _ _ _ _ _ Hscan) in Hr
      as [(pod & p & d & Hpod & Hp & Hd & Hocc & _)|(hpa & Hin & Hmax & _)].
    + rewrite (Hpods pod p d Hpod Hp Hd) in Hocc. done.
    + by apply (Hhpas hpa Hin).
Qed.

Lemma scan_all_clear_witness :
  ([] : list Resource) = [] <->
  (forall pod p d,
      pod ∈ [Samples.pod "web" [Samples.container "c" 1]] ->
      p ∈ enabledPodProblems ->
      Detector p (ObjPod pod) (cfg Samples.threshold3) = Ret d ->
      isOccurring d = false)
  /\ (forall hpa, hpa ∈ [Samples.hpa "web" 9 10] ->
                  v1.MaxReplicas (v1.Spec hpa) <> v1.CurrentReplicas (v1.Status hpa)).
Proof.
  apply (scan_all_clear Samples.threshold3
           [Samples.pod "web" [Samples.container "c" 1]]
           [Samples.hpa "web" 9 10] []).
  reflexivity.
Defined.

(** ** The report of a scan *)

Lemma resolves_enabled (p : Problem) : p ∈ enabledProblems -> resolves (ID p).
Proof.
  intros Hp. unfold resolves.
  destruct (findEnabled enabledProblems (ID p)) as [e|] eqn:He; [by eexists|].
  apply findEnabled_None in He. exfalso. apply He.
  apply list_elem_of_fmap. by exists p.
Qed.

Lemma filter_all {A : Type} (P : A -> Prop) `{forall x, Decision (P x)} (l : list A) :
  Forall P l -> filter P l = l.
Proof.
  induction 1 as [|x l Hx _ IH]; [done|].
  rewrite filter_cons, decide_True by done. by rewrite IH.
Qed.

Lemma scan_resolves (o : Options) (pods : list corev1.Pod)
    (hpas : list v1.HorizontalPodAutoscaler) (rs : list Resource) :
  scan o pods hpas = Ret rs -> Forall (fun r => resolves (ProblemID r)) rs.
Proof.
  intros Hscan. apply Forall_forall. intros r Hr.
  apply (scan_elem _ _ _ _ _ Hscan) in Hr
    as [(pod & p & d & _ & Hp & _ & _ & ->)|(hpa & _ & _ & ->)].
  - apply resolves_enabled. unfold enabledProblems. apply elem_of_app. by left.
  - apply (resolves_enabled ProblemMaxedOutHPAs).
    unfold enabledProblems. apply elem_of_app. right. by left.
Qed.

(** X14. The records of a scan all carry problem IDs of the catalog. So the
    report built from them lists a problem for every distinct problem ID
    of the records, in order of first appearance, and its two indices each
    point to every record exactly once: nothing that the scan found is left
    out of the report. *)
Theorem scan_report_complete (o : Options) (pods : list corev1.Pod)
    (hpas : list v1.HorizontalPodAutoscaler) (rs : list Resource) :
  scan o pods hpas = Ret rs ->
  Forall (fun r => ProblemID r ∈ map ID enabledProblems) rs
  /\ map ID (Problems (ReportFromResources rs)) = first_appearances (map ProblemID rs)
  /\ buckets (ByProblem (ReportFromResources rs)) ≡ₚ seq 0 (length rs)
  /\ severityBuckets (BySeverity (ReportFromResources rs)) ≡ₚ seq 0 (length rs)
  /\ records_at rs (buckets (ByProblem (ReportFromResources rs))) ≡ₚ rs
  /\ records_at rs (severityBuckets (BySeverity (ReportFromResources rs))) ≡ₚ rs.
Proof.
  intros Hscan. pose proof (scan_resolves _ _ _ _ Hscan) as Hres.
  assert (Hseq : indices_where resolvable 0 rs = seq 0 (length rs)).
  { apply indices_where_all. eapply Forall_impl; [exact Hres|].
    intros r Hr. by apply resolvable_true. }
  pose proof (ByProblem_buckets rs) as HP.
  pose proof (BySeverity_buckets rs) as HS.
  rewrite Hseq in HP, HS.
  split_and!; [| |done|done|by apply records_at_Permutation..].
  - eapply Forall_impl; [exact Hres|]. intros r Hr. simpl in Hr.
    destruct (decide (ProblemID r ∈ map ID enabledProblems)) as [|Hn]; [done|].
    apply findEnabled_None in Hn. unfold resolves in Hr. rewrite Hn in Hr.
    by destruct Hr.
  - rewrite ReportFromResources_Problems, fmap_ID_omap_findEnabled.
    apply filter_all. apply Forall_forall. intros id Hid.
    apply elem_of_first_appearances_from in Hid as [Hid _].
    apply list_elem_of_fmap in Hid as (r & -> & Hr).
    rewrite Forall_forall in Hres. by apply Hres.
Qed.

Lemma scan_report_complete_witness :
  exists rs,
    scan Samples.threshold3 [MoreSamples.notReadyRestarting]
      [Samples.hpa "web" 10 10] = Ret rs
    /\ map ID (Problems (ReportFromResources rs)) =
         ["PodNotReady"; "HighRestarts"; "MaxedOutHPAs"]
    /\ buckets (ByProblem (ReportFromResources rs)) ≡ₚ seq 0 (length rs).
Proof.
  eexists. split; [reflexivity|]. split; [reflexivity|].
  apply (scan_report_complete Samples.threshold3 [MoreSamples.notReadyRestarting]
           [Samples.hpa "web" 10 10] _ eq_refl).
Defined.

(** * Further properties of the report *)

(** ** [GetProblemByID] *)

Lemma findProblem_findEnabled (problems : list Problem) (id : string) :
  findProblem problems id = findEnabled problems id.
Proof. reflexivity. Qed.

(** X15. [GetProblemByID] returns the first problem of the report with the
    given ID, and nil exactly when the report lists no problem with that
    ID. *)
Theorem GetProblemByID_spec (r : Report) (id : string) :
  (GetProblemByID r id = None <-> id ∉ map ID (Problems r))
  /\ (forall p, GetProblemByID r id = Some p ->
                exists pre post,
                  Problems r = pre ++ p :: post
                  /\ ID p = id
                  /\ id ∉ map ID pre).
Proof.
  unfold GetProblemByID. split.
  - rewrite findProblem_findEnabled. apply findEnabled_None.
  - generalize (Problems r). intros l. induction l as [|q l IH]; simpl; [done|].
    intros p. destruct (decide (ID q = id)) as [Hq|Hq].
    + intros [= <-]. exists [], l. split_and!; [done..|apply not_elem_of_nil].
    + intros (pre & post & -> & Hp & Hpre)%IH.
      exists (q :: pre), post. split_and!; [done..|].
      simpl. apply not_elem_of_cons. split; [congruence|done].
Qed.

(** X16. On a report built by [ReportFromResources], [GetProblemByID] finds the
    catalog entry of every problem ID that occurs in the records and
    resolves, and nothing else. Every key of either index is such an ID,
    so the rendering loops of [Run] never meet a nil problem. *)
Theorem GetProblemByID_report (resources : list Resource) (id : string) :
  GetProblemByID (ReportFromResources resources) id =
    (if decide (id ∈ map ProblemID resources)
     then findEnabled enabledProblems id
     else None)
  /\ (forall pointers,
         ByProblem (ReportFromResources resources) !! id = Some pointers ->
         is_Some (GetProblemByID (ReportFromResources resources) id))
  /\ (forall severity m pointers,
         BySeverity (ReportFromResources resources) !! severity = Some m ->
         m !! id = Some pointers ->
         is_Some (GetProblemByID (ReportFromResources resources) id)).
Proof.
  assert (Hget : GetProblemByID (ReportFromResources resources) id =
                 if decide (id ∈ map ProblemID resources)
                 then findEnabled enabledProblems id
                 else None).
  { unfold GetProblemByID. rewrite findProblem_findEnabled.
    destruct (decide (id ∈ map ProblemID resources)) as [Hin|Hnin].
    - destruct (findEnabled enabledProblems id) as [e|] eqn:He.
      + destruct (findEnabled_Some _ _ _ He) as [<- Hcat].
        apply findEnabled_NoDup; [apply ReportFromResources_NoDup|].
        rewrite ReportFromResources_Problems. apply list_elem_of_omap.
        exists (ID e). split; [|done].
        apply elem_of_first_appearances_from. split; [done|apply not_elem_of_nil].
      + apply findEnabled_None. intros [Hres _]%ReportFromResources_elem_ID.
        unfold resolves in Hres. rewrite He in Hres. by destruct Hres.
    - apply findEnabled_None. by intros [_ Hin]%ReportFromResources_elem_ID. }
  assert (Hkey : resolves id -> id ∈ map ProblemID resources ->
                 is_Some (GetProblemByID (ReportFromResources resources) id)).
  { intros Hres Hin. rewrite Hget, decide_True by done. exact Hres. }
  assert (Hin : forall (Q : string -> Resource -> bool) k,
             (forall r, Q id r = true -> ProblemID r = id) ->
             k ∈ indices_where (Q id) 0 resources ->
             id ∈ map ProblemID resources).
  { intros Q k HQ (r & Hr & HQr%HQ)%elem_of_indices_where_0.
    apply list_elem_of_fmap. exists r. split; [done|].
    apply list_elem_of_lookup. by exists k. }
  split_and!; [exact Hget| |].
  - intros pointers. rewrite ByProblem_closed. intros Hl.
    assert (Hl' := Hl). rewrite report_index_lookup in Hl' by apply hasProblem_ID.
    apply report_index_lookup_Some in Hl as [Hres ->]; [|apply hasProblem_ID].
    rewrite decide_True in Hl' by done.
    destruct (indices_where (hasProblem id) 0 resources) as [|k l] eqn:Hidx; [done|].
    apply Hkey; [done|]. apply (Hin hasProblem k); [apply hasProblem_ID|].
    rewrite Hidx. by left.
  - intros severity m pointers [_ ->]%BySeverity_lookup_Some Hl.
    assert (Hl' := Hl).
    rewrite report_index_lookup in Hl' by apply hasProblemAndSeverity_ID.
    apply report_index_lookup_Some in Hl as [Hres ->];
      [|apply hasProblemAndSeverity_ID].
    rewrite decide_True in Hl' by done.
    destruct (indices_where (hasProblemAndSeverity severity id) 0 resources)
      as [|k l] eqn:Hidx; [done|].
    apply Hkey; [done|].
    apply (Hin (hasProblemAndSeverity severity) k);
      [apply hasProblemAndSeverity_ID|].
    rewrite Hidx. by left.
Qed.

(** ** [ByProblem] on an arbitrary report *)

Lemma appendProblems_lookup_general (Q : string -> Resource -> bool)
    (problems : list Problem) (resources : list Resource)
    (m : gmap string (list nat)) (id : string) :
  appendProblems Q problems resources m !! id =
    match length (filter (fun p => ID p = id) problems),
          indices_where (Q id) 0 resources with
    | O, _ => m !! id
    | _, [] => m !! id
    | k, pointers => Some (default [] (m !! id) ++ concat (replicate k pointers))
    end.
Proof.
  revert m. induction problems as [|p rest IH]; intros m; [done|].
  cbn [appendProblems]. rewrite IH, appendAll_lookup, filter_cons.
  destruct (decide (ID p = id)) as [<-|Hne]; [|done].
  cbn [length].
  destruct (indices_where (Q (ID p)) 0 resources) as [|j pointers] eqn:Hidx.
  { by destruct (length _). }
  destruct (length (filter (fun q => ID q = ID p) rest)) as [|k]; simpl.
  - by rewrite app_nil_r.
  - by rewrite <- !app_assoc.
Qed.

(** X17. For any report, hand-built ones included, the bucket of a problem ID
    in [ByProblem] holds the pointers to the records with that ID, in input
    order, once for every entry of [Problems] that has the ID: a problem
    listed twice lists its records twice. An ID without a listed problem,
    or without a record, is not a key. *)
Theorem ByProblem_any_report (r : Report) (id : string) :
  ByProblem r !! id =
    match length (filter (fun p => ID p = id) (Problems r)),
          indices_where (hasProblem id) 0 (Resources r) with
    | O, _ => None
    | _, [] => None
    | k, pointers => Some (concat (replicate k pointers))
    end.
Proof.
  unfold ByProblem.
  rewrite ByProblem_problems_closed, appendProblems_lookup_general, lookup_empty.
  by destruct (length (filter (fun p => ID p = id) (Problems r))),
              (indices_where (hasProblem id) 0 (Resources r)).
Qed.

Lemma ByProblem_any_report_witness :
  ByProblem {| Problems := [ProblemPodNotReady; ProblemHighRestarts; ProblemPodNotReady];
               Resources := Samples.records |} !! "PodNotReady"
    = Some [2; 2]%nat
  /\ ByProblem {| Problems := [ProblemPodNotReady]; Resources := Samples.records |}
       !! "HighRestarts" = None.
Proof.
  split.
  - rewrite ByProblem_any_report. reflexivity.
  - rewrite ByProblem_any_report. reflexivity.
Defined.

(** ** The two indices agree *)

(** X18. On a report built by [ReportFromResources], every bucket of
    [ByProblem] is split by [BySeverity] into the bucket of the same ID
    under Error, which points to the records that are not warnings, and
    the bucket under Warning, which points to the warnings. A severity has
    the key only when it has a record for it. *)
Theorem BySeverity_splits_ByProblem (resources : list Resource) (id : string)
    (pointers : list nat) :
  ByProblem (ReportFromResources resources) !! id = Some pointers ->
  exists mE mW,
    BySeverity (ReportFromResources resources) !! SeverityError = Some mE
    /\ BySeverity (ReportFromResources resources) !! SeverityWarning = Some mW
    /\ default [] (mE !! id) ++ default [] (mW !! id) ≡ₚ pointers
    /\ mE !! id <> Some []
    /\ mW !! id <> Some []
    /\ (forall k, k ∈ default [] (mE !! id) <->
                  exists x, resources !! k = Some x
                            /\ ProblemID x = id /\ Warning x = false)
    /\ (forall k, k ∈ default [] (mW !! id) <->
                  exists x, resources !! k = Some x
                            /\ ProblemID x = id /\ Warning x = true).
Proof.
  rewrite ByProblem_closed.
  intros [Hres ->]%report_index_lookup_Some; [|apply hasProblem_ID].
  assert (Hsev : forall severity,
             severity = SeverityError \/ severity = SeverityWarning ->
             exists m,
               BySeverity (ReportFromResources resources) !! severity = Some m
               /\ m !! id <> Some []
               /\ default [] (m !! id) =
                    indices_where (hasProblemAndSeverity severity id) 0 resources).
  { intros severity Hs. eexists. split.
    { rewrite BySeverity_lookup, decide_True by done. reflexivity. }
    rewrite report_index_lookup by apply hasProblemAndSeverity_ID.
    rewrite decide_True by done.
    by destruct (indices_where _ _ _). }
  destruct (Hsev SeverityError) as (mE & HmE & HnE & HE); [by left|].
  destruct (Hsev SeverityWarning) as (mW & HmW & HnW & HW); [by right|].
  assert (HelE : forall k, k ∈ default [] (mE !! id) <->
                  exists x, resources !! k = Some x
                            /\ ProblemID x = id /\ Warning x = false).
  { intros k. rewrite HE, elem_of_indices_where_0.
    unfold hasProblemAndSeverity, hasProblem, hasSeverity, severityOf.
    split; intros (x & Hx & H); exists x; (split; [done|]).
    - apply andb_true_iff in H as [H1%bool_decide_eq_true H2%bool_decide_eq_true].
      split; [done|]. by destruct (Warning x).
    - destruct H as [-> ->]. by rewrite !bool_decide_eq_true_2. }
  assert (HelW : forall k, k ∈ default [] (mW !! id) <->
                  exists x, resources !! k = Some x
                            /\ ProblemID x = id /\ Warning x = true).
  { intros k. rewrite HW, elem_of_indices_where_0.
    unfold hasProblemAndSeverity, hasProblem, hasSeverity, severityOf.
    split; intros (x & Hx & H); exists x; (split; [done|]).
    - apply andb_true_iff in H as [H1%bool_decide_eq_true H2%bool_decide_eq_true].
      split; [done|]. by destruct (Warning x).
    - destruct H as [-> ->]. by rewrite !bool_decide_eq_true_2. }
  exists mE, mW. split_and!; [done|done| |done..].
  apply NoDup_Permutation.
  - apply NoDup_app. split_and!.
    + rewrite HE. apply indices_where_NoDup.
    + intros k (x & Hx & _ & Hw)%HelE (x' & Hx' & _ & Hw')%HelW. congruence.
    + rewrite HW. apply indices_where_NoDup.
  - apply indices_where_NoDup.
  - intros k. rewrite elem_of_app, HelE, HelW, elem_of_indices_where_0.
    split.
    + intros [(x & Hx & Hid & _)|(x & Hx & Hid & _)]; exists x;
        (split; [done|]); by apply bool_decide_eq_true.
    + intros (x & Hx & Hid%hasProblem_ID).
      destruct (Warning x) eqn:Hw; [right|left]; by exists x.
Qed.

Lemma BySeverity_splits_ByProblem_witness :
  exists mE mW,
    BySeverity (ReportFromResources Samples.records) !! SeverityError = Some mE
    /\ BySeverity (ReportFromResources Samples.records) !! SeverityWarning = Some mW
    /\ default [] (mE !! "PodOOMKilled") ++ default [] (mW !! "PodOOMKilled")
         ≡ₚ [4; 5]%nat
    /\ mE !! "PodOOMKilled" <> Some []
    /\ mW !! "PodOOMKilled" <> Some []
    /\ (forall k, k ∈ default [] (mE !! "PodOOMKilled") <->
                  exists x, Samples.records !! k = Some x
                            /\ ProblemID x = "PodOOMKilled" /\ Warning x = false)
    /\ (forall k, k ∈ default [] (mW !! "PodOOMKilled") <->
                  exists x, Samples.records !! k = Some x
                            /\ ProblemID x = "PodOOMKilled" /\ Warning x = true).
Proof.
  apply (BySeverity_splits_ByProblem Samples.records "PodOOMKilled" [4; 5]%nat).
  by vm_compute.
Defined.

(** ** [ReportFromResources] and concatenation *)

Lemma first_appearances_from_ext (seen seen' ids : list string) :
  (forall x, x ∈ seen <-> x ∈ seen') ->
  first_appearances_from seen ids = first_appearances_from seen' ids.
Proof.
  revert seen seen'. induction ids as [|id rest IH]; intros seen seen' Hext; [done|].
  simpl. destruct (decide (id ∈ seen)) as [Hin|Hnin].
  - rewrite decide_True by (by apply Hext). by apply IH.
  - rewrite decide_False by (by rewrite <- Hext). f_equal. apply IH.
    intros x. rewrite !elem_of_cons, Hext. done.
Qed.

Lemma first_appearances_from_app (seen a b : list string) :
  first_appearances_from seen (a ++ b) =
    first_appearances_from seen a ++ first_appearances_from (a ++ seen) b.
Proof.
  revert seen. induction a as [|x a IH]; intros seen; [done|].
  simpl. destruct (decide (x ∈ seen)) as [Hin|Hnin].
  - rewrite IH.
    rewrite (first_appearances_from_ext (x :: a ++ seen) (a ++ seen)); [done|].
    intros y. rewrite elem_of_cons, !elem_of_app. set_solver.
  - simpl. rewrite IH.
    rewrite (first_appearances_from_ext (x :: a ++ seen) (a ++ x :: seen)); [done|].
    intros y. rewrite elem_of_cons, !elem_of_app, elem_of_cons. set_solver.
Qed.

Lemma first_appearances_from_filter (s seen b : list string) :
  first_appearances_from (s ++ seen) b =
    filter (fun x => x ∉ seen) (first_appearances_from s b).
Proof.
  revert s. induction b as [|x b IH]; intros s; [done|].
  simpl. destruct (decide (x ∈ s)) as [Hs|Hs].
  - rewrite decide_True by set_solver. apply IH.
  - rewrite filter_cons. destruct (decide (x ∈ seen)) as [Hseen|Hseen].
    + rewrite decide_True by set_solver.
      rewrite decide_False by (by intros H; apply H).
      rewrite <- (IH (x :: s)). apply first_appearances_from_ext.
      intros y. simpl. rewrite elem_of_cons, !elem_of_app. set_solver.
    + rewrite decide_False by set_solver. rewrite decide_True by done.
      rewrite <- (IH (x :: s)). done.
Qed.

Lemma omap_findEnabled_filter (catalog : list Problem) (seen ids : list string) :
  omap (findEnabled catalog) (filter (fun x => x ∉ seen) ids) =
    filter (fun p => ID p ∉ seen) (omap (findEnabled catalog) ids).
Proof.
  induction ids as [|id rest IH]; [done|].
  rewrite filter_cons. simpl.
  destruct (findEnabled catalog id) as [e|] eqn:He.
  - destruct (findEnabled_Some _ _ _ He) as [Hid _].
    rewrite filter_cons. destruct (decide (id ∉ seen)) as [Hn|Hn].
    + rewrite decide_True by (by rewrite Hid). simpl. rewrite He.
      f_equal. exact IH.
    + rewrite decide_False by (by rewrite Hid). exact IH.
  - destruct (decide (id ∉ seen)); [|exact IH]. simpl. rewrite He. exact IH.
Qed.

(** X19. The problems of the report of a concatenated record list are the
    problems of the report of the first part, followed by those problems
    of the report of the second part whose ID does not occur in the first
    part. In particular the problems of a prefix of the records stay in
    front, in the same order, when more records follow. *)
Theorem ReportFromResources_app (a b : list Resource) :
  Problems (ReportFromResources (a ++ b)) =
    Problems (ReportFromResources a)
    ++ filter (fun p => ID p ∉ map ProblemID a) (Problems (ReportFromResources b)).
Proof.
  rewrite !ReportFromResources_Problems. unfold first_appearances.
  rewrite map_app, first_appearances_from_app, omap_app.
  rewrite <- omap_findEnabled_filter.
  rewrite <- (first_appearances_from_filter [] (map ProblemID a)).
  rewrite (first_appearances_from_ext (map ProblemID a ++ [])
             ([] ++ map ProblemID a)); [done|].
  intros x. by rewrite app_nil_r.
Qed.

(** * Further properties of the driver *)

(** ** The help index *)

Lemma flat_map_keys {V B : Type} (f : string * V -> list B) (g : string -> list B)
    (l : list (string * V)) :
  (forall e, f e = g e.1) -> flat_map f l = flat_map g (map fst l).
Proof.
  intros Hfg. induction l as [|e l IH]; [done|]. simpl. by rewrite Hfg, IH.
Qed.

Lemma ByProblem_keys (resources : list Resource) :
  map fst (map_to_list (ByProblem (ReportFromResources resources)))
    ≡ₚ map ID (Problems (ReportFromResources resources)).
Proof.
  apply NoDup_Permutation.
  - apply (NoDup_fst_map_to_list (ByProblem (ReportFromResources resources))).
  - apply ReportFromResources_NoDup.
  - intros id. rewrite ReportFromResources_elem_ID, list_elem_of_fmap. split.
    + intros ([id' l] & -> & Hl%elem_of_map_to_list). simpl.
      rewrite ByProblem_closed in Hl.
      assert (Hl' := Hl). rewrite report_index_lookup in Hl' by apply hasProblem_ID.
      apply report_index_lookup_Some in Hl as [Hres ->]; [|apply hasProblem_ID].
      split; [done|]. rewrite decide_True in Hl' by done.
      destruct (indices_where (hasProblem id') 0 resources) as [|k l] eqn:Hidx;
        [done|].
      assert (Hk : k ∈ indices_where (hasProblem id') 0 resources)
        by (rewrite Hidx; by left).
      apply elem_of_indices_where_0 in Hk as (r & Hr & Hid%hasProblem_ID).
      apply list_elem_of_fmap. exists r. split; [done|].
      apply list_elem_of_lookup. by exists k.
    + intros [Hres (r & -> & Hr)%list_elem_of_fmap].
      apply list_elem_of_lookup in Hr as [k Hk].
      assert (Hin : k ∈ indices_where (hasProblem (ProblemID r)) 0 resources).
      { apply elem_of_indices_where_0. exists r. split; [done|].
        by apply bool_decide_eq_true. }
      exists (ProblemID r, indices_where (hasProblem (ProblemID r)) 0 resources).
      split; [done|]. apply elem_of_map_to_list.
      rewrite ByProblem_closed, report_index_lookup by apply hasProblem_ID.
      rewrite decide_True by done.
      destruct (indices_where (hasProblem (ProblemID r)) 0 resources); [|done].
      by apply elem_of_nil in Hin.
Qed.

(** X20. The rendering of a report built by [ReportFromResources] starts with
    the "problems found" heading and ends with a help index that has
    exactly one line for every problem of the report, with the problem's
    help URL or, when that is empty, the wiki URL made from its ID. *)
Theorem render_help_index (resources : list Resource) :
  exists body help,
    render (ReportFromResources resources) =
      [ProblemsFound] ++ body ++ [MoreInformation] ++ help
    /\ help ≡ₚ map helpLine (Problems (ReportFromResources resources)).
Proof.
  eexists _, _. split; [reflexivity|].
  rewrite (flat_map_keys _
             (fun id => match GetProblemByID (ReportFromResources resources) id with
                        | None => []
                        | Some p => [helpLine p]
                        end)).
  2: { intros [id l]. unfold renderHelp, helpLine, GetProblemByID. simpl.
       rewrite findProblem_findEnabled.
       destruct (findEnabled _ id) as [p|] eqn:Hp; [|done].
       by destruct (findEnabled_Some _ _ _ Hp) as [-> _]. }
  rewrite (Permutation_flat_map _ (ByProblem_keys resources)).
  pose proof (ReportFromResources_NoDup resources) as Hnd.
  assert (Hget : forall p, p ∈ Problems (ReportFromResources resources) ->
                 GetProblemByID (ReportFromResources resources) (ID p) = Some p).
  { intros p Hp. unfold GetProblemByID. rewrite findProblem_findEnabled.
    by apply findEnabled_NoDup. }
  revert Hget. generalize (GetProblemByID (ReportFromResources resources)).
  generalize (Problems (ReportFromResources resources)).
  intros l get Hget. induction l as [|p l IH]; [done|].
  simpl. rewrite Hget by (by left). simpl. f_equiv. apply IH.
  intros q Hq. apply Hget. by right.
Qed.

(** ** Fatal errors of [Run] *)

(** X23. [Run] returns an error exactly when the cluster client or one of the
    two listings fails. It has then printed nothing and scanned nothing;
    the error is the cause wrapped with the step that failed, the client
    first, then the pod listing, then the HPA listing. *)
Theorem Run_fatal_errors (o : Options) (kube : string + KubeClient) :
  ((exists msg, termination (Run o kube) = Returned (Some msg)) <->
   (exists err, kube = inl err)
   \/ (exists k, kube = inr k
                 /\ ((exists err, ListPods k = inl err)
                     \/ (exists err, ListHPAs k = inl err))))
  /\ (forall msg, termination (Run o kube) = Returned (Some msg) ->
                  stdout (Run o kube) = []
                  /\ match kube with
                     | inl err =>
                         msg = "failed to get kubernetes client (is the devenv running?): "
                               +:+ err
                     | inr k =>
                         match ListPods k, ListHPAs k with
                         | inl err, _ => msg = "failed to list pods: " +:+ err
                         | inr _, inl err => msg = "failed to list hpas: " +:+ err
                         | inr _, inr _ => False
                         end
                     end).
Proof.
  unfold Run. split.
  - split.
    + intros [msg Hmsg]. destruct kube as [err|k]; [left; by exists err|].
      right. exists k. split; [done|].
      destruct (ListPods k) as [err|pods]; [left; by exists err|].
      destruct (ListHPAs k) as [err|hpas]; [right; by exists err|].
      destruct (scan o pods hpas) as [rs|]; [|done].
      by destruct (decide (length rs = 0%nat)).
    + intros [[err ->]|(k & -> & [[err Hp]|[err Hh]])].
      * by eexists.
      * rewrite Hp. by eexists.
      * rewrite Hh. destruct (ListPods k); by eexists.
  - intros msg. destruct kube as [err|k].
    + by intros [= <-].
    + destruct (ListPods k) as [err|pods]; [by intros [= <-]|].
      destruct (ListHPAs k) as [err|hpas]; [by intros [= <-]|].
      destruct (scan o pods hpas) as [rs|]; [|done].
      by destruct (decide (length rs = 0%nat)).
Qed.

Lemma Run_fatal_errors_witness :
  stdout (Run Samples.threshold3
            (inr {| ListPods := inl "connection refused";
                    ListHPAs := inl "forbidden" |})) = []
  /\ "failed to list pods: connection refused" =
       "failed to list pods: " +:+ "connection refused".
Proof.
  apply (proj2 (Run_fatal_errors Samples.threshold3
                  (inr {| ListPods := inl "connection refused";
                          ListHPAs := inl "forbidden" |}))
           "failed to list pods: connection refused").
  reflexivity.
Defined.

(** ** The command's action *)

(** X24. The action of the checkup command always runs with a configuration:
    the value of the restart-threshold flag, 3 when the flag is not given.
    Once both listings have succeeded, the run ends in one of three ways:
    all clear (nil), exit status 1, or a panic; and it panics exactly when
    the PodCrashLoopBackOff detector panics on some listed pod. *)
Theorem Action_outcome (restartThreshold : option Z) (k : KubeClient)
    (pods : list corev1.Pod) (hpas : list v1.HorizontalPodAutoscaler) :
  ListPods k = inr pods ->
  ListHPAs k = inr hpas ->
  Action None (inr k) = Action (Some 3) (inr k)
  /\ (termination (Action restartThreshold (inr k)) = Returned None
      \/ termination (Action restartThreshold (inr k)) = Exited 1
      \/ termination (Action restartThreshold (inr k)) = Panicked)
  /\ (termination (Action restartThreshold (inr k)) = Panicked <->
      exists pod,
        pod ∈ pods
        /\ Detector ProblemPodCrashLoopBackOff (ObjPod pod)
             (Some {| RestartThreshold := default 3 restartThreshold |}) = Panic).
Proof.
  intros Hpods Hhpas. split; [done|].
  unfold Action, Run. rewrite Hpods, Hhpas.
  destruct (scan _ pods hpas) as [rs|] eqn:Hscan.
  - destruct (decide (length rs = 0%nat)); (split; [auto|]).
    + split; [done|]. intros (pod & Hin & Hpanic).
      assert (scan {| cfg := Some {| RestartThreshold :=
                        default restartThresholdDefault restartThreshold |} |}
                pods hpas = Panic) as Hp; [|congruence].
      apply scan_Panic_iff. exists pod. split; [done|]. by left.
    + split; [done|]. intros (pod & Hin & Hpanic).
      assert (scan {| cfg := Some {| RestartThreshold :=
                        default restartThresholdDefault restartThreshold |} |}
                pods hpas = Panic) as Hp; [|congruence].
      apply scan_Panic_iff. exists pod. split; [done|]. by left.
  - split; [auto|]. split; [intros _|done].
    apply scan_Panic_iff in Hscan as (pod & Hin & [Hpanic|Hpanic]).
    + by exists pod.
    + simpl in Hpanic.
      destruct (HighRestarts_returns pod
                  {| RestartThreshold :=
                       default restartThresholdDefault restartThreshold |})
        as [d Hd].
      simpl in Hd. congruence.
Qed.

Lemma Action_outcome_witness :
  termination
    (Action None
       (inr {| ListPods := inr [Samples.pod "web" [Samples.crashLooping "app"]];
               ListHPAs := inr [] |})) = Panicked
  <-> exists pod,
      pod ∈ [Samples.pod "web" [Samples.crashLooping "app"]]
      /\ Detector ProblemPodCrashLoopBackOff (ObjPod pod)
           (Some {| RestartThreshold := default 3 None |}) = Panic.
Proof.
  apply (Action_outcome None
           {| ListPods := inr [Samples.pod "web" [Samples.crashLooping "app"]];
              ListHPAs := inr [] |}
           [Samples.pod "web" [Samples.crashLooping "app"]] [] eq_refl eq_refl).
Defined.

(** ** The lines of the rendering *)

Lemma string_app_empty_r (s : string) : s +:+ "" = s.
Proof.
  induction s as [|a s IH]; [done|].
  change (String a s +:+ "") with (String a (s +:+ "")). by rewrite IH.
Qed.

Lemma renderResource_eq (report : Report) (j : nat) :
  renderResource report j =
    match Resources report !! j with
    | Some r => [ResourceLine (resourceMessage r)]
    | None => []
    end.
Proof.
  unfold renderResource, resourceMessage.
  destruct (Resources report !! j) as [r|]; [|done].
  destruct (decide (ProblemDetails r <> "")), (decide (Owner r <> ""));
    by rewrite ?string_app_empty_r.
Qed.

Lemma filter_flat_map {A B : Type} (P : B -> bool) (f : A -> list B) (l : list A) :
  List.filter P (flat_map f l) = flat_map (fun x => List.filter P (f x)) l.
Proof.
  induction l as [|x l IH]; [done|]. simpl. by rewrite List.filter_app, IH.
Qed.

Lemma flat_map_ext_elem {A B : Type} (f g : A -> list B) (l : list A) :
  (forall x, x ∈ l -> f x = g x) -> flat_map f l = flat_map g l.
Proof.
  intros Hfg. induction l as [|x l IH]; [done|]. simpl.
  rewrite Hfg by (by left). rewrite IH; [done|].
  intros y Hy. apply Hfg. by right.
Qed.

Lemma flat_map_flatten {K V B : Type} `{Countable K} (f : V -> list nat)
    (g : nat -> list B) (m : gmap K V) :
  flat_map (fun e : K * V => flat_map g (f e.2)) (map_to_list m) =
    flat_map g (flatten f m).
Proof.
  unfold flatten. induction (map_to_list m) as [|e l IH]; [done|].
  simpl. by rewrite flat_map_app, IH.
Qed.

Lemma filter_resourceLines (report : Report) (l : list nat) :
  List.filter isResourceLine (flat_map (renderResource report) l) =
    flat_map (renderResource report) l.
Proof.
  induction l as [|j l IH]; [done|]. simpl.
  rewrite List.filter_app, IH. f_equal. rewrite renderResource_eq.
  by destruct (Resources report !! j).
Qed.

Lemma renderResource_indices (P : Resource -> bool) (problems : list Problem)
    (pre l : list Resource) :
  flat_map (renderResource {| Problems := problems; Resources := pre ++ l |})
    (indices_where P (length pre) l) =
    map (fun r => ResourceLine (resourceMessage r)) (List.filter P l).
Proof.
  revert pre. induction l as [|x l IH]; intros pre; [done|].
  specialize (IH (pre ++ [x])). rewrite length_app, <- app_assoc in IH.
  simpl in IH. rewrite Nat.add_1_r in IH.
  simpl. destruct (P x); [|exact IH].
  simpl. rewrite IH, renderResource_eq. simpl.
  by rewrite list_lookup_middle.
Qed.

Lemma GetProblemByID_key (resources : list Resource) (id : string) :
  resolves id -> id ∈ map ProblemID resources ->
  exists p, GetProblemByID (ReportFromResources resources) id = Some p
            /\ findEnabled enabledProblems id = Some p.
Proof.
  intros [e He] Hin. exists e. split; [|done].
  unfold GetProblemByID. rewrite findProblem_findEnabled.
  destruct (findEnabled_Some _ _ _ He) as [<- Hcat].
  apply findEnabled_NoDup; [apply ReportFromResources_NoDup|].
  rewrite ReportFromResources_Problems. apply list_elem_of_omap.
  exists (ID e). split; [|done].
  apply elem_of_first_appearances_from. split; [done|apply not_elem_of_nil].
Qed.

(** The bucket of [id] under [severity], in a report built from
    [resources]: what it holds, and that its problem is found. *)
Lemma severity_bucket (resources : list Resource) (severity : Severity)
    (m : gmap string (list nat)) (id : string) (pointers : list nat) :
  BySeverity (ReportFromResources resources) !! severity = Some m ->
  m !! id = Some pointers ->
  (severity = SeverityError \/ severity = SeverityWarning)
  /\ pointers = indices_where (hasProblemAndSeverity severity id) 0 resources
  /\ pointers <> []
  /\ exists p, GetProblemByID (ReportFromResources resources) id = Some p
               /\ findEnabled enabledProblems id = Some p.
Proof.
  intros [Hs ->]%BySeverity_lookup_Some Hl.
  assert (Hl' := Hl).
  rewrite report_index_lookup in Hl' by apply hasProblemAndSeverity_ID.
  apply report_index_lookup_Some in Hl as [Hres ->];
    [|apply hasProblemAndSeverity_ID].
  rewrite decide_True in Hl' by done.
  destruct (indices_where (hasProblemAndSeverity severity id) 0 resources)
    as [|k l] eqn:Hidx; [done|].
  split_and!; [done..|].
  apply GetProblemByID_key; [done|].
  assert (Hk : k ∈ indices_where (hasProblemAndSeverity severity id) 0 resources)
    by (rewrite Hidx; by left).
  apply elem_of_indices_where_0 in Hk as (r & Hr & Hid%hasProblemAndSeverity_ID).
  apply list_elem_of_fmap. exists r. split; [done|].
  apply list_elem_of_lookup. by exists k.
Qed.

Lemma render_body_resourceLines (resources : list Resource) :
  List.filter isResourceLine
    (flat_map (fun sp : Severity * gmap string (list nat) =>
                 flat_map (renderProblem (ReportFromResources resources) sp.1)
                   (map_to_list sp.2))
       (map_to_list (BySeverity (ReportFromResources resources))))
  = flat_map (renderResource (ReportFromResources resources))
      (severityBuckets (BySeverity (ReportFromResources resources))).
Proof.
  unfold severityBuckets. rewrite <- flat_map_flatten, filter_flat_map.
  apply flat_map_ext_elem. intros [severity m] Hm%elem_of_map_to_list. simpl.
  unfold buckets. rewrite <- flat_map_flatten, filter_flat_map.
  apply flat_map_ext_elem. intros [id l] Hl%elem_of_map_to_list. simpl.
  destruct (severity_bucket _ _ _ _ _ Hm Hl) as (_ & _ & _ & p & -> & _).
  simpl. apply filter_resourceLines.
Qed.

(** X21. In the rendering of a report built by [ReportFromResources], the lines
    between the two headings hold exactly one resource line for every
    record whose problem ID resolves, with the record's name, its detail if
    it has one, and its owner if it has one. *)
Theorem render_resource_lines (resources : list Resource) :
  exists body help,
    render (ReportFromResources resources) =
      [ProblemsFound] ++ body ++ [MoreInformation] ++ help
    /\ List.filter isResourceLine body ≡ₚ
         map (fun r => ResourceLine (resourceMessage r))
           (List.filter resolvable resources).
Proof.
  eexists _, _. split; [reflexivity|].
  rewrite render_body_resourceLines.
  rewrite (Permutation_flat_map _ (BySeverity_buckets resources)).
  pose proof (renderResource_indices resolvable
                (Problems (ReportFromResources resources)) [] resources) as Hidx.
  change {| Problems := Problems (ReportFromResources resources);
            Resources := [] ++ resources |}
    with (ReportFromResources resources) in Hidx.
  change (length (@nil Resource)) with 0%nat in Hidx.
  by rewrite Hidx.
Qed.

(** X22. Every problem heading of that rendering belongs to a problem of the
    catalog and to one of the two severities; the number of occurrences it
    states is the number of records with that problem ID and that severity,
    which is at least one, and the plural "s" is there exactly when the
    number is above one. *)
Theorem render_headings (resources : list Resource) (severity : Severity)
    (id shortDescription : string) (occurrences : nat) (plural : string) :
  ProblemHeading severity id shortDescription occurrences plural
    ∈ render (ReportFromResources resources) ->
  (severity = SeverityError \/ severity = SeverityWarning)
  /\ (exists p, findEnabled enabledProblems id = Some p
                /\ shortDescription = ShortDescription p)
  /\ occurrences =
       length (List.filter (hasProblemAndSeverity severity id) resources)
  /\ (0 < occurrences)%nat
  /\ plural = (if bool_decide (1 < occurrences)%nat then "s" else "").
Proof.
  unfold render. rewrite !elem_of_app. intros [Hin|[Hin|[Hin|Hin]]].
  - by apply list_elem_of_singleton in Hin.
  - apply list_elem_of_In, in_flat_map in Hin as ([sev m] & Hm & Hin).
    apply in_flat_map in Hin as ([id' l] & Hl & Hin).
    apply list_elem_of_In, elem_of_map_to_list in Hm, Hl. simpl in *.
    destruct (severity_bucket _ _ _ _ _ Hm Hl) as (Hsev & Hidx & Hne & p & Hget & Hcat).
    rewrite Hget in Hin. destruct Hin as [Hin|Hin].
    + injection Hin as <- <- <- <- <-. split_and!; [done|by exists p| |..|done].
      * rewrite Hidx. clear.
        generalize 0%nat. induction resources as [|r rs IH]; intros j; [done|].
        simpl. destruct (hasProblemAndSeverity sev id' r); simpl; by rewrite IH.
      * destruct l; [done|simpl; lia].
    + exfalso. apply in_flat_map in Hin as (j & _ & Hj).
      rewrite renderResource_eq in Hj.
      destruct (Resources (ReportFromResources resources) !! j); [|done].
      by destruct Hj.
  - by apply list_elem_of_singleton in Hin.
  - exfalso. apply list_elem_of_In, in_flat_map in Hin as ([id' l] & _ & Hin).
    unfold renderHelp in Hin.
    destruct (GetProblemByID (ReportFromResources resources) id'); [|done].
    by destruct Hin.
Qed.

Lemma render_headings_witness :
  (SeverityWarning = SeverityError \/ SeverityWarning = SeverityWarning)
  /\ (exists p, findEnabled enabledProblems "HighRestarts" = Some p
                /\ "A pod keeps restarting which can indicate a problem"
                   = ShortDescription p)
  /\ 2%nat = length (List.filter (hasProblemAndSeverity SeverityWarning "HighRestarts")
                       Samples.records)
  /\ (0 < 2)%nat
  /\ "s" = (if bool_decide (1 < 2)%nat then "s" else "").
Proof.
  apply (render_headings Samples.records SeverityWarning "HighRestarts"
           "A pod keeps restarting which can indicate a problem" 2 "s").
  apply list_elem_of_In. vm_compute. auto 20.
Defined.
